(** * A2J legal-judgment pipeline: extraction, reconciliation, archive merge

    A shallow embedding of [a2j_legal/llm_processor.py] and
    [a2j_legal/excel_utils.py], followed by the properties of the
    extraction adapter, the reconciliation fallback and the archive merger.

    Python [str] values are sequences of Unicode code points, modelled as
    [list N].  Python [int] is unbounded and modelled as [Z].  Exceptions are
    values of [exn] carried in the left summand of [result]. *)

From Stdlib Require Import ZArith NArith Lia Ascii String.
From stdpp Require Import base option list gmap strings.

Set Warnings "-register-all".
Local Open Scope N_scope.

(** ** Python primitives used by the two modules *)
Module Py.

Abbreviation char := N (only parsing).
Abbreviation str := (list N) (only parsing).

(** An ASCII literal of the source, as code points. *)
Definition lit (s : string) : str :=
  Ascii.N_of_ascii <$> list_ascii_of_string s.

Definition TAB : char := 9.
Definition NEWLINE : char := 10.
Definition SPACE : char := 32.
Definition NBSP : char := 160.          (* '\xa0' *)
Definition DOT : char := 46.
Definition UNDERSCORE : char := 95.
Definition APOSTROPHE : char := 39.
Definition DQUOTE : char := 34.

Definition in_ranges (c : char) (rs : list (N * N)) : bool :=
  existsb (fun r => (fst r <=? c) && (c <=? snd r)) rs.

(** [str.isspace] on one code point, which is also what [\s] matches in a
    [str] pattern (Unicode 14 tables of CPython 3.11). *)
Definition isspace (c : char) : bool :=
  in_ranges c
    [(9, 13); (28, 32); (133, 133); (160, 160); (5760, 5760);
     (8192, 8202); (8232, 8233); (8239, 8239); (8287, 8287);
     (12288, 12288)].

(** [\d] in a [str] pattern: the code points of general category Nd
    (Unicode 14 tables of CPython 3.11). *)
Definition isdecimal (c : char) : bool :=
  in_ranges c
    [(48, 57); (1632, 1641); (1776, 1785); (1984, 1993); (2406, 2415);
     (2534, 2543); (2662, 2671); (2790, 2799); (2918, 2927); (3046, 3055);
     (3174, 3183); (3302, 3311); (3430, 3439); (3558, 3567); (3664, 3673);
     (3792, 3801); (3872, 3881); (4160, 4169); (4240, 4249); (6112, 6121);
     (6160, 6169); (6470, 6479); (6608, 6617); (6784, 6793); (6800, 6809);
     (6992, 7001); (7088, 7097); (7232, 7241); (7248, 7257);
     (42528, 42537); (43216, 43225); (43264, 43273); (43472, 43481);
     (43504, 43513); (43600, 43609); (44016, 44025); (65296, 65305);
     (66720, 66729); (68912, 68921); (69734, 69743); (69872, 69881);
     (69942, 69951); (70096, 70105); (70384, 70393); (70736, 70745);
     (70864, 70873); (71248, 71257); (71360, 71369); (71472, 71481);
     (71904, 71913); (72016, 72025); (72784, 72793); (73040, 73049);
     (73120, 73129); (92768, 92777); (92864, 92873); (93008, 93017);
     (120782, 120831); (123200, 123209); (123632, 123641);
     (125264, 125273); (130032, 130041)].

Fixpoint dropwhile {A} (p : A -> bool) (l : list A) : list A :=
  match l with
  | [] => []
  | x :: l' => if p x then dropwhile p l' else l
  end.

Fixpoint takewhile {A} (p : A -> bool) (l : list A) : list A :=
  match l with
  | [] => []
  | x :: l' => if p x then x :: takewhile p l' else []
  end.

Definition lstrip (s : str) : str := dropwhile isspace s.
Definition rstrip (s : str) : str := reverse (dropwhile isspace (reverse s)).
(** [s.strip()] *)
Definition strip (s : str) : str := rstrip (lstrip s).

(** [s.startswith(p)] *)
Fixpoint starts_with (p s : str) : bool :=
  match p, s with
  | [], _ => true
  | _ :: _, [] => false
  | a :: p', b :: s' => (a =? b) && starts_with p' s'
  end.

(** [s.find(sep)], with [None] for -1. *)
Fixpoint find (sep s : str) : option nat :=
  if starts_with sep s then Some 0%nat
  else match s with
       | [] => None
       | _ :: s' => S <$> find sep s'
       end.

(** [sep in s] *)
Definition contains (sep s : str) : bool :=
  match find sep s with Some _ => true | None => false end.

(** [s.split(sep, 1)] for a non-empty separator. *)
Definition split1 (sep s : str) : list str :=
  match find sep s with
  | Some i => [take i s; drop (i + length sep) s]
  | None => [s]
  end.

(** [s.split(c)] for a one-character separator: every occurrence splits,
    empty pieces are kept, and the empty string gives one empty piece. *)
Fixpoint split_char (c : char) (s : str) : list str :=
  match s with
  | [] => [[]]
  | x :: s' =>
      if x =? c then [] :: split_char c s'
      else match split_char c s' with
           | h :: t => (x :: h) :: t
           | [] => [[x]]
           end
  end.

(** [c.join(parts)] for a one-character separator. *)
Fixpoint join_char (c : char) (parts : list str) : str :=
  match parts with
  | [] => []
  | [p] => p
  | p :: rest => p ++ c :: join_char c rest
  end.

(** [s.replace(a, b)] for one-character [a] and [b]. *)
Definition replace_char (a b : char) (s : str) : str :=
  (fun c => if c =? a then b else c) <$> s.

(** [s.lower()] on the ASCII letters.  The other code points are left
    alone; none of them lowers to a sequence that could take part in an
    occurrence of an ASCII needle such as [rate limit]. *)
Definition lower (s : str) : str :=
  (fun c => if (65 <=? c) && (c <=? 90) then c + 32 else c) <$> s.

(** Exceptions, by class. *)
Inductive exn : Type :=
| IndexError | ValueError | AttributeError | TypeError | SyntaxError
| OSError | RuntimeError.

(** The outcome of a fallible computation: [inl e] is "raised [e]". *)
Definition result (A : Type) : Type := (exn + A)%type.

Definition rbind {A B} (f : A -> result B) (r : result A) : result B :=
  match r with
  | inl e => inl e
  | inr a => f a
  end.

(** [try: body  except Exception: handler] *)
Definition try_except {A} (body : result A) (handler : exn -> A) : A :=
  match body with
  | inl e => handler e
  | inr a => a
  end.

(** [l[i]] *)
Definition index {A} (l : list A) (i : nat) : result A :=
  match l !! i with
  | Some x => inr x
  | None => inl IndexError
  end.

(** [a, b = l] *)
Definition unpack2 {A} (l : list A) : result (A * A) :=
  match l with
  | [a; b] => inr (a, b)
  | _ => inl ValueError
  end.

(** Values that [ast.literal_eval] can produce, as far as the pipeline
    looks at them. *)
Inductive pyvalue : Type :=
| PyNone
| PyBool (b : bool)
| PyInt (z : Z)
| PyStr (s : str)
| PyList (l : list pyvalue).

(** [bool(v)] *)
Definition truthy (v : pyvalue) : bool :=
  match v with
  | PyNone => false
  | PyBool b => b
  | PyInt z => negb (z =? 0)%Z
  | PyStr s => negb (bool_decide (s = []))
  | PyList l => negb (bool_decide (length l = 0%nat))
  end.

(** [s.replace(old, new)] for a non-empty [old]: the occurrences are taken
    from the left and do not overlap.  [skip] counts the characters of an
    occurrence already replaced that are still to be passed over. *)
Fixpoint replace_from (old new : str) (skip : nat) (s : str) : str :=
  match s with
  | [] => []
  | c :: s' =>
      match skip with
      | S k => replace_from old new k s'
      | O =>
          if starts_with old s then
            new ++ replace_from old new (length old - 1) s'
          else c :: replace_from old new 0 s'
      end
  end.

Definition replace (old new s : str) : str := replace_from old new 0 s.

(** [c.encode('utf-8')] for one character: a surrogate cannot be encoded,
    and [UnicodeEncodeError] is a [ValueError].  A [str] holds no code
    point above 0x10FFFF. *)
Definition utf8_char (c : char) : result (list N) :=
  if c <? 128 then inr [c]
  else if c <? 2048 then inr [192 + c / 64; 128 + c mod 64]
  else if c <? 65536 then
    if (55296 <=? c) && (c <=? 57343) then inl ValueError
    else inr [224 + c / 4096; 128 + (c / 64) mod 64; 128 + c mod 64]
  else if c <? 1114112 then
    inr [240 + c / 262144; 128 + (c / 4096) mod 64;
         128 + (c / 64) mod 64; 128 + c mod 64]
  else inl ValueError.

(** [s.encode('utf-8')] *)
Fixpoint encode_utf8 (s : str) : result (list N) :=
  match s with
  | [] => inr []
  | c :: s' =>
      rbind (fun b => rbind (fun bs => inr (b ++ bs)) (encode_utf8 s'))
        (utf8_char c)
  end.

(** The ASCII letters and digits. *)
Definition is_ascii_alnum (c : char) : bool :=
  ((65 <=? c) && (c <=? 90)) || ((97 <=? c) && (c <=? 122))
  || ((48 <=? c) && (c <=? 57)).

(** [urllib.parse]'s always-safe bytes: letters, digits and [_.-~]. *)
Definition always_safe (b : N) : bool :=
  is_ascii_alnum b || bool_decide (b ∈ lit "_.-~").

Definition hex_digit (d : N) : char := if d <? 10 then 48 + d else 55 + d.

(** ['%{:02X}'.format(b)] unless the byte is safe. *)
Definition quote_byte (safe : str) (b : N) : str :=
  if always_safe b || bool_decide (b ∈ safe) then [b]
  else [37; hex_digit (b / 16); hex_digit (b mod 16)].

(** [urllib.parse.quote(s, safe=safe)] for an ASCII [safe]. *)
Definition quote (s safe : str) : result str :=
  rbind (fun bs => inr (concat (quote_byte safe <$> bs))) (encode_utf8 s).

End Py.

(** ** [a2j_legal/llm_processor.py] *)
Module LLMProcessor.
Import Py.

(** What a backend call does: it returns a text or raises with a message. *)
Inductive outcome : Type :=
| Returns (text : str)
| Raises (msg : str).

(** What the processor does to the outside world, in order. *)
Inductive event : Type :=
| GeminiCall (prompt : str) (max_output_tokens : Z)
| OpenAICall (instructions input : str)
| Sleep (seconds : Z).

(** The history of events so far, oldest first. *)
Abbreviation world := (list event) (only parsing).

(** Computations that act on the world and may raise. *)
Definition M (A : Type) : Type := list event -> result A * list event.

#[global] Instance M_ret : MRet M := fun A a w => (inr a, w).

#[global] Instance M_bind : MBind M := fun A B f c w =>
  match c w with
  | (inl e, w') => (inl e, w')
  | (inr a, w') => f a w'
  end.

Definition lift {A} (r : result A) : M A := fun w => (r, w).

Definition emit (e : event) : M unit := fun w => (inr tt, w ++ [e]).

(** [try: body  except Exception as e: handler]; what the body did to the
    world before raising stays done. *)
Definition try_M {A} (body : M A) (handler : exn -> M A) : M A := fun w =>
  match body w with
  | (inl e, w') => handler e w'
  | (inr a, w') => (inr a, w')
  end.

(** [while len(l) < n: l.append(x)] *)
Definition pad_to {A} (n : nat) (x : A) (l : list A) : list A :=
  l ++ replicate (n - length l) x.

Definition ANSWERS_MARKER : str := lit "|||ANSWERS|||".
Definition EVIDENCE_MARKER : str := lit "|||EVIDENCE|||".
Definition ERROR : str := lit "Error".
Definition NA : str := lit "NA".

(** The dictionary returned by [process_case]. *)
Record case_results : Type := {
  all_fields : list str;
  all_evidence : list str;
  gpt_fields : list str;
  gemini_fields : list str;
  differences : pyvalue
}.

Section Backends.

(** [self.token_limit] *)
Variable token_limit : Z.
(** [tiktoken]'s [len(encoding.encode(text))] *)
Variable count_tokens : str -> result Z.
(** The two services: the outcome of a call may depend on everything that
    happened before it and on what is sent. *)
Variable gemini_api : list event -> str -> Z -> outcome.
Variable openai_api : list event -> str -> str -> outcome.
(** [self.gemini_prompt_templates]: each template as the function
    [fun content => template.replace('{content}', content)]. *)
Variable gemini_prompt_templates : list (str -> str).
(** [self.openai_prompt] *)
Variable openai_prompt : str.
(** [self.extraction_prompt.format(output_1=..., output_2=...)] *)
Variable extraction_prompt : list str -> list str -> str.
(** [ast.literal_eval] *)
Variable literal_eval : str -> result pyvalue.

Definition call_gemini (prompt : str) (max_output_tokens : Z) : M outcome :=
  fun w => (inr (gemini_api w prompt max_output_tokens),
            w ++ [GeminiCall prompt max_output_tokens]).

Definition call_openai (instructions input : str) : M outcome :=
  fun w => (inr (openai_api w instructions input),
            w ++ [OpenAICall instructions input]).

Definition sleep (seconds : Z) : M unit := emit (Sleep seconds).

Definition wait_time : Z := 60.

(** The loop [while attempt < max_retries] of [extract_gemini_output], by
    the number [max_retries - attempt] of attempts left.  Anything raised
    inside the [try] counts as a failed attempt. *)
Fixpoint gemini_attempts (left : nat) (prompt : str)
    (max_completion_tokens : Z) : M str :=
  match left with
  | O => mret (lit "Error: Failed after 5 attempts.")
  | S left' =>
      r ← call_gemini prompt max_completion_tokens;
      match r with
      | Returns text => mret (strip text)
      | Raises _ =>
          _ ← sleep wait_time;
          gemini_attempts left' prompt max_completion_tokens
      end
  end.

Definition extract_gemini_output (prompt : str) : M str :=
  input_tokens ← lift (count_tokens prompt);
  let max_completion_tokens :=
    Z.min (token_limit - input_tokens - 100) 500000 in
  if (max_completion_tokens <? 1000)%Z then
    mret (lit "Error: Input too large.")
  else
    gemini_attempts 5 prompt max_completion_tokens.

Definition extract_gemini_case_output (prompt_template : str -> str)
    (case_title case_details : str) : M str :=
  let prompt :=
    lit "Extract the required legal data from " ++ case_title
      ++ lit ":" ++ [NEWLINE; NEWLINE] ++ case_details in
  extract_gemini_output (prompt_template prompt).

(** The body of the [try] of [process_gemini_output]. *)
Definition split_on_markers (output : str) : result (str * str) :=
  rbind (fun answer_and_evidence =>
    rbind (fun ae => inr (strip (fst ae), strip (snd ae)))
      (unpack2 (split1 EVIDENCE_MARKER answer_and_evidence)))
    (index (split1 ANSWERS_MARKER output) 1).

Definition process_gemini_output (output : str) : str * str :=
  if contains ANSWERS_MARKER output && contains EVIDENCE_MARKER output then
    try_except (split_on_markers output)
      (fun _ => (join_char TAB (replicate 6 ERROR),
                 lit "Error processing output"))
  else
    let parts := split1 [NEWLINE; NEWLINE] output in
    (strip (default [] (parts !! 0%nat)),
     match parts !! 1%nat with
     | Some p => strip p
     | None => lit "No supporting text returned."
     end).

Definition is_rate_limit (msg : str) : bool :=
  contains (lit "rate limit") (lower msg).

(** The loop [while attempt < max_retries] of [extract_openai_output], by
    the number of attempts left. *)
Fixpoint openai_attempts (left : nat) (instructions input_text : str)
    : M str :=
  match left with
  | O => mret (lit "Error: Failed after 3 attempts.")
  | S left' =>
      r ← call_openai instructions input_text;
      match r with
      | Returns text => mret (strip text)
      | Raises msg =>
          if is_rate_limit msg then
            _ ← sleep wait_time;
            openai_attempts left' instructions input_text
          else mret ERROR
      end
  end.

Definition extract_openai_output (instructions case_name case_details : str)
    : M str :=
  let input_text :=
    lit "Extract the required legal data from " ++ case_name
      ++ lit ":" ++ [NEWLINE; NEWLINE] ++ case_details in
  openai_attempts 3 instructions input_text.

Definition compare_llm_output (output_1 output_2 : list str) : M pyvalue :=
  response ← extract_gemini_output (extraction_prompt output_1 output_2);
  mret (try_except (literal_eval response)
          (fun _ => PyList (replicate (length output_1) (PyBool true)))).

Definition is_quote (c : char) : bool := (c =? APOSTROPHE) || (c =? DQUOTE).

(** The remainder after a match of [^\s*\d+\.\s*] at the start, if there
    is one.  White space, decimal digits and the period are pairwise
    disjoint, so the greedy match is the only one. *)
Definition match_numbering (s : str) : option str :=
  let s1 := dropwhile isspace s in
  match takewhile isdecimal s1, dropwhile isdecimal s1 with
  | _ :: _, c :: rest => if c =? DOT then Some (dropwhile isspace rest) else None
  | _, _ => None
  end.

(** [re.sub(r'^\s*\d+\.\s*', '', s)] *)
Definition strip_numbering (s : str) : str :=
  default s (match_numbering s).

(** [re.sub] of the third step: one quote character (apostrophe or
    double quote, the two members of the character class) is removed when
    it is the first character. *)
Definition strip_leading_quote (s : str) : str :=
  match s with
  | c :: s' => if is_quote c then s' else s
  | [] => []
  end.

(** [re.sub] of the fourth step: one quote character is removed where the
    class is followed by [$], which matches at the end of the string and
    also just before a newline that ends the string. *)
Definition strip_trailing_quote (s : str) : str :=
  match reverse s with
  | c :: r =>
      if is_quote c then reverse r
      else if c =? NEWLINE then
        match r with
        | q :: r' => if is_quote q then reverse r' ++ [NEWLINE] else s
        | [] => s
        end
      else s
  | [] => []
  end.

Definition clean_evidence_line (evidence_line : str) : str :=
  let cleaned := strip_numbering evidence_line in
  let cleaned := replace_char NBSP SPACE cleaned in
  let cleaned := strip_leading_quote cleaned in
  let cleaned := strip_trailing_quote cleaned in
  strip cleaned.

(** [6 if idx == 0 else 7] *)
Definition expected_fields (idx : nat) : nat :=
  match idx with O => 6%nat | _ => 7%nat end.

(** [fields] and [evidence_lines] of one turn of the Gemini loop of
    [process_case], from [answers] and [evidence]. *)
Definition prompt_fields (answers : str) : list str := split_char TAB answers.

Definition prompt_evidence_lines (evidence : str) : list str :=
  clean_evidence_line <$>
    filter (fun line => strip line <> []) (split_char NEWLINE (strip evidence)).

(** One turn of the loop over [enumerate(self.gemini_prompt_templates)].
    [extract_gemini_output] returns a [str] whenever it returns, so the
    branch for a [None] result is never taken; the handler is the one of
    the [try] around the extraction. *)
Definition gemini_turn (case_title case_details : str) (idx : nat)
    (prompt_template : str -> str) : M (str * str) :=
  try_M
    (result_gemini ←
       extract_gemini_case_output prompt_template case_title case_details;
     mret (process_gemini_output result_gemini))
    (fun _ => mret (join_char TAB (replicate (expected_fields idx) NA), NA)).

Fixpoint gemini_loop (case_title case_details : str) (idx : nat)
    (templates : list (str -> str)) (acc : list str * list str)
    : M (list str * list str) :=
  match templates with
  | [] => mret acc
  | prompt_template :: rest =>
      ae ← gemini_turn case_title case_details idx prompt_template;
      gemini_loop case_title case_details (S idx) rest
        (fst acc ++ prompt_fields (fst ae),
         snd acc ++ prompt_evidence_lines (snd ae))
  end.

(** The OpenAI part of [process_case]. *)
Definition openai_fields (case_title case_details : str) : M (list str) :=
  try_M
    (gpt_output ← extract_openai_output openai_prompt case_title case_details;
     if bool_decide (strip gpt_output = []) then mret (replicate 4 NA)
     else mret (take 4 (pad_to 4 NA (split_char TAB (strip gpt_output)))))
    (fun _ => mret (replicate 4 NA)).

(** [field_indices = [5, 8, 9, 10]] and the loop over it. *)
Definition field_indices : list nat := [5; 8; 9; 10]%nat.

Definition select_gemini_fields (fields : list str) : list str :=
  (fun idx =>
     match fields !! idx with
     | Some f => lower (strip f)
     | None => lit "na"
     end) <$> field_indices.

Definition process_case (case_title case_details : str) : M case_results :=
  fe ← gemini_loop case_title case_details 0 gemini_prompt_templates ([], []);
  let fields := pad_to 13 NA (fst fe) in
  gpt ← openai_fields case_title case_details;
  let gemini := select_gemini_fields fields in
  diff ← try_M (compare_llm_output gpt gemini)
           (fun _ => mret (PyList (replicate 4 (PyBool false))));
  mret {| all_fields := fields; all_evidence := snd fe;
          gpt_fields := gpt; gemini_fields := gemini;
          differences := diff |}.

End Backends.

Section Chunks.

(** [encoding.encode], which refuses a text that holds a special token,
    and [encoding.decode] of the tokenizer. *)
Variable encode : str -> result (list Z).
Variable decode : list Z -> str.

(** [range(0, n, step)] for a positive [step]. *)
Definition range_step (n step : nat) : list nat :=
  (fun k => k * step)%nat <$> seq 0 ((n + step - 1) / step).

(** [[tokens[i:i + max_tokens] for i in range(0, len(tokens), max_tokens)]]:
    a step of zero is refused by [range]; with a negative step the range
    from 0 is empty. *)
Definition chunk_tokens (tokens : list Z) (max_tokens : Z)
    : result (list (list Z)) :=
  if (max_tokens =? 0)%Z then inl ValueError
  else if (max_tokens <? 0)%Z then inr []
  else
    inr ((fun i => take (Z.to_nat max_tokens) (drop i tokens))
           <$> range_step (length tokens) (Z.to_nat max_tokens)).

Definition chunk_text (text : str) (max_tokens : Z) : result (list str) :=
  rbind (fun tokens =>
           rbind (fun chunks => inr (decode <$> chunks))
             (chunk_tokens tokens max_tokens))
    (encode text).

End Chunks.

End LLMProcessor.

(** ** [a2j_legal/excel_utils.py] *)
Module ExcelManager.
Import Py LLMProcessor.

(** *** Workbooks, as far as the manager touches them *)

(** [cell.value] *)
Inductive cell_value : Type :=
| VNone
| VStr (s : str)
| VNum (z : Z)
| VBool (b : bool).

#[global] Instance cell_value_eq_dec : EqDecision cell_value.
Proof. solve_decision. Defined.

(** [bool(v)] of a cell value. *)
Definition value_truthy (v : cell_value) : bool :=
  match v with
  | VNone => false
  | VStr s => negb (bool_decide (s = []))
  | VNum z => negb (z =? 0)%Z
  | VBool b => b
  end.

(** [v.strip()]: only a [str] has the method. *)
Definition strip_value (v : cell_value) : result str :=
  match v with
  | VStr s => inr (strip s)
  | _ => inl AttributeError
  end.

(** The style of a cell: the font, fill, border, number format, protection
    and alignment it refers to, and its named style.  All zero is the
    default style. *)
Record style : Type := {
  font : N; fill : N; border : N; number_format : N;
  protection : N; alignment : N; named : N
}.

#[global] Instance style_eq_dec : EqDecision style.
Proof. solve_decision. Defined.

Definition default_style : style :=
  {| font := 0; fill := 0; border := 0; number_format := 0;
     protection := 0; alignment := 0; named := 0 |}.

(** The built-in named style [Hyperlink]: its own font, nothing else. *)
Definition HYPERLINK_FONT : N := 1.
Definition HYPERLINK_NAMED : N := 1.
Definition hyperlink_style : style :=
  {| font := HYPERLINK_FONT; fill := 0; border := 0; number_format := 0;
     protection := 0; alignment := 0; named := HYPERLINK_NAMED |}.

(** [self.highlight_fill], the solid FFC7CE pattern. *)
Definition highlight_fill : N := 1.

Record cell : Type := {
  value : cell_value;
  cstyle : style;
  hyperlink : option str;            (* the target *)
  comment : option (str * str)       (* text, author *)
}.

#[global] Instance cell_eq_dec : EqDecision cell.
Proof. solve_decision. Defined.

Definition empty_cell : cell :=
  {| value := VNone; cstyle := default_style; hyperlink := None;
     comment := None |}.

Definition plain_cell (v : cell_value) : cell :=
  {| value := v; cstyle := default_style; hyperlink := None;
     comment := None |}.

(** [cell.has_style] *)
Definition has_style (c : cell) : bool :=
  negb (bool_decide (cstyle c = default_style)).

(** [cell.hyperlink = target]: an empty cell also takes the target as its
    value. *)
Definition set_hyperlink (target : str) (c : cell) : cell :=
  {| value := match value c with VNone => VStr target | v => v end;
     cstyle := cstyle c; hyperlink := Some target; comment := comment c |}.

(** [cell.style = 'Hyperlink']: the cell's style becomes the named one. *)
Definition set_style_hyperlink (c : cell) : cell :=
  {| value := value c; cstyle := hyperlink_style; hyperlink := hyperlink c;
     comment := comment c |}.

(** [cell.fill = f] *)
Definition set_fill (f : N) (c : cell) : cell :=
  {| value := value c;
     cstyle := {| font := font (cstyle c); fill := f;
                  border := border (cstyle c);
                  number_format := number_format (cstyle c);
                  protection := protection (cstyle c);
                  alignment := alignment (cstyle c);
                  named := named (cstyle c) |};
     hyperlink := hyperlink c; comment := comment c |}.

(** [cell.comment = Comment(text, author)] *)
Definition set_comment (text author : str) (c : cell) : cell :=
  {| value := value c; cstyle := cstyle c; hyperlink := hyperlink c;
     comment := Some (text, author) |}.

(** The six attributes that the carry-forward loop copies, taken from
    [src]; the named style of [dst] stays. *)
Definition copy_formatting (src dst : cell) : cell :=
  {| value := value dst;
     cstyle := {| font := font (cstyle src); fill := fill (cstyle src);
                  border := border (cstyle src);
                  number_format := number_format (cstyle src);
                  protection := protection (cstyle src);
                  alignment := alignment (cstyle src);
                  named := named (cstyle dst) |};
     hyperlink := hyperlink dst; comment := comment dst |}.

(** A worksheet: its rows from row 1 on, each row from column A on. *)
Abbreviation worksheet := (list (list cell)) (only parsing).

(** [ws.cell(row, column)] of a row: a cell that is not there is empty. *)
Definition cell_at (row : list cell) (col : nat) : cell :=
  default empty_cell (row !! col).

(** [ws.max_column] *)
Definition max_column (ws : worksheet) : nat :=
  foldr (fun row m => Nat.max (length row) m) 1%nat ws.

(** [ws[1]] and the rows [2 .. ws.max_row]. *)
Definition header_row (ws : worksheet) : list cell := hd [] ws.
Definition data_rows (ws : worksheet) : worksheet := tl ws.

(** *** The archive folder *)

(** A file of the folder.  [content = None]: not a readable workbook. *)
Record file : Type := {
  name : str;
  mtime : Z;
  content : option (list (list cell))
}.

(** The folder in [os.listdir] order.  A path inside the folder is
    represented by the file name. *)
Abbreviation folder := (list file) (only parsing).

(** [wb.save(path)] *)
Fixpoint write_file (f : file) (dir : folder) : folder :=
  match dir with
  | [] => [f]
  | g :: dir' =>
      if bool_decide (name g = name f) then f :: dir'
      else g :: write_file f dir'
  end.

(** [openpyxl.load_workbook(path).active] *)
Definition load_workbook (dir : folder) (path : str) : result worksheet :=
  match List.find (fun f => bool_decide (name f = path)) dir with
  | Some f =>
      match content f with
      | Some ws => inr ws
      | None => inl ValueError
      end
  | None => inl OSError
  end.

(** *** The manager *)

Definition csv_header : list str :=
  [lit "Case Name";
   lit "Unique Name";
   lit "Citation";
   lit "Date of Judgment";
   lit "Length of marriage till IJ (include separation period)";
   lit "Length of marriage (exclude separation period)";
   lit "Number of children";
   lit "Wife's income (monthly)";
   lit "Husband's income (monthly)";
   lit "Single or dual income marriage";
   lit "Direct Contribution (Wife)";
   lit "Indirect Contribution (Wife)";
   lit "Average Ratio (Wife)";
   lit "Final Ratio";
   lit "Adjustments";
   lit "Adjustment Reason";
   lit "Custody Type"].

(** [file_pattern.match(file)] for [^\d{2}_\d{2}_\d{4}\.xlsx$]; the final
    [$] also matches before a newline that ends the name. *)
Definition file_pattern_match (file_name : str) : bool :=
  match file_name with
  | d1 :: d2 :: u1 :: m1 :: m2 :: u2 :: y1 :: y2 :: y3 :: y4 :: rest =>
      isdecimal d1 && isdecimal d2 && (u1 =? UNDERSCORE)
      && isdecimal m1 && isdecimal m2 && (u2 =? UNDERSCORE)
      && isdecimal y1 && isdecimal y2 && isdecimal y3 && isdecimal y4
      && (bool_decide (rest = lit ".xlsx")
          || bool_decide (rest = lit ".xlsx" ++ [NEWLINE]))
  | _ => false
  end.

(** [exclude_path and abspath(file_path) == abspath(exclude_path)] *)
Definition is_excluded (exclude_path : option str) (file_name : str) : bool :=
  match exclude_path with
  | Some p => negb (bool_decide (p = [])) && bool_decide (file_name = p)
  | None => false
  end.

(** The loop that fills [excel_files]. *)
Definition excel_files (dir : folder) (exclude_path : option str)
    : list (str * Z) :=
  (fun f => (name f, mtime f)) <$>
    filter (fun f => file_pattern_match (name f) = true
                     /\ is_excluded exclude_path (name f) = false) dir.

(** [l.sort(key=lambda x: x[1], reverse=True)]: the sort is stable, so of
    two entries with the same time the one listed first stays first. *)
Fixpoint insert_desc (x : str * Z) (l : list (str * Z)) : list (str * Z) :=
  match l with
  | [] => [x]
  | y :: l' =>
      if (snd y <=? snd x)%Z then x :: l else y :: insert_desc x l'
  end.

Definition sort_desc (l : list (str * Z)) : list (str * Z) :=
  foldr insert_desc [] l.

Definition find_latest_excel_file (dir : folder) (exclude_path : option str)
    : option str :=
  match sort_desc (excel_files dir exclude_path) with
  | [] => None
  | first :: _ => Some (fst first)
  end.

(** [create_excel_with_headers]: the workbook with the header row, saved
    under today's name. *)
Definition new_workbook : worksheet := [plain_cell ∘ VStr <$> csv_header].

Definition create_excel_with_headers (today_file : str) (now : Z)
    (dir : folder) : worksheet * str * folder :=
  (new_workbook, today_file,
   write_file {| name := today_file; mtime := now;
                 content := Some new_workbook |} dir).

(** [header_map.get('Unique Name', 1)], where [header_map] is the
    dictionary [{col: i for i, col in enumerate(headers) if col}]: a later
    column with the same header replaces an earlier one. *)
Fixpoint header_lookup (key : cell_value) (headers : list cell_value)
    (i : nat) (found : option nat) : option nat :=
  match headers with
  | [] => found
  | col :: rest =>
      header_lookup key rest (S i)
        (if value_truthy col && bool_decide (col = key) then Some i
         else found)
  end.

Definition unique_name_col (ws : worksheet) : nat :=
  default 1%nat
    (header_lookup (VStr (lit "Unique Name")) (value <$> header_row ws)
       0%nat None).

(** The loop over the rows [2 .. max_row] of [load_existing_cases]. *)
Fixpoint collect_cases (col : nat) (rows : worksheet)
    (existing_cases : gset (list N)) : result (gset (list N)) :=
  match rows with
  | [] => inr existing_cases
  | row :: rest =>
      let case_name := value (cell_at row col) in
      if value_truthy case_name then
        rbind (fun k => collect_cases col rest ({[k]} ∪ existing_cases))
          (strip_value case_name)
      else collect_cases col rest existing_cases
  end.

(** The body of the [try] of [load_existing_cases]: what it does with the
    sheet once the workbook is loaded, and the whole of it. *)
Definition sheet_cases (ws : worksheet) : result (gset (list N)) :=
  collect_cases (unique_name_col ws) (data_rows ws) ∅.

Definition read_existing_cases (dir : folder) (excel_path : str)
    : result (gset (list N)) :=
  rbind sheet_cases (load_workbook dir excel_path).

Definition load_existing_cases (dir : folder) (excel_path : str)
    : gset (list N) :=
  try_except (read_existing_cases dir excel_path) (fun _ => ∅).

(** [scraper.Case] *)
Record Case : Type := {
  title : str;
  unique_title : str;
  url : option str;                  (* [None]: not a [str] *)
  citation : str;
  date : str;
  details : option str
}.

Section Merge.

(** [clean_and_encode_text], which normalises and percent-encodes an
    evidence line, or raises; the merge is stated for any such function,
    and the function itself is defined after this section. *)
Variable clean_and_encode_text : str -> result str.

Definition no_link_evidence : list str :=
  [lit "Not Discussed"; lit "NA"; lit "Undisclosed"].

(** The hyperlink loop over [enumerate(all_fields)], from field [i] on;
    [cells] are the cells of columns [4 + i] onwards.  When the encoding
    of the evidence line raises, the [except] of the loop body leaves the
    cell as it is and the loop goes on. *)
Fixpoint add_hyperlinks (url : option str) (all_evidence : list str)
    (i : nat) (cells : list cell) : list cell :=
  match cells with
  | [] => []
  | c :: rest =>
      let c' :=
        match all_evidence !! i, url with
        | Some evidence_line, Some u =>
            if bool_decide (evidence_line ∈ no_link_evidence) then c
            else
              match clean_and_encode_text evidence_line with
              | inr short_snippet =>
                  set_style_hyperlink
                    (set_hyperlink (u ++ lit "#:~:text=" ++ short_snippet) c)
              | inl _ => c
              end
        | _, _ => c
        end in
      c' :: add_hyperlinks url all_evidence (S i) rest
  end.

(** [column_map = {0: 10, 1: 13, 2: 14, 3: 15}], columns counted from 1. *)
Definition column_map (i : nat) : option nat :=
  match i with
  | 0 => Some 10 | 1 => Some 13 | 2 => Some 14 | 3 => Some 15
  | _ => None
  end%nat.

(** [enumerate(differences)] as the list of [bool(mismatch)]; a value that
    cannot be iterated raises. *)
Definition mismatch_flags (differences : pyvalue) : result (list bool) :=
  match differences with
  | PyList l => inr (truthy <$> l)
  | PyStr s => inr ((fun _ => true) <$> s)
  | _ => inl TypeError
  end.

(** [l[i] if i < len(l) else 'NA'] *)
Definition field_or_na (l : list str) (i : nat) : str := default NA (l !! i).

Definition mismatch_comment (gpt_val gemini_val : str) : str :=
  lit "Mismatch:" ++ [NEWLINE] ++ lit "GPT: " ++ gpt_val ++ [NEWLINE]
    ++ lit "Gemini: " ++ gemini_val.

(** The two loops of the mismatch block on one row, from difference [i]
    on: the fill, then the comment, of the mapped cell. *)
Fixpoint mark_mismatches (gpt gemini : list str) (i : nat)
    (flags : list bool) (row : list cell) : list cell :=
  match flags with
  | [] => row
  | mismatch :: rest =>
      let row' :=
        match column_map i with
        | Some col =>
            if mismatch then
              alter (fun c =>
                       set_comment
                         (mismatch_comment (field_or_na gpt i)
                            (field_or_na gemini i))
                         (lit "A2JBot") (set_fill highlight_fill c))
                (col - 1)%nat row
            else row
        | None => row
        end in
      mark_mismatches gpt gemini (S i) rest row'
  end.

(** [llm_results.get(case.unique_title, {})] and the [get]s on it. *)
Definition results_of (llm_results : gmap (list N) case_results)
    (c : Case) : case_results :=
  default {| all_fields := []; all_evidence := []; gpt_fields := [];
             gemini_fields := []; differences := PyList [] |}
    (llm_results !! unique_title c).

(** The row written for a new case: [new_row], then the hyperlinks, then
    the mismatch marks. *)
Definition new_row (llm_results : gmap (list N) case_results) (c : Case)
    : list cell :=
  let case_results := results_of llm_results c in
  let fields := pad_to 13 NA (all_fields case_results) in
  let identity :=
    plain_cell ∘ VStr <$> [title c; unique_title c; citation c; date c] in
  let answers :=
    add_hyperlinks (url c) (all_evidence case_results) 0
      (plain_cell ∘ VStr <$> fields) in
  let row := identity ++ answers in
  try_except
    (rbind (fun flags =>
              inr (mark_mismatches (gpt_fields case_results)
                     (gemini_fields case_results) 0 flags row))
       (mismatch_flags (differences case_results)))
    (fun _ => row).

(** The state of the loop over [cases]. *)
Record progress : Type := {
  sheet : list (list cell);          (* [ws] *)
  new_case_count : nat;
  checkpoints : list nat             (* the counts at which [wb.save] ran *)
}.

Definition process_one (llm_results : gmap (list N) case_results)
    (existing_cases : gset (list N)) (st : progress) (c : Case) : progress :=
  if bool_decide (strip (unique_title c) ∈ existing_cases) then st
  else
    let n := S (new_case_count st) in
    {| sheet := sheet st ++ [new_row llm_results c];
       new_case_count := n;
       checkpoints :=
         if (n mod 5 =? 0)%nat then checkpoints st ++ [n]
         else checkpoints st |}.

(** The copy of one source cell into a fresh cell of the new sheet. *)
Definition copy_cell (src : cell) : cell :=
  let dst := plain_cell (value src) in
  let dst := if has_style src then copy_formatting src dst else dst in
  let dst :=
    match hyperlink src with
    | Some h => set_style_hyperlink (set_hyperlink h dst)
    | None => dst
    end in
  match comment src with
  | Some (text, author) => set_comment text author dst
  | None => dst
  end.

(** [range(1, min(len(self.csv_header) + 1, source_ws.max_column + 1))],
    as the number of columns copied. *)
Definition copied_columns (source_ws : worksheet) : nat :=
  Nat.min (length csv_header) (max_column source_ws).

Definition copy_row (width : nat) (src_row : list cell) : list cell :=
  (fun col => copy_cell (cell_at src_row col)) <$> seq 0 width.

(** The rows appended after the new cases. *)
Definition carried_rows (source_ws : worksheet) : worksheet :=
  copy_row (copied_columns source_ws) <$> data_rows source_ws.

(** What a run leaves behind. *)
Record run : Type := {
  snapshot : list (list cell);         (* the sheet of the saved workbook *)
  added : nat;                         (* [new_case_count] *)
  saved_at : list nat;                 (* the periodic saves *)
  prior : option str;                  (* [latest_excel] *)
  existing : gset (list N);            (* [existing_cases] *)
  source : option (list (list cell));  (* [source_ws] *)
  archive : list file                  (* the folder afterwards *)
}.

(** The block under [if latest_excel and latest_excel != save_path]:
    [existing_cases] and [source_ws] after it.  [load_existing_cases]
    handles its own failures; a failure of the second [load_workbook] is
    caught by the block's handler and leaves no source sheet. *)
Definition load_prior (dir : folder) (save_path : str)
    (latest_excel : option str) : gset (list N) * option (list (list cell)) :=
  match latest_excel with
  | Some latest =>
      if negb (bool_decide (latest = []))
         && negb (bool_decide (latest = save_path)) then
        (load_existing_cases dir latest,
         match load_workbook dir latest with
         | inr src => Some src
         | inl _ => None
         end)
      else (∅, None)
  | None => (∅, None)
  end.

Definition process_and_save_cases (today_file : str) (now : Z)
    (dir : folder) (cases : list Case)
    (llm_results : gmap (list N) case_results) : run :=
  let created := create_excel_with_headers today_file now dir in
  let ws := fst (fst created) in
  let save_path := snd (fst created) in
  let dir1 := snd created in
  let latest_excel := find_latest_excel_file dir1 (Some save_path) in
  let loaded := load_prior dir1 save_path latest_excel in
  let existing_cases := fst loaded in
  let source_ws := snd loaded in
  let st :=
    foldl (process_one llm_results existing_cases)
      {| sheet := ws; new_case_count := 0; checkpoints := [] |} cases in
  let final :=
    match source_ws with
    | Some src => sheet st ++ carried_rows src
    | None => sheet st
    end in
  {| snapshot := final; added := new_case_count st;
     saved_at := checkpoints st; prior := latest_excel;
     existing := existing_cases; source := source_ws;
     archive := write_file {| name := save_path; mtime := now;
                              content := Some final |} dir1 |}.

End Merge.

(** The same file under another name. *)
Definition rename_file (rename : str -> str) (f : file) : file :=
  {| name := rename (name f); mtime := mtime f; content := content f |}.

(** A value that the key loop of [load_existing_cases] gets past: it is
    falsy, or it is a [str]. *)
Definition key_readable (v : cell_value) : bool :=
  match v with
  | VStr _ => true
  | _ => negb (value_truthy v)
  end.

(** A sheet whose keys are in column B and can all be read. *)
Definition keys_readable (ws : worksheet) : bool :=
  bool_decide (unique_name_col ws = 1%nat)
  && forallb (fun row => key_readable (value (cell_at row 1))) (data_rows ws).

(** [clean_and_encode_text], with [unicodedata.normalize('NFKC', text)] as
    [nfkc].  The three characters replaced are the en dash, the em dash and
    the non-breaking hyphen. *)
Definition clean_and_encode_text (nfkc : str -> str) (text : str)
    : result str :=
  let text := nfkc text in
  let text :=
    replace_char 8209 45 (replace_char 8212 45 (replace_char 8211 45 text)) in
  rbind (fun text =>
    let text := replace (lit "%27%27...%27") (lit "&text=") text in
    let text := replace (lit "%22%22...%22") (lit "&text=") text in
    let text := replace (lit "%22...%22") (lit "&text=") text in
    let text := replace (lit "%27...%27") (lit "&text=") text in
    let text := replace (lit "...") (lit "&text=") text in
    inr (replace (lit "-") (lit "%2D") text))
    (quote text (lit "%")).

End ExcelManager.

(** ** [a2j_legal/scraper.py] *)
Module Scraper.
Import Py.

(** A [Case] as [extract_cases] builds it: the citation is [None] when the
    page has no citation for the entry, the link is whatever the [href]
    attribute gives, and the details are not set yet. *)
Record Case : Type := {
  title : str;
  unique_title : str;
  url : option str;
  citation : option str;
  date : str;
  details : option str
}.

(** [s.rstrip(chars)] *)
Definition rstrip_chars (chars s : str) : str :=
  reverse (dropwhile (fun c => bool_decide (c ∈ chars)) (reverse s)).

(** [str.isdigit] on one code point (Unicode 14 tables of CPython 3.11). *)
Definition isdigit (c : char) : bool :=
  in_ranges c
    [(48, 57); (178, 179); (185, 185); (1632, 1641); (1776, 1785);
     (1984, 1993); (2406, 2415); (2534, 2543); (2662, 2671); (2790, 2799);
     (2918, 2927); (3046, 3055); (3174, 3183); (3302, 3311); (3430, 3439);
     (3558, 3567); (3664, 3673); (3792, 3801); (3872, 3881); (4160, 4169);
     (4240, 4249); (4969, 4977); (6112, 6121); (6160, 6169); (6470, 6479);
     (6608, 6618); (6784, 6793); (6800, 6809); (6992, 7001); (7088, 7097);
     (7232, 7241); (7248, 7257); (8304, 8304); (8308, 8313); (8320, 8329);
     (9312, 9320); (9332, 9340); (9352, 9360); (9450, 9450); (9461, 9469);
     (9471, 9471); (10102, 10110); (10112, 10120); (10122, 10130);
     (42528, 42537); (43216, 43225); (43264, 43273); (43472, 43481);
     (43504, 43513); (43600, 43609); (44016, 44025); (65296, 65305);
     (66720, 66729); (68160, 68163); (68912, 68921); (69216, 69224);
     (69714, 69722); (69734, 69743); (69872, 69881); (69942, 69951);
     (70096, 70105); (70384, 70393); (70736, 70745); (70864, 70873);
     (71248, 71257); (71360, 71369); (71472, 71481); (71904, 71913);
     (72016, 72025); (72784, 72793); (73040, 73049); (73120, 73129);
     (92768, 92777); (92864, 92873); (93008, 93017); (120782, 120831);
     (123200, 123209); (123632, 123641); (125264, 125273); (127232, 127242);
     (130032, 130041)].

(** The code points of category Nd again, as ranges that each start at a
    digit zero and hold whole runs of ten digits. *)
Definition decimal_ranges : list (N * N) :=
  [(48, 57); (1632, 1641); (1776, 1785); (1984, 1993); (2406, 2415);
     (2534, 2543); (2662, 2671); (2790, 2799); (2918, 2927); (3046, 3055);
     (3174, 3183); (3302, 3311); (3430, 3439); (3558, 3567); (3664, 3673);
     (3792, 3801); (3872, 3881); (4160, 4169); (4240, 4249); (6112, 6121);
     (6160, 6169); (6470, 6479); (6608, 6617); (6784, 6793); (6800, 6809);
     (6992, 7001); (7088, 7097); (7232, 7241); (7248, 7257); (42528, 42537);
     (43216, 43225); (43264, 43273); (43472, 43481); (43504, 43513);
     (43600, 43609); (44016, 44025); (65296, 65305); (66720, 66729);
     (68912, 68921); (69734, 69743); (69872, 69881); (69942, 69951);
     (70096, 70105); (70384, 70393); (70736, 70745); (70864, 70873);
     (71248, 71257); (71360, 71369); (71472, 71481); (71904, 71913);
     (72016, 72025); (72784, 72793); (73040, 73049); (73120, 73129);
     (92768, 92777); (92864, 92873); (93008, 93017); (120782, 120831);
     (123200, 123209); (123632, 123641); (125264, 125273); (130032, 130041)].

(** The value of a decimal digit. *)
Definition digit_value (c : char) : option Z :=
  (fun r => Z.of_N ((c - fst r) mod 10))
    <$> List.find (fun r => (fst r <=? c) && (c <=? snd r)) decimal_ranges.

(** [int(s)] for a text on which [isdigit] holds: every character must be
    a decimal digit. *)
Definition int_of_digits (s : str) : result Z :=
  foldl (fun acc c =>
           rbind (fun n =>
                    match digit_value c with
                    | Some d => inr (10 * n + d)%Z
                    | None => inl ValueError
                    end) acc)
    (inr 0%Z) s.

(** [s.isdigit()] *)
Definition all_digits (s : str) : bool :=
  negb (bool_decide (s = [])) && forallb isdigit s.

(** [s[-4:]] *)
Definition last4 (s : str) : str := drop (length s - 4) s.

(** [date and date[-4:].isdigit() and int(date[-4:]) <= 2015] *)
Definition too_old (date : str) : result bool :=
  if bool_decide (date = []) then inr false
  else if all_digits (last4 date) then
    rbind (fun year => inr (year <=? 2015)%Z) (int_of_digits (last4 date))
  else inr false.

(** Where the scan of [re.sub(r'\[\d{4}\]\s*', '', s)] is: looking for a
    match, inside one with [k] characters to go after the current one, or
    in the white space that ends one. *)
Inductive scan : Type :=
| Looking
| Inside (k : nat)
| Spaces.

(** A match of [\[\d{4}\]] starts here. *)
Definition year_at (s : str) : bool :=
  match s with
  | 91 :: a :: b :: c :: d :: 93 :: _ =>
      isdecimal a && isdecimal b && isdecimal c && isdecimal d
  | _ => false
  end.

Fixpoint remove_years (st : scan) (s : str) : str :=
  match s with
  | [] => []
  | c :: s' =>
      match st with
      | Inside (S k) => remove_years (Inside k) s'
      | Inside O => remove_years Spaces s'
      | _ =>
          if match st with Spaces => isspace c | _ => false end then
            remove_years Spaces s'
          else if year_at s then remove_years (Inside 4) s'
          else c :: remove_years Looking s'
      end
  end.

(** [re.sub(r'\[\d{4}\]\s*', '', citation) if citation else ''] *)
Definition clean_citation (citation : option str) : str :=
  match citation with
  | Some (c :: s) => remove_years Looking (c :: s)
  | _ => []
  end.

(** [f'{title} {clean_citation}'] *)
Definition make_unique_title (title : str) (citation : option str) : str :=
  title ++ [SPACE] ++ clean_citation citation.

Section Page.

(** The set of names read from the latest archive file, empty when there
    is none or when reading it failed. *)
Variable existing_cases : gset (list N).
(** [first_pass_cases]; [None] counts as no cases. *)
Variable first_pass_cases : list Case.
(** The texts of the citation spans and of the date spans of the page. *)
Variable citation_spans : list str.
Variable date_spans : list str.

(** The case that entry [i] of the page stands for, from the text and the
    [href] of its heading. *)
Definition case_of (i : nat) (case_elem : str * option str) : Case :=
  let citation :=
    (fun text => strip (rstrip_chars (lit "|") text))
      <$> citation_spans !! i in
  let raw_date := default [] (date_spans !! i) in
  let date :=
    strip (replace (lit "|") [] (replace (lit "Decision Date:") [] raw_date)) in
  let title := strip (fst case_elem) in
  {| title := title;
     unique_title := make_unique_title title citation;
     url := snd case_elem;
     citation := citation;
     date := date;
     details := None |}.

(** The loop over [enumerate(cases_elements)], from entry [i], with
    [full_cases] so far; the result is [full_cases] and [found_existing]. *)
Fixpoint extract_loop (i : nat) (cases_elements : list (str * option str))
    (full_cases : list Case) : result (list Case * bool) :=
  match cases_elements with
  | [] => inr (full_cases, false)
  | case_elem :: rest =>
      let case := case_of i case_elem in
      rbind (fun old =>
        if (old : bool) then inr (full_cases, true)
        else if bool_decide (unique_title case ∈ existing_cases) then
          inr (full_cases, true)
        else if bool_decide
                  (unique_title case ∈ unique_title <$> first_pass_cases)
        then extract_loop (S i) rest full_cases
        else extract_loop (S i) rest (full_cases ++ [case]))
        (too_old (date case))
  end.

Definition extract_cases (cases_elements : list (str * option str))
    : result (list Case) :=
  rbind (fun r =>
           if snd r && bool_decide (fst r = []) then inr []
           else inr (fst r))
    (extract_loop 0 cases_elements []).

End Page.

End Scraper.

(** ** [main.py] *)
Module Main.
Import Py LLMProcessor ExcelManager.

Section ProcessCases.

Variable token_limit : Z.
Variable count_tokens : str -> result Z.
Variable gemini_api : list event -> str -> Z -> outcome.
Variable openai_api : list event -> str -> str -> outcome.
Variable gemini_prompt_templates : list (str -> str).
Variable openai_prompt : str.
Variable extraction_prompt : list str -> list str -> str.
Variable literal_eval : str -> result pyvalue.

(** [case.details] as the two request texts show it: a case without
    details reads [None]. *)
Definition details_text (c : Case) : str := default (lit "None") (details c).

(** The loop [for i, case in enumerate(cases, 1)] of [process_cases], from
    the case numbered [i] of [total]. *)
Fixpoint process_cases_from (i total : nat) (cases : list Case)
    (results : gmap (list N) case_results)
    : M (gmap (list N) case_results) :=
  match cases with
  | [] => mret results
  | case :: rest =>
      results' ←
        try_M
          (result ←
             process_case token_limit count_tokens gemini_api openai_api
               gemini_prompt_templates openai_prompt extraction_prompt
               literal_eval (title case) (details_text case);
           mret (<[unique_title case := result]> results))
          (fun _ => mret results);
      _ ← (if decide (i < total)%nat then sleep 1 else mret tt);
      process_cases_from (S i) total rest results'
  end.

(** [process_cases], once the processor has been built. *)
Definition process_cases (cases : list Case)
    : M (gmap (list N) case_results) :=
  process_cases_from 1 (length cases) cases ∅.

End ProcessCases.

End Main.

(** * Auxiliary definitions and sample data *)

Import Py LLMProcessor ExcelManager.

(** The encoder on texts that NFKC leaves alone, as it does every ASCII
    text. *)
Definition encode_snippet : str -> result str := clean_and_encode_text id.

(** The scenario of the specification, as an instance of the first case. *)
Definition scenario_answers : str :=
  [NEWLINE] ++ lit "10 years" ++ [TAB] ++ lit "9 years" ++ [TAB] ++ lit "2"
    ++ [TAB] ++ lit "$3000" ++ [TAB] ++ lit "$4000" ++ [TAB] ++ lit "Dual"
    ++ [NEWLINE].

Definition scenario_evidence : str :=
  [NEWLINE] ++ lit "1. " ++ [DQUOTE] ++ lit "married in 2005" ++ [DQUOTE]
    ++ [NEWLINE].

(** A decoder for one family of texts that [ast.literal_eval] accepts: a
    bracketed, comma-separated display of [True] and [False] with optional
    spaces.  On such a text it returns the list that [ast.literal_eval]
    returns; a text outside the family is reported as a syntax error. *)
Definition trim_spaces (s : str) : str :=
  reverse (dropwhile (N.eqb SPACE) (reverse (dropwhile (N.eqb SPACE) s))).

Definition decode_bool (piece : str) : option pyvalue :=
  if bool_decide (trim_spaces piece = lit "True") then Some (PyBool true)
  else if bool_decide (trim_spaces piece = lit "False") then
    Some (PyBool false)
  else None.

Definition literal_eval_bools (s : str) : result pyvalue :=
  match trim_spaces s with
  | 91 :: rest =>
      match reverse rest with
      | 93 :: inner =>
          if bool_decide (trim_spaces (reverse inner) = []) then
            inr (PyList [])
          else
            match mapM decode_bool (split_char 44 (reverse inner)) with
            | Some l => inr (PyList l)
            | None => inl SyntaxError
            end
      | _ => inl SyntaxError
      end
  | _ => inl SyntaxError
  end.

(** [k] failed attempts in a row, as events. *)
Definition gemini_round (prompt : str) (m : Z) : list event :=
  [GeminiCall prompt m; Sleep wait_time].

Definition openai_round (instructions input : str) : list event :=
  [OpenAICall instructions input; Sleep wait_time].

Definition rounds (k : nat) (round : list event) : list event :=
  concat (replicate k round).

(** Sample services and tokenizer for the instances below. *)
Definition tokens_by_length (s : str) : result Z := inr (Z.of_nat (length s)).

Definition gemini_unavailable (_ : list event) (_ : str) (_ : Z) : outcome :=
  Raises (lit "503 service unavailable").

Definition gemini_says (text : str) (_ : list event) (_ : str) (_ : Z)
    : outcome := Returns text.

Definition openai_rejects (_ : list event) (_ _ : str) : outcome :=
  Raises (lit "401 invalid api key").


Definition sample_comparison_prompt (output_1 output_2 : list str) : str :=
  lit "compare " ++ join_char SPACE output_1 ++ lit " with "
    ++ join_char SPACE output_2.

(** A file that [find_latest_excel_file] considers: its name matches the
    pattern and it is not the excluded one. *)
Definition candidate (exclude_path : option (list N)) (f : file) : Prop :=
  file_pattern_match (name f) = true
  /\ is_excluded exclude_path (name f) = false.

(** Sample archive data for the instances below. *)
Definition day1 : str := lit "01_03_2025.xlsx".

Definition day2 : str := lit "02_03_2025.xlsx".

Definition case_a : Case :=
  {| title := lit "A v B"; unique_title := lit "A v B 1 SLR 1";
     url := Some (lit "https://example.org/a");
     citation := lit "[2025] 1 SLR 1"; date := lit "1 Mar 2025";
     details := None |}.

Definition case_b : Case :=
  {| title := lit "C v D"; unique_title := lit "C v D 2 SLR 9";
     url := Some (lit "https://example.org/b");
     citation := lit "[2025] 2 SLR 9"; date := lit "2 Mar 2025";
     details := None |}.

Definition key_row (v : cell_value) : list cell :=
  [plain_cell (VStr (lit "some case")); plain_cell v].

(** Two older snapshots whose names and times disagree about which is the
    later one, a file that is no snapshot, and a file from earlier today. *)
Definition sample_folder : list file :=
  [ {| name := lit "31_12_2024.xlsx"; mtime := 50;
       content := Some (new_workbook ++ [key_row (VStr (lit "K1"))]) |};
    {| name := lit "01_01_2024.xlsx"; mtime := 90;
       content := Some (new_workbook ++ [key_row (VStr (lit "K2"))]) |};
    {| name := lit "notes.txt"; mtime := 100; content := None |};
    {| name := day2; mtime := 10; content := Some new_workbook |} ].

(** A prior snapshot with a number in its second key cell. *)
Definition folder_with_number : list file :=
  [ {| name := day1; mtime := 50;
       content :=
         Some (new_workbook
                 ++ [key_row (VStr (lit "A v B 1 SLR 1")); key_row (VNum 7)])
    |} ].

(** A first run on an empty archive, for a case to which Backend A gave
    fourteen fields, and a second run on the next day for another case. *)
Definition fourteen_fields : gmap (list N) case_results :=
  {[ unique_title case_a :=
       {| all_fields := replicate 14 (lit "x"); all_evidence := [];
          gpt_fields := replicate 4 NA; gemini_fields := replicate 4 (lit "na");
          differences := PyList (replicate 4 (PyBool false)) |} ]}.

Definition first_run : run :=
  process_and_save_cases encode_snippet day1 100 [] [case_a] fourteen_fields.


(** The keys that a list of rows contributes: the stripped non-empty
    strings of the key column. *)
Definition contributes (col : nat) (rows : list (list cell)) (k : list N)
    : Prop :=
  exists row s, row ∈ rows /\ value (cell_at row col) = VStr s
    /\ s <> [] /\ k = strip s.

(** The first run of the samples again, and a second run a day later over
    the same case. *)
Definition rerun : run :=
  process_and_save_cases encode_snippet day2 200 (archive first_run) [case_a]
    fourteen_fields.

(** Two runs over a prior snapshot with a number in a key cell, and two
    runs for a case whose key is the empty string. *)
Definition day3 : str := lit "03_03_2025.xlsx".

Definition run_over_number : run :=
  process_and_save_cases encode_snippet day2 200 folder_with_number [case_a] ∅.

Definition rerun_over_number : run :=
  process_and_save_cases encode_snippet day3 300 (archive run_over_number) [case_a] ∅.

Definition case_without_key : Case :=
  {| title := lit "E v F"; unique_title := []; url := None;
     citation := lit "[2025] 3 SLR 5"; date := lit "3 Mar 2025";
     details := None |}.

Definition run_without_key : run :=
  process_and_save_cases encode_snippet day1 100 [] [case_without_key] ∅.

Definition rerun_without_key : run :=
  process_and_save_cases encode_snippet day2 200 (archive run_without_key)
    [case_without_key] ∅.

(** The counts at which a run with [n] new cases saves its progress. *)
Definition checkpoint_counts (n : nat) : list nat :=
  (fun k => 5 * k)%nat <$> seq 1 (n / 5).

(** What the hyperlink loop does to the cell of answer [i]. *)
Definition linked (clean_and_encode_text : str -> result str)
    (url : option str) (all_evidence : list str) (i : nat) (c : cell) : cell :=
  match all_evidence !! i, url with
  | Some evidence_line, Some u =>
      if bool_decide (evidence_line ∈ no_link_evidence) then c
      else
        match clean_and_encode_text evidence_line with
        | inr short_snippet =>
            set_style_hyperlink
              (set_hyperlink (u ++ lit "#:~:text=" ++ short_snippet) c)
        | inl _ => c
        end
  | _, _ => c
  end.

(** What the mismatch block does to the cell of difference [i]. *)
Definition marked (gpt gemini : list str) (i : nat) (c : cell) : cell :=
  set_comment
    (mismatch_comment (field_or_na gpt i) (field_or_na gemini i))
    (lit "A2JBot") (set_fill highlight_fill c).

(** The difference that is shown at the cell with index [j] of a row, if
    any: the inverse of [column_map], with cells counted from 0. *)
Definition marker_of (j : nat) : option nat :=
  match j with
  | 9 => Some 0 | 12 => Some 1 | 13 => Some 2 | 14 => Some 3
  | _ => None
  end%nat.

(** Results for [case_b] with evidence for the first two answers and a
    difference at the first and at the last compared position. *)
Definition sample_results : gmap (list N) case_results :=
  {[ unique_title case_b :=
       {| all_fields :=
            [lit "10 years"; lit "9 years"; lit "2"; lit "$3000";
             lit "$4000"; lit "Dual"; lit "40"; lit "60"; lit "50";
             lit "55"; lit "Plus 5"; lit "long marriage"; lit "Joint Custody"];
          all_evidence := [lit "married in 2005"; lit "NA"];
          gpt_fields := [lit "Single"; lit "50"; lit "55"; lit "0"];
          gemini_fields := [lit "dual"; lit "50"; lit "55"; lit "plus 5"];
          differences :=
            PyList [PyBool true; PyBool false; PyBool false; PyBool true] |} ]}.

(** Results for [case_b] whose first evidence line holds a lone surrogate,
    which cannot be encoded. *)
Definition results_with_surrogate : gmap (list N) case_results :=
  {[ unique_title case_b :=
       {| all_fields := [lit "10 years"; lit "9 years"];
          all_evidence := [lit "married " ++ [55357]; lit "lived apart"];
          gpt_fields := []; gemini_fields := [];
          differences := PyList [] |} ]}.

(** A sheet whose header names the key column twice, the last time in
    column D, with one key there. *)
Definition sheet_with_two_key_columns : list (list cell) :=
  [ plain_cell ∘ VStr
      <$> [lit "Case Name"; lit "Unique Name"; lit "Citation";
           lit "Unique Name"];
    plain_cell ∘ VStr
      <$> [lit "A v B"; lit "old key"; lit "[2025] 1 SLR 1";
           lit " A v B 1 SLR 1 "] ].

Definition folder_with_two_key_columns : list file :=
  [ {| name := day1; mtime := 50;
       content := Some sheet_with_two_key_columns |} ].

(** Two snapshots with the same modification time, an older one, and a
    newer file that is no snapshot. *)
Definition folder_with_tie : list file :=
  [ {| name := lit "05_01_2025.xlsx"; mtime := 10; content := None |};
    {| name := lit "03_01_2025.xlsx"; mtime := 70; content := None |};
    {| name := lit "readme.md"; mtime := 99; content := None |};
    {| name := lit "04_01_2025.xlsx"; mtime := 70; content := None |} ].

(** Counting the events of a stretch of history. *)
Definition is_gemini_call (e : event) : bool :=
  match e with GeminiCall _ _ => true | _ => false end.

Definition is_openai_call (e : event) : bool :=
  match e with OpenAICall _ _ => true | _ => false end.

Definition is_sleep (e : event) : bool :=
  match e with Sleep _ => true | _ => false end.

Definition count_events (p : event -> bool) (t : list event) : nat :=
  length (filter (fun e => p e = true) t).

Definition gemini_calls : list event -> nat := count_events is_gemini_call.
Definition openai_calls : list event -> nat := count_events is_openai_call.
Definition sleeps : list event -> nat := count_events is_sleep.

(** A stretch of history with at most [g] Gemini calls and [o] OpenAI
    calls, in which every sleep lasts 60 seconds and there are no more
    sleeps than calls. *)
Definition within (g o : nat) (t : list event) : Prop :=
  (gemini_calls t <= g)%nat
  /\ (openai_calls t <= o)%nat
  /\ Forall (fun e => forall s, e = Sleep s -> s = 60%Z) t
  /\ (sleeps t <= gemini_calls t + openai_calls t)%nat.

(** A computation that only adds to the history, and adds such a
    stretch, whether it returns or raises. *)
Definition bounded {A} (g o : nat) (c : M A) : Prop :=
  forall w, exists t, snd (c w) = w ++ t /\ within g o t.

(** A tokenizer on code points: one token per character. *)
Definition code_points (s : str) : result (list Z) := inr (Z.of_N <$> s).
Definition of_code_points (tokens : list Z) : str := Z.to_N <$> tokens.

(** The request text built by [extract_gemini_case_output] and
    [extract_openai_output]. *)
Definition case_prompt (case_title case_details : str) : str :=
  lit "Extract the required legal data from " ++ case_title
    ++ lit ":" ++ [NEWLINE; NEWLINE] ++ case_details.

Definition TOO_LARGE : str := lit "Error: Input too large.".
Definition NO_TEXT : str := lit "No supporting text returned.".

(** Code points that [encode('utf-8')] refuses, and those of a [str] that
    it accepts. *)
Definition is_surrogate (c : char) : bool := (55296 <=? c) && (c <=? 57343).

Definition scalar_value (c : char) : bool :=
  (c <? 1114112) && negb (is_surrogate c).

(** The characters that an encoded snippet is made of. *)
Definition url_char (c : char) : bool :=
  is_ascii_alnum c || bool_decide (c ∈ lit "_.~%&=").

Definition HYPHEN : char := 45.

(** The number of periods that a string starts with. *)
Definition leading_dots (s : str) : nat :=
  length (takewhile (fun c => c =? DOT) s).

(** The pauses of one second between two cases. *)
Definition is_pause (e : event) : bool :=
  match e with Sleep 1 => true | _ => false end.

Definition pauses : list event -> nat := count_events is_pause.

(** The cases that the entries of a page stand for, from entry [i] on. *)
Fixpoint cases_from (citation_spans date_spans : list str) (i : nat)
    (cases_elements : list (str * option str)) : list Scraper.Case :=
  match cases_elements with
  | [] => []
  | case_elem :: rest =>
      Scraper.case_of citation_spans date_spans i case_elem
        :: cases_from citation_spans date_spans (S i) rest
  end.

(** A case that ends the extraction: it is too old, or the archive has
    its name. *)
Definition ends_extraction (existing_cases : gset (list N))
    (c : Scraper.Case) : Prop :=
  Scraper.too_old (Scraper.date c) = inr true
  \/ Scraper.unique_title c ∈ existing_cases.

(** A case that the extraction goes past. *)
Definition passed (existing_cases : gset (list N)) (c : Scraper.Case)
    : Prop :=
  Scraper.too_old (Scraper.date c) = inr false
  /\ Scraper.unique_title c ∉ existing_cases.

(** A case that the first search did not find. *)
Definition unseen (first_pass_cases : list Scraper.Case) (c : Scraper.Case)
    : Prop :=
  Scraper.unique_title c ∉ Scraper.unique_title <$> first_pass_cases.

(** A page of three entries: a recent case, a case without citation and a
    case of 2015. *)
Definition sample_page : list (str * option str) :=
  [(lit " A v B ", Some (lit "https://example.org/a"));
   (lit "C v D", None);
   (lit "E v F", Some (lit "https://example.org/e"))].

Definition sample_citations : list str :=
  [lit "[2024] SGHCF 12 |"].

Definition sample_dates : list str :=
  [lit "Decision Date: 3 Jan 2024 |"; lit "Decision Date: 5 Feb 2023";
   lit "Decision Date: 7 Mar 2015"].

(** A computation that only adds to the history, and adds only events
    that satisfy [P], whether it returns or raises. *)
Definition adds {A} (P : event -> Prop) (c : M A) : Prop :=
  forall w, exists t, snd (c w) = w ++ t /\ Forall P t.

(** A request to Gemini that respects the token budget: the output
    allowance is what the ceiling leaves after the tokens of the prompt
    and the margin of 100, it is at most 500000 and at least 1000. *)
Definition gemini_call_fits (token_limit : Z)
    (count_tokens : str -> result Z) (prompt : str) (m : Z) : Prop :=
  exists n,
    count_tokens prompt = inr n
    /\ m = Z.min (token_limit - n - 100) 500000
    /\ (1000 <= m <= 500000)%Z
    /\ (n + m + 100 <= token_limit)%Z.

(** The events that processing the case [case_title], [case_details] may
    add. *)
Definition case_event (token_limit : Z) (count_tokens : str -> result Z)
    (gemini_prompt_templates : list (str -> str)) (openai_prompt : str)
    (extraction_prompt : list str -> list str -> str)
    (case_title case_details : str) (e : event) : Prop :=
  match e with
  | GeminiCall prompt m =>
      gemini_call_fits token_limit count_tokens prompt m
      /\ ((exists template,
             template ∈ gemini_prompt_templates
             /\ prompt = template (case_prompt case_title case_details))
          \/ exists gpt gemini,
               length gpt = 4%nat /\ length gemini = 4%nat
               /\ prompt = extraction_prompt gpt gemini)
  | OpenAICall instructions input =>
      instructions = openai_prompt
      /\ input = case_prompt case_title case_details
  | Sleep seconds => seconds = 60%Z
  end.


(** * Properties *)

(** ** Strings *)
Section StringFacts.

Context {A : Type} (p : A -> bool).

Lemma dropwhile_suffix (l : list A) :
  exists pre, l = pre ++ dropwhile p l.
Proof.
  induction l as [|x l [pre IH]]; simpl.
  - by exists [].
  - destruct (p x); [exists (x :: pre); simpl; by f_equal | by exists []].
Qed.

Lemma dropwhile_head (l : list A) x l' :
  dropwhile p l = x :: l' -> p x = false.
Proof.
  induction l as [|y l IH]; simpl; [done|].
  destruct (p y) eqn:Hy; [done|]. intros [= -> _]. done.
Qed.

Lemma dropwhile_fixed (l : list A) :
  from_option p false (head l) = false -> dropwhile p l = l.
Proof. destruct l as [|x l]; simpl; [done|]. by intros ->. Qed.

Lemma dropwhile_fixed_inv (l : list A) :
  dropwhile p l = l -> from_option p false (head l) = false.
Proof.
  destruct l as [|x l]; simpl; [done|].
  destruct (p x); [|done]. intros H.
  destruct (dropwhile_suffix l) as [pre Hpre].
  apply (f_equal length) in H. rewrite Hpre in H at 2.
  simpl in H. rewrite length_app in H. lia.
Qed.

Lemma dropwhile_Forall (Q : A -> Prop) (l : list A) :
  Forall Q l -> Forall Q (dropwhile p l).
Proof.
  intros H. destruct (dropwhile_suffix l) as [pre Hpre].
  rewrite Hpre in H. by apply Forall_app in H as [_ ?].
Qed.

End StringFacts.

Lemma Forall_reverse_2 {A} (Q : A -> Prop) (l : list A) :
  Forall Q l -> Forall Q (reverse l).
Proof. intros H. by apply Forall_reverse. Qed.

Lemma lstrip_fixed s :
  from_option isspace false (head s) = false -> lstrip s = s.
Proof. apply dropwhile_fixed. Qed.

Lemma rstrip_fixed s :
  from_option isspace false (last s) = false -> rstrip s = s.
Proof.
  intros H. unfold rstrip. rewrite dropwhile_fixed.
  - apply reverse_involutive.
  - by rewrite head_reverse.
Qed.

Lemma rstrip_prefix s : exists ws, s = rstrip s ++ ws.
Proof.
  unfold rstrip. destruct (dropwhile_suffix isspace (reverse s)) as [pre H].
  exists (reverse pre).
  rewrite <- reverse_app, <- H. by rewrite reverse_involutive.
Qed.

Lemma rstrip_last s : from_option isspace false (last (rstrip s)) = false.
Proof.
  unfold rstrip. rewrite last_reverse.
  destruct (dropwhile isspace (reverse s)) as [|x l] eqn:E; [done|].
  simpl. by apply dropwhile_head in E.
Qed.

Lemma lstrip_head s : from_option isspace false (head (lstrip s)) = false.
Proof.
  unfold lstrip. destruct (dropwhile isspace s) as [|x l] eqn:E; [done|].
  simpl. by apply dropwhile_head in E.
Qed.

Lemma strip_head s : from_option isspace false (head (strip s)) = false.
Proof.
  unfold strip. pose proof (lstrip_head s) as H.
  destruct (rstrip_prefix (lstrip s)) as [ws Hws].
  destruct (rstrip (lstrip s)) as [|x r]; [done|].
  rewrite Hws in H. exact H.
Qed.

Lemma strip_last s : from_option isspace false (last (strip s)) = false.
Proof. apply rstrip_last. Qed.

Lemma strip_fixed s :
  from_option isspace false (head s) = false ->
  from_option isspace false (last s) = false ->
  strip s = s.
Proof.
  intros Hh Hl. unfold strip. rewrite lstrip_fixed by done.
  by apply rstrip_fixed.
Qed.

Lemma strip_strip s : strip (strip s) = strip s.
Proof. apply strip_fixed; [apply strip_head | apply strip_last]. Qed.

Lemma strip_Forall (Q : N -> Prop) s : Forall Q s -> Forall Q (strip s).
Proof.
  intros H. unfold strip, rstrip, lstrip.
  apply Forall_reverse_2, dropwhile_Forall, Forall_reverse_2.
  by apply dropwhile_Forall.
Qed.

Lemma replace_char_fixed a b s :
  Forall (fun c => c <> a) s -> replace_char a b s = s.
Proof.
  unfold replace_char. induction 1 as [|c s Hc _ IH]; [done|].
  rewrite fmap_cons, IH. f_equal.
  destruct (N.eqb_spec c a); congruence.
Qed.

Lemma replace_char_Forall a b s :
  a <> b -> Forall (fun c => c <> a) (replace_char a b s).
Proof.
  intros Hab. unfold replace_char. apply Forall_fmap, Forall_forall.
  intros c _. simpl. destruct (N.eqb_spec c a); congruence.
Qed.

Lemma strip_leading_quote_Forall (Q : N -> Prop) s :
  Forall Q s -> Forall Q (strip_leading_quote s).
Proof.
  destruct s as [|c s]; simpl; [done|].
  destruct (is_quote c); [|done]. by inversion 1.
Qed.

Lemma strip_trailing_quote_Forall (Q : N -> Prop) s :
  Forall Q s -> Forall Q (strip_trailing_quote s).
Proof.
  intros H. unfold strip_trailing_quote.
  pose proof (Forall_reverse_2 _ _ H) as Hr.
  destruct (reverse s) as [|c r] eqn:E; [done|].
  apply Forall_cons in Hr as [Hc Hr].
  destruct (is_quote c); [by apply Forall_reverse_2|].
  destruct (N.eqb_spec c NEWLINE) as [->|]; [|done].
  destruct r as [|q r']; [done|].
  apply Forall_cons in Hr as [_ Hr'].
  destruct (is_quote q); [|done].
  apply Forall_app; split; [by apply Forall_reverse_2 | by constructor].
Qed.

(** The cleaned line has no white space at either end and no no-break
    space anywhere. *)
Lemma clean_evidence_line_shape s :
  let t := clean_evidence_line s in
  from_option isspace false (head t) = false
  /\ from_option isspace false (last t) = false
  /\ Forall (fun c => c <> NBSP) t.
Proof.
  simpl. unfold clean_evidence_line. split_and!.
  - apply strip_head.
  - apply strip_last.
  - apply strip_Forall, strip_trailing_quote_Forall.
    apply strip_leading_quote_Forall, replace_char_Forall. done.
Qed.

(** A line of that shape on which the numbering pattern does not match and
    which has no quote at either end is left as it is. *)
Lemma clean_evidence_line_fixed t :
  from_option isspace false (head t) = false ->
  from_option isspace false (last t) = false ->
  Forall (fun c => c <> NBSP) t ->
  match_numbering t = None ->
  from_option is_quote false (head t) = false ->
  from_option is_quote false (last t) = false ->
  clean_evidence_line t = t.
Proof.
  intros Hh Hl Hn Hm Hq1 Hq2. unfold clean_evidence_line.
  unfold strip_numbering. rewrite Hm. simpl.
  rewrite replace_char_fixed by done.
  assert (strip_leading_quote t = t) as ->.
  { destruct t as [|c t]; simpl in *; [done|]. by rewrite Hq1. }
  assert (strip_trailing_quote t = t) as ->.
  { unfold strip_trailing_quote. rewrite <- head_reverse in Hq2, Hl.
    destruct (reverse t) as [|c r] eqn:E.
    - apply (f_equal reverse) in E. by rewrite reverse_involutive in E.
    - simpl in *. rewrite Hq2.
      destruct (N.eqb_spec c NEWLINE) as [->|]; [|done].
      by vm_compute in Hl. }
  by apply strip_fixed.
Qed.

(** C8, as amended.  Cleaning a cleaned line gives the same line whenever
    the cleaned line has no enumeration prefix left (the pattern of its
    first step does not match it) and has no quote character at its start
    or at its end; each step removes one prefix or one quote only. *)
Theorem clean_evidence_line_idempotent_when_settled (s : str) :
  match_numbering (clean_evidence_line s) = None ->
  from_option is_quote false (head (clean_evidence_line s)) = false ->
  from_option is_quote false (last (clean_evidence_line s)) = false ->
  clean_evidence_line (clean_evidence_line s) = clean_evidence_line s.
Proof.
  intros Hm Hq1 Hq2.
  destruct (clean_evidence_line_shape s) as (Hh & Hl & Hn).
  by apply clean_evidence_line_fixed.
Qed.

Lemma clean_evidence_line_idempotent_when_settled_witness :
  let s := lit "1. " ++ [DQUOTE] ++ lit "married in 2005" ++ [DQUOTE] in
  match_numbering (clean_evidence_line s) = None
  /\ from_option is_quote false (head (clean_evidence_line s)) = false
  /\ from_option is_quote false (last (clean_evidence_line s)) = false
  /\ clean_evidence_line (clean_evidence_line s) = clean_evidence_line s.
Proof.
  simpl. split_and!; [reflexivity ..|].
  apply (clean_evidence_line_idempotent_when_settled
           (lit "1. " ++ [DQUOTE] ++ lit "married in 2005" ++ [DQUOTE]));
    reflexivity.
Defined.

(** C8, as stated, fails: a second enumeration prefix survives the first
    cleaning and is removed by the second. *)
Lemma clean_evidence_line_not_idempotent :
  clean_evidence_line (clean_evidence_line (lit "1. 2. x"))
  <> clean_evidence_line (lit "1. 2. x").
Proof. vm_compute. discriminate. Qed.

(** ** Finding and splitting *)

Lemma starts_with_app p r : starts_with p (p ++ r) = true.
Proof. induction p as [|a p IH]; simpl; [done|]. by rewrite N.eqb_refl. Qed.

Lemma starts_with_true p s :
  starts_with p s = true -> s = p ++ drop (length p) s.
Proof.
  revert s. induction p as [|a p IH]; intros [|b s]; simpl; try done.
  intros [Hab Hp]%andb_prop. apply N.eqb_eq in Hab as ->.
  f_equal. by apply IH.
Qed.

Lemma find_Some_split sep s i :
  find sep s = Some i -> s = take i s ++ sep ++ drop (i + length sep) s.
Proof.
  revert i. induction s as [|c s IH]; intros i; simpl.
  - destruct (starts_with sep []) eqn:E; [|done].
    intros [= <-]. simpl. by apply starts_with_true in E.
  - destruct (starts_with sep (c :: s)) eqn:E.
    + intros [= <-]. simpl. by apply starts_with_true in E.
    + destruct (find sep s) as [j|]; [|done]. simpl. intros [= <-].
      simpl. f_equal. by apply IH.
Qed.

Lemma find_is_Some sep a b : is_Some (find sep (a ++ sep ++ b)).
Proof.
  induction a as [|c a IH]; simpl.
  - destruct (sep ++ b) eqn:E; simpl; rewrite <- ?E, starts_with_app; eauto.
  - destruct (starts_with sep (c :: a ++ sep ++ b)); [eauto|].
    destruct IH as [j ->]. simpl. eauto.
Qed.

Lemma contains_occurrence sep a b : contains sep (a ++ sep ++ b) = true.
Proof. unfold contains. by destruct (find_is_Some sep a b) as [j ->]. Qed.

Lemma contains_find sep s i : find sep s = Some i -> contains sep s = true.
Proof. unfold contains. by intros ->. Qed.

Lemma contains_false_find sep s : contains sep s = false -> find sep s = None.
Proof. unfold contains. by destruct (find sep s). Qed.

(** [split1] cuts at the first occurrence of the separator. *)
Lemma split1_first sep a b :
  find sep (a ++ sep ++ b) = Some (length a) ->
  split1 sep (a ++ sep ++ b) = [a; b].
Proof.
  intros H. unfold split1. rewrite H. f_equal; [apply take_app_length|].
  f_equal. rewrite drop_app_add, drop_app_length. done.
Qed.

Lemma split1_absent sep s : contains sep s = false -> split1 sep s = [s].
Proof. intros H%contains_false_find. unfold split1. by rewrite H. Qed.

Lemma split_char_cons c s : exists h t, split_char c s = h :: t.
Proof.
  induction s as [|x s (h & t & IH)]; simpl; [eauto|].
  destruct (x =? c); [eauto|]. rewrite IH. eauto.
Qed.

Lemma split_char_app c x rest h t :
  Forall (fun y => y <> c) x -> split_char c rest = h :: t ->
  split_char c (x ++ rest) = (x ++ h) :: t.
Proof.
  intros Hx Hr. induction Hx as [|y x Hy _ IH]; simpl; [done|].
  destruct (N.eqb_spec y c); [done|]. by rewrite IH.
Qed.

Lemma split_char_join_replicate c n x :
  Forall (fun y => y <> c) x -> n <> 0%nat ->
  split_char c (join_char c (replicate n x)) = replicate n x.
Proof.
  intros Hx Hn. destruct n as [|n]; [done|]. clear Hn.
  induction n as [|n IH].
  - simpl. rewrite <- (app_nil_r x) at 1.
    rewrite (split_char_app c x [] [] []); by rewrite ?app_nil_r.
  - change (join_char c (replicate (S (S n)) x))
      with (x ++ c :: join_char c (replicate (S n) x)).
    rewrite (split_char_app c x _ [] (replicate (S n) x)); [|done|].
    + by rewrite app_nil_r.
    + simpl split_char. rewrite N.eqb_refl. f_equal. exact IH.
Qed.

(** ** Parsing a Backend A response *)

Lemma split_on_markers_ordered pre mid post :
  find ANSWERS_MARKER (pre ++ ANSWERS_MARKER ++ mid ++ EVIDENCE_MARKER ++ post)
    = Some (length pre) ->
  find EVIDENCE_MARKER (mid ++ EVIDENCE_MARKER ++ post) = Some (length mid) ->
  split_on_markers (pre ++ ANSWERS_MARKER ++ mid ++ EVIDENCE_MARKER ++ post)
    = inr (strip mid, strip post).
Proof.
  intros Ha He. unfold split_on_markers.
  rewrite (split1_first _ _ _ Ha).
  cbv [index lookup list_lookup rbind].
  by rewrite (split1_first _ _ _ He).
Qed.

Lemma split_on_markers_unordered pre rest :
  find ANSWERS_MARKER (pre ++ ANSWERS_MARKER ++ rest) = Some (length pre) ->
  contains EVIDENCE_MARKER rest = false ->
  split_on_markers (pre ++ ANSWERS_MARKER ++ rest) = inl ValueError.
Proof.
  intros Ha He. unfold split_on_markers.
  rewrite (split1_first _ _ _ Ha).
  cbv [index lookup list_lookup rbind].
  by rewrite (split1_absent _ _ He).
Qed.

(** C3, as amended.  For every raw Backend A response [output]:
    - when both markers are present and an evidence marker follows the
      first answers marker, the answers are the text between the first
      answers marker and the first evidence marker after it, with the
      white space at both ends removed, and the fields are that text split
      on the tab character; the evidence is the text after that evidence
      marker, with the white space at both ends removed;
    - when a marker is missing, the response is split at the first blank
      line (two consecutive newlines): the part before it, trimmed, is the
      answers and the part after it, trimmed, is the evidence; without a
      blank line the whole trimmed response is the answers and the evidence
      is the literal [No supporting text returned.];
    - the function returns in every case; when both markers are present
      but no evidence marker follows the first answers marker, the
      unpacking inside raises, and the result has only [Error] fields and
      the single evidence line [Error processing output]. *)
Theorem process_gemini_output_cases (output : str) :
  (forall pre mid post,
     output = pre ++ ANSWERS_MARKER ++ mid ++ EVIDENCE_MARKER ++ post ->
     find ANSWERS_MARKER output = Some (length pre) ->
     find EVIDENCE_MARKER (mid ++ EVIDENCE_MARKER ++ post)
       = Some (length mid) ->
     process_gemini_output output = (strip mid, strip post)
     /\ prompt_fields (fst (process_gemini_output output))
        = split_char TAB (strip mid))
  /\ (forall before after,
        contains ANSWERS_MARKER output && contains EVIDENCE_MARKER output
          = false ->
        output = before ++ [NEWLINE; NEWLINE] ++ after ->
        find [NEWLINE; NEWLINE] output = Some (length before) ->
        process_gemini_output output = (strip before, strip after))
  /\ (contains ANSWERS_MARKER output && contains EVIDENCE_MARKER output
        = false ->
      contains [NEWLINE; NEWLINE] output = false ->
      process_gemini_output output
        = (strip output, lit "No supporting text returned."))
  /\ (forall pre rest,
        output = pre ++ ANSWERS_MARKER ++ rest ->
        find ANSWERS_MARKER output = Some (length pre) ->
        contains EVIDENCE_MARKER output = true ->
        contains EVIDENCE_MARKER rest = false ->
        split_on_markers output = inl ValueError
        /\ prompt_fields (fst (process_gemini_output output)) <> []
        /\ Forall (fun f => f = ERROR)
             (prompt_fields (fst (process_gemini_output output)))
        /\ prompt_evidence_lines (snd (process_gemini_output output))
           = [lit "Error processing output"]).
Proof.
  split_and!.
  - intros pre mid post -> Ha He.
    assert (process_gemini_output
              (pre ++ ANSWERS_MARKER ++ mid ++ EVIDENCE_MARKER ++ post)
            = (strip mid, strip post)) as Hp.
    { unfold process_gemini_output.
      rewrite (contains_find _ _ _ Ha).
      replace (pre ++ ANSWERS_MARKER ++ mid ++ EVIDENCE_MARKER ++ post)
        with ((pre ++ ANSWERS_MARKER ++ mid) ++ EVIDENCE_MARKER ++ post)
        at 1 by (by rewrite <- !app_assoc).
      rewrite contains_occurrence. simpl andb. cbv iota.
      by rewrite split_on_markers_ordered. }
    by rewrite Hp.
  - intros before after Hm -> Hn. unfold process_gemini_output.
    rewrite Hm. by rewrite (split1_first _ _ _ Hn).
  - intros Hm Hn. unfold process_gemini_output.
    rewrite Hm. by rewrite (split1_absent _ _ Hn).
  - intros pre rest -> Ha He Hr.
    assert (process_gemini_output (pre ++ ANSWERS_MARKER ++ rest)
            = (join_char TAB (replicate 6 ERROR),
               lit "Error processing output")) as Hp.
    { unfold process_gemini_output.
      rewrite (contains_find _ _ _ Ha), He. simpl andb. cbv iota.
      by rewrite split_on_markers_unordered. }
    split; [by apply split_on_markers_unordered|].
    rewrite Hp. by vm_compute; repeat constructor.
Qed.

Lemma process_gemini_output_cases_witness :
  let output :=
    [] ++ ANSWERS_MARKER ++ scenario_answers ++ EVIDENCE_MARKER
      ++ scenario_evidence in
  find ANSWERS_MARKER output = Some 0%nat
  /\ find EVIDENCE_MARKER (scenario_answers ++ EVIDENCE_MARKER ++ scenario_evidence)
     = Some (length scenario_answers)
  /\ prompt_fields (fst (process_gemini_output output))
     = [lit "10 years"; lit "9 years"; lit "2"; lit "$3000"; lit "$4000";
        lit "Dual"]
  /\ prompt_evidence_lines (snd (process_gemini_output output))
     = [lit "married in 2005"].
Proof.
  cbv zeta.
  destruct (process_gemini_output_cases
              ([] ++ ANSWERS_MARKER ++ scenario_answers ++ EVIDENCE_MARKER
                 ++ scenario_evidence)) as (H & _).
  destruct (H [] scenario_answers scenario_evidence) as [Hp Hf];
    [reflexivity ..|].
  split_and!; [reflexivity | reflexivity | |].
  - rewrite Hf. reflexivity.
  - rewrite Hp. reflexivity.
Defined.

(** C3, as stated, fails twice.  The answers are not the text strictly
    between the markers: the white space around it is removed first, which
    here drops an empty leading field.  And a failure inside the parser
    gives six [Error] fields whatever number the prompt expects; the second
    prompt expects seven. *)
Lemma process_gemini_output_not_as_stated :
  (let between := [TAB] ++ lit "A" ++ [TAB] ++ lit "B" in
   let output :=
     ANSWERS_MARKER ++ between ++ EVIDENCE_MARKER ++ lit "e" in
   prompt_fields (fst (process_gemini_output output))
   <> split_char TAB between)
  /\ (let output := EVIDENCE_MARKER ++ ANSWERS_MARKER in
      contains ANSWERS_MARKER output && contains EVIDENCE_MARKER output = true
      /\ split_on_markers output = inl ValueError
      /\ prompt_fields (fst (process_gemini_output output))
         <> replicate (expected_fields 1) ERROR).
Proof. vm_compute. split_and!; try reflexivity; discriminate. Qed.

(** ** Calls, retries and the budget guard *)

Lemma rounds_S k round : rounds (S k) round = round ++ rounds k round.
Proof. reflexivity. Qed.

Section Retries.

Variable token_limit : Z.
Variable count_tokens : str -> result Z.
Variable gemini_api : list event -> str -> Z -> outcome.
Variable openai_api : list event -> str -> str -> outcome.

(** After [k] failed calls the loop goes on with [k] attempts fewer. *)
Lemma gemini_attempts_failed k : forall left prompt m w,
  (forall j, (j < k)%nat ->
     exists msg, gemini_api (w ++ rounds j (gemini_round prompt m)) prompt m
                 = Raises msg) ->
  gemini_attempts gemini_api (k + left) prompt m w
  = gemini_attempts gemini_api left prompt m
      (w ++ rounds k (gemini_round prompt m)).
Proof.
  induction k as [|k IH]; intros left prompt m w H.
  - simpl. by rewrite app_nil_r.
  - destruct (H 0%nat ltac:(lia)) as [msg Hmsg].
    simpl in Hmsg. rewrite app_nil_r in Hmsg.
    change (S k + left)%nat with (S (k + left)).
    cbn [gemini_attempts]. unfold mbind, M_bind, call_gemini at 1.
    rewrite Hmsg. unfold sleep, emit. rewrite <- app_assoc. simpl app.
    rewrite IH.
    + rewrite rounds_S, <- app_assoc. reflexivity.
    + intros j Hj. destruct (H (S j) ltac:(lia)) as [msg' Hm'].
      exists msg'. rewrite rounds_S in Hm'. by rewrite <- app_assoc.
Qed.

(** After [k] calls that failed for rate limits the loop goes on with [k]
    attempts fewer. *)
Lemma openai_attempts_limited k : forall left instructions input w,
  (forall j, (j < k)%nat ->
     exists msg,
       openai_api (w ++ rounds j (openai_round instructions input))
         instructions input = Raises msg
       /\ is_rate_limit msg = true) ->
  openai_attempts openai_api (k + left) instructions input w
  = openai_attempts openai_api left instructions input
      (w ++ rounds k (openai_round instructions input)).
Proof.
  induction k as [|k IH]; intros left instructions input w H.
  - simpl. by rewrite app_nil_r.
  - destruct (H 0%nat ltac:(lia)) as (msg & Hmsg & Hrl).
    simpl in Hmsg. rewrite app_nil_r in Hmsg.
    change (S k + left)%nat with (S (k + left)).
    cbn [openai_attempts]. unfold mbind, M_bind, call_openai at 1.
    rewrite Hmsg, Hrl. unfold sleep, emit. rewrite <- app_assoc. simpl app.
    rewrite IH.
    + rewrite rounds_S, <- app_assoc. reflexivity.
    + intros j Hj. destruct (H (S j) ltac:(lia)) as (msg' & Hm' & Hr').
      exists msg'. rewrite rounds_S in Hm'. by rewrite <- app_assoc.
Qed.

(** C7.  When the token ceiling minus the token count of the prompt minus
    the margin of 100 is below 1000, the extraction returns the
    input-too-large text at once: the world is as before, so no call was
    made and nothing was slept. *)
Theorem extract_gemini_output_budget_guard (prompt : str) (n : Z)
    (w : list event) :
  count_tokens prompt = inr n ->
  (token_limit - n - 100 < 1000)%Z ->
  extract_gemini_output token_limit count_tokens gemini_api prompt w
  = (inr (lit "Error: Input too large."), w).
Proof.
  intros Hn Hlt. unfold extract_gemini_output, mbind, M_bind, lift.
  rewrite Hn.
  destruct (Z.ltb_spec (Z.min (token_limit - n - 100) 500000) 1000);
    [done | lia].
Qed.

(** When the budget suffices, the extraction is the retry loop with five
    attempts. *)
Lemma extract_gemini_output_within_budget prompt n w :
  count_tokens prompt = inr n ->
  (1000 <= token_limit - n - 100)%Z ->
  extract_gemini_output token_limit count_tokens gemini_api prompt w
  = gemini_attempts gemini_api 5 prompt
      (Z.min (token_limit - n - 100) 500000) w.
Proof.
  intros Hn Hge. unfold extract_gemini_output, mbind, M_bind, lift.
  rewrite Hn.
  destruct (Z.ltb_spec (Z.min (token_limit - n - 100) 500000) 1000);
    [lia | done].
Qed.

(** C6, as amended.  Backend A: every failed call is followed by a sleep
    of 60 seconds and another attempt; a call that returns ends the loop
    with the trimmed text; after five failed calls the result is the text
    [Error: Failed after 5 attempts.].  Backend B: a failure whose message
    mentions a rate limit is followed by a sleep of 60 seconds and another
    attempt, three attempts at most, after which the result is the text
    [Error: Failed after 3 attempts.]; any other failure ends the loop at
    once with the text [Error], without a sleep and without another call. *)
Theorem retry_policies (prompt instructions case_name case_details : str)
    (n : Z) (w : list event) :
  let m := Z.min (token_limit - n - 100) 500000 in
  let round_a := gemini_round prompt m in
  let input :=
    lit "Extract the required legal data from " ++ case_name
      ++ lit ":" ++ [NEWLINE; NEWLINE] ++ case_details in
  let round_b := openai_round instructions input in
  (count_tokens prompt = inr n ->
   (1000 <= token_limit - n - 100)%Z ->
   forall k,
     (forall j, (j < k)%nat ->
        exists msg, gemini_api (w ++ rounds j round_a) prompt m = Raises msg) ->
     (k = 5%nat ->
      extract_gemini_output token_limit count_tokens gemini_api prompt w
      = (inr (lit "Error: Failed after 5 attempts."), w ++ rounds 5 round_a))
     /\ (forall text,
           (k < 5)%nat ->
           gemini_api (w ++ rounds k round_a) prompt m = Returns text ->
           extract_gemini_output token_limit count_tokens gemini_api prompt w
           = (inr (strip text),
              w ++ rounds k round_a ++ [GeminiCall prompt m])))
  /\ (forall k,
        (forall j, (j < k)%nat ->
           exists msg,
             openai_api (w ++ rounds j round_b) instructions input
               = Raises msg
             /\ is_rate_limit msg = true) ->
        (k = 3%nat ->
         extract_openai_output openai_api instructions case_name case_details w
         = (inr (lit "Error: Failed after 3 attempts."),
            w ++ rounds 3 round_b))
        /\ (forall msg,
              (k < 3)%nat ->
              openai_api (w ++ rounds k round_b) instructions input
                = Raises msg ->
              is_rate_limit msg = false ->
              extract_openai_output openai_api instructions case_name
                case_details w
              = (inr ERROR,
                 w ++ rounds k round_b ++ [OpenAICall instructions input]))
        /\ (forall text,
              (k < 3)%nat ->
              openai_api (w ++ rounds k round_b) instructions input
                = Returns text ->
              extract_openai_output openai_api instructions case_name
                case_details w
              = (inr (strip text),
                 w ++ rounds k round_b ++ [OpenAICall instructions input]))).
Proof.
  cbv zeta. split.
  - intros Hn Hge k Hfail.
    rewrite (extract_gemini_output_within_budget _ _ _ Hn Hge). split.
    + intros ->.
      pose proof (gemini_attempts_failed 5 0 _ _ _ Hfail) as E.
      change (5 + 0)%nat with 5%nat in E. rewrite E. reflexivity.
    + intros text Hk Hret.
      replace 5%nat with (k + S (4 - k))%nat by lia.
      rewrite (gemini_attempts_failed k _ _ _ _ Hfail).
      cbn [gemini_attempts]. unfold mbind, M_bind, call_gemini.
      rewrite Hret. unfold mret, M_ret. by rewrite <- app_assoc.
  - intros k Hfail. unfold extract_openai_output. split_and!.
    + intros ->.
      pose proof (openai_attempts_limited 3 0 _ _ _ Hfail) as E.
      change (3 + 0)%nat with 3%nat in E. rewrite E. reflexivity.
    + intros msg Hk Hret Hrl.
      replace 3%nat with (k + S (2 - k))%nat by lia.
      rewrite (openai_attempts_limited k _ _ _ _ Hfail).
      cbn [openai_attempts]. unfold mbind, M_bind, call_openai.
      rewrite Hret, Hrl. unfold mret, M_ret. by rewrite <- app_assoc.
    + intros text Hk Hret.
      replace 3%nat with (k + S (2 - k))%nat by lia.
      rewrite (openai_attempts_limited k _ _ _ _ Hfail).
      cbn [openai_attempts]. unfold mbind, M_bind, call_openai.
      rewrite Hret. unfold mret, M_ret. by rewrite <- app_assoc.
Qed.

End Retries.

Lemma extract_gemini_output_budget_guard_witness :
  tokens_by_length (lit "hello") = inr 5%Z
  /\ (1050 - 5 - 100 < 1000)%Z
  /\ extract_gemini_output 1050 tokens_by_length gemini_unavailable
       (lit "hello") []
     = (inr (lit "Error: Input too large."), []).
Proof.
  split_and!; [reflexivity | lia |].
  apply (extract_gemini_output_budget_guard 1050 tokens_by_length
           gemini_unavailable (lit "hello") 5 []); [reflexivity | lia].
Defined.

Lemma retry_policies_witness :
  extract_gemini_output 2000000 tokens_by_length gemini_unavailable
    (lit "hello") []
  = (inr (lit "Error: Failed after 5 attempts."),
     rounds 5 (gemini_round (lit "hello") 500000))
  /\ extract_openai_output openai_rejects (lit "instructions") (lit "T")
       (lit "D") []
     = (inr ERROR,
        [OpenAICall (lit "instructions")
           (lit "Extract the required legal data from T:"
              ++ [NEWLINE; NEWLINE] ++ lit "D")]).
Proof.
  destruct (retry_policies 2000000 tokens_by_length gemini_unavailable
              openai_rejects (lit "hello") (lit "instructions") (lit "T")
              (lit "D") 5 []) as [HA HB].
  split.
  - destruct (HA eq_refl ltac:(lia) 5%nat) as [H5 _].
    + intros j _. by eexists.
    + exact (H5 eq_refl).
  - destruct (HB 0%nat) as (_ & Hfatal & _).
    + intros j Hj. lia.
    + exact (Hfatal (lit "401 invalid api key") ltac:(lia) eq_refl eq_refl).
Defined.

(** C6, as stated, fails: after five failed calls the extraction returns
    the text [Error: Failed after 5 attempts.], which has no markers and so
    becomes one field with that text; the case's field vector then holds
    that text once per prompt and is filled up with [NA].  No field is the
    sentinel [Error]. *)
Lemma exhausted_retries_fields_are_not_error :
  let failed := lit "Error: Failed after 5 attempts." in
  let r :=
    process_case 2000000 tokens_by_length gemini_unavailable openai_rejects
      [id; id] (lit "instructions") sample_comparison_prompt
      literal_eval_bools (lit "T") (lit "D") [] in
  exists res w,
    r = (inr res, w)
    /\ all_fields res = [failed; failed] ++ replicate 11 NA
    /\ ~ Forall (fun f => f = ERROR) (all_fields res).
Proof.
  cbv zeta. eexists _, _. split; [vm_compute; reflexivity|].
  split; [reflexivity|].
  intros H. apply Forall_cons in H as [H _]. vm_compute in H. discriminate.
Qed.

(** ** Reconciliation fallback *)

Section Reconcile.

Variable token_limit : Z.
Variable count_tokens : str -> result Z.
Variable gemini_api : list event -> str -> Z -> outcome.
Variable extraction_prompt : list str -> list str -> str.
Variable literal_eval : str -> result pyvalue.

(** C5, as amended.  When the response to the comparison request cannot be
    decoded at all, that is [ast.literal_eval] raises on it, the result is
    a list as long as the first input whose elements are all [True]. *)
Theorem compare_llm_output_fallback (output_1 output_2 : list str)
    (w w' : list event) (response : str) (e : exn) :
  extract_gemini_output token_limit count_tokens gemini_api
    (extraction_prompt output_1 output_2) w = (inr response, w') ->
  literal_eval response = inl e ->
  compare_llm_output token_limit count_tokens gemini_api extraction_prompt
    literal_eval output_1 output_2 w
  = (inr (PyList (replicate (length output_1) (PyBool true))), w').
Proof.
  intros Hr He. unfold compare_llm_output, mbind, M_bind.
  rewrite Hr. unfold mret, M_ret. by rewrite He.
Qed.

(** Whatever does decode is returned as it is. *)
Lemma compare_llm_output_decoded output_1 output_2 w w' response v :
  extract_gemini_output token_limit count_tokens gemini_api
    (extraction_prompt output_1 output_2) w = (inr response, w') ->
  literal_eval response = inr v ->
  compare_llm_output token_limit count_tokens gemini_api extraction_prompt
    literal_eval output_1 output_2 w
  = (inr v, w').
Proof.
  intros Hr He. unfold compare_llm_output, mbind, M_bind.
  rewrite Hr. unfold mret, M_ret. by rewrite He.
Qed.

End Reconcile.

Lemma compare_llm_output_fallback_witness :
  let api := gemini_says (lit "The lists agree.") in
  let prompt := sample_comparison_prompt [lit "45"] [lit "45"] in
  extract_gemini_output 2000000 tokens_by_length api prompt []
  = (inr (lit "The lists agree."), [GeminiCall prompt 500000])
  /\ literal_eval_bools (lit "The lists agree.") = inl SyntaxError
  /\ compare_llm_output 2000000 tokens_by_length api sample_comparison_prompt
       literal_eval_bools [lit "45"] [lit "45"] []
     = (inr (PyList [PyBool true]), [GeminiCall prompt 500000]).
Proof.
  cbv zeta. split_and!; [reflexivity | reflexivity |].
  apply (compare_llm_output_fallback 2000000 tokens_by_length
           (gemini_says (lit "The lists agree.")) sample_comparison_prompt
           literal_eval_bools [lit "45"] [lit "45"] [] _
           (lit "The lists agree.") SyntaxError); reflexivity.
Defined.

(** C5, as stated, fails: the response [[False]] decodes, but not to a
    list of the expected length four; it is returned as it is and not
    replaced by four times [True]. *)
Lemma compare_llm_output_wrong_length_not_replaced :
  let four := [lit "Dual"; lit "45"; lit "55"; lit "Plus 10"] in
  fst (compare_llm_output 2000000 tokens_by_length (gemini_says (lit "[False]"))
         sample_comparison_prompt literal_eval_bools four four [])
  = inr (PyList [PyBool false])
  /\ PyList [PyBool false] <> PyList (replicate (length four) (PyBool true)).
Proof. cbv zeta. split; [vm_compute; reflexivity | discriminate]. Qed.

(** ** Field counts *)

Lemma length_pad_to {A} n (x : A) l :
  length (pad_to n x l) = Nat.max n (length l).
Proof. unfold pad_to. rewrite length_app, length_replicate. lia. Qed.

Section FieldCounts.

Variable token_limit : Z.
Variable count_tokens : str -> result Z.
Variable gemini_api : list event -> str -> Z -> outcome.
Variable openai_api : list event -> str -> str -> outcome.
Variable gemini_prompt_templates : list (str -> str).
Variable openai_prompt : str.
Variable extraction_prompt : list str -> list str -> str.
Variable literal_eval : str -> result pyvalue.

Lemma gemini_turn_returns case_title case_details idx template w :
  exists ae w',
    gemini_turn token_limit count_tokens gemini_api case_title case_details
      idx template w = (inr ae, w').
Proof.
  unfold gemini_turn, try_M, mbind, M_bind.
  destruct (extract_gemini_case_output _ _ _ _ _ _ w) as [[e|r] w1];
    unfold mret, M_ret; eauto.
Qed.

Lemma gemini_loop_returns case_title case_details templates :
  forall idx acc w,
  exists fe w',
    gemini_loop token_limit count_tokens gemini_api case_title case_details
      idx templates acc w = (inr fe, w')
    /\ (length (fst acc) <= length (fst fe))%nat.
Proof.
  induction templates as [|t rest IH]; intros idx acc w.
  - exists acc, w. by split.
  - cbn [gemini_loop]. unfold mbind, M_bind.
    destruct (gemini_turn_returns case_title case_details idx t w)
      as (ae & w1 & ->).
    destruct (IH (S idx)
                (fst acc ++ prompt_fields (fst ae),
                 snd acc ++ prompt_evidence_lines (snd ae)) w1)
      as (fe & w2 & -> & Hlen).
    exists fe, w2. split; [done|].
    simpl in Hlen. rewrite length_app in Hlen. lia.
Qed.

Lemma openai_fields_returns case_title case_details w :
  exists l w',
    openai_fields openai_api openai_prompt case_title case_details w
    = (inr l, w')
    /\ length l = 4%nat.
Proof.
  unfold openai_fields, try_M, mbind, M_bind.
  destruct (extract_openai_output _ _ _ _ w) as [[e|r] w1];
    unfold mret, M_ret.
  - eauto.
  - case_bool_decide; [eauto|].
    eexists _, _. split; [done|].
    rewrite length_take, length_pad_to. lia.
Qed.



End FieldCounts.


(** ** Choosing the prior snapshot *)

Lemma elem_of_insert_desc x y l : y ∈ insert_desc x l <-> y = x \/ y ∈ l.
Proof.
  induction l as [|z l IH]; simpl.
  - rewrite elem_of_cons. done.
  - destruct (snd z <=? snd x)%Z.
    + rewrite elem_of_cons. done.
    + rewrite !elem_of_cons, IH. tauto.
Qed.

(** The first entry after sorting is an entry with the greatest time. *)
Lemma sort_desc_head l :
  match sort_desc l with
  | [] => l = []
  | x :: _ => x ∈ l /\ Forall (fun y => (snd y <= snd x)%Z) l
  end.
Proof.
  induction l as [|a l IH]; [done|].
  change (sort_desc (a :: l)) with (insert_desc a (sort_desc l)).
  destruct (sort_desc l) as [|x rest].
  - subst l. simpl. split; [left | by repeat constructor].
  - destruct IH as [Hx Hmax]. simpl.
    destruct (Z.leb_spec (snd x) (snd a)).
    + split; [left|]. constructor; [lia|].
      eapply Forall_impl; [exact Hmax|]. simpl. lia.
    + split; [by right|]. constructor; [lia | done].
Qed.

Lemma insert_desc_rename (rename : list N -> list N) x l :
  insert_desc (rename (fst x), snd x) (prod_map rename id <$> l)
  = prod_map rename id <$> insert_desc x l.
Proof.
  destruct x as [m u]. induction l as [|[n t] l IH]; [done|].
  rewrite fmap_cons. cbn [insert_desc prod_map fst snd id].
  destruct (t <=? u)%Z; [done|].
  rewrite fmap_cons. f_equal. exact IH.
Qed.

Lemma sort_desc_rename (rename : list N -> list N) l :
  sort_desc (prod_map rename id <$> l) = prod_map rename id <$> sort_desc l.
Proof.
  induction l as [|[n t] l IH]; [done|].
  change (sort_desc (prod_map rename id <$> (n, t) :: l))
    with (insert_desc (rename n, t) (sort_desc (prod_map rename id <$> l))).
  rewrite IH. exact (insert_desc_rename rename (n, t) _).
Qed.

Lemma elem_of_excel_files dir exclude_path x :
  x ∈ excel_files dir exclude_path
  <-> exists f, f ∈ dir /\ candidate exclude_path f
                /\ x = (name f, mtime f).
Proof.
  unfold excel_files. rewrite list_elem_of_fmap. split.
  - intros (f & -> & Hf). apply list_elem_of_filter in Hf as [Hc Hf]. eauto.
  - intros (f & Hf & Hc & ->). exists f. split; [done|].
    by apply list_elem_of_filter.
Qed.

Lemma excel_files_rename rename dir exclude_path :
  (forall g, g ∈ dir ->
     file_pattern_match (rename (name g)) = file_pattern_match (name g)
     /\ is_excluded exclude_path (rename (name g))
        = is_excluded exclude_path (name g)) ->
  excel_files (rename_file rename <$> dir) exclude_path
  = prod_map rename id <$> excel_files dir exclude_path.
Proof.
  unfold excel_files. induction dir as [|f dir IH]; intros H; [done|].
  rewrite fmap_cons.
  destruct (H f ltac:(left)) as [Hp He].
  assert (forall g, g ∈ dir ->
     file_pattern_match (rename (name g)) = file_pattern_match (name g)
     /\ is_excluded exclude_path (rename (name g))
        = is_excluded exclude_path (name g)) as H'
    by (intros g Hg; apply H; by right).
  specialize (IH H').
  rewrite !filter_cons. simpl. rewrite Hp, He.
  destruct (decide _); [|exact IH].
  rewrite !fmap_cons. simpl. f_equal. exact IH.
Qed.

Lemma find_latest_excel_file_Some dir exclude_path p :
  find_latest_excel_file dir exclude_path = Some p ->
  exists f, f ∈ dir /\ name f = p /\ candidate exclude_path f
    /\ forall g, g ∈ dir -> candidate exclude_path g ->
         (mtime g <= mtime f)%Z.
Proof.
  unfold find_latest_excel_file.
  pose proof (sort_desc_head (excel_files dir exclude_path)) as H.
  destruct (sort_desc (excel_files dir exclude_path)) as [|x rest]; [done|].
  intros [= <-]. destruct H as [Hx Hmax].
  apply elem_of_excel_files in Hx as (f & Hf & Hc & ->).
  exists f. split_and!; [done..|].
  intros g Hg Hcg. rewrite Forall_forall in Hmax.
  apply (Hmax (name g, mtime g)), elem_of_excel_files. eauto.
Qed.

Lemma find_latest_excel_file_None dir exclude_path :
  find_latest_excel_file dir exclude_path = None
  <-> forall g, g ∈ dir -> ~ candidate exclude_path g.
Proof.
  unfold find_latest_excel_file.
  pose proof (sort_desc_head (excel_files dir exclude_path)) as H.
  destruct (sort_desc (excel_files dir exclude_path)) as [|x rest].
  - split; [|done]. intros _ g Hg Hc.
    assert ((name g, mtime g) ∈ excel_files dir exclude_path) as Hin
      by (apply elem_of_excel_files; eauto).
    rewrite H in Hin. by apply elem_of_nil in Hin.
  - split; [done|]. intros Hno. destruct H as [Hx _].
    apply elem_of_excel_files in Hx as (f & Hf & Hc & _).
    by destruct (Hno f Hf).
Qed.

Lemma find_latest_excel_file_rename rename dir exclude_path :
  (forall g, g ∈ dir ->
     file_pattern_match (rename (name g)) = file_pattern_match (name g)
     /\ is_excluded exclude_path (rename (name g))
        = is_excluded exclude_path (name g)) ->
  find_latest_excel_file (rename_file rename <$> dir) exclude_path
  = rename <$> find_latest_excel_file dir exclude_path.
Proof.
  intros H. unfold find_latest_excel_file.
  rewrite (excel_files_rename _ _ _ H), sort_desc_rename.
  by destruct (sort_desc (excel_files dir exclude_path)) as [|[] ?].
Qed.

(** ** The loop over the new cases *)

Section MergeFacts.

Variable clean_and_encode_text : list N -> result (list N).
Variable llm_results : gmap (list N) case_results.

Lemma foldl_process_one (existing_cases : gset (list N)) cases : forall st,
  let fresh :=
    filter (fun c => strip (unique_title c) ∉ existing_cases) cases in
  let st' := foldl (process_one clean_and_encode_text llm_results
                      existing_cases) st cases in
  sheet st' = sheet st ++ (new_row clean_and_encode_text llm_results <$> fresh)
  /\ new_case_count st' = (new_case_count st + length fresh)%nat.
Proof.
  induction cases as [|c cases IH]; intros st; simpl.
  - rewrite app_nil_r. split; [done | lia].
  - destruct (IH (process_one clean_and_encode_text llm_results
                    existing_cases st c)) as [Hs Hn].
    simpl in Hs, Hn. rewrite Hs, Hn. rewrite filter_cons.
    unfold process_one. case_bool_decide as Hin.
    + destruct (decide _) as [Hd|_]; [done|]. done.
    + destruct (decide _) as [_|Hd]; [|done]. simpl.
      rewrite <- app_assoc. split; [done | lia].
Qed.

Lemma foldl_process_one_all_known (existing_cases : gset (list N)) cases st :
  Forall (fun c => strip (unique_title c) ∈ existing_cases) cases ->
  foldl (process_one clean_and_encode_text llm_results existing_cases)
    st cases = st.
Proof.
  induction 1 as [|c cases Hc _ IH]; [done|]. simpl.
  unfold process_one at 2. rewrite bool_decide_eq_true_2 by done. exact IH.
Qed.

End MergeFacts.

(** ** Files *)

Lemma find_write_file_eq f dir :
  List.find (fun g => bool_decide (name g = name f)) (write_file f dir)
  = Some f.
Proof.
  induction dir as [|g dir IH]; simpl.
  - by rewrite bool_decide_eq_true_2.
  - case_bool_decide as Hg; simpl.
    + by rewrite bool_decide_eq_true_2.
    + by rewrite bool_decide_eq_false_2.
Qed.

Lemma find_write_file_ne f dir p :
  name f <> p ->
  List.find (fun g => bool_decide (name g = p)) (write_file f dir)
  = List.find (fun g => bool_decide (name g = p)) dir.
Proof.
  intros Hne. induction dir as [|g dir IH]; simpl.
  - by rewrite bool_decide_eq_false_2.
  - case_bool_decide as Hg; simpl.
    + rewrite bool_decide_eq_false_2 by done.
      rewrite bool_decide_eq_false_2 by congruence. done.
    + by rewrite IH.
Qed.

Lemma load_workbook_written f dir ws :
  content f = Some ws -> load_workbook (write_file f dir) (name f) = inr ws.
Proof.
  intros Hc. unfold load_workbook. by rewrite find_write_file_eq, Hc.
Qed.

Lemma load_workbook_other f dir p :
  name f <> p -> load_workbook (write_file f dir) p = load_workbook dir p.
Proof.
  intros Hne. unfold load_workbook. by rewrite find_write_file_ne.
Qed.

Lemma filter_all {A} (P : A -> Prop) `{forall x, Decision (P x)} (l : list A) :
  Forall P l -> filter P l = l.
Proof.
  induction 1 as [|x l Hx _ IH]; [done|].
  rewrite filter_cons_True by done. by f_equal.
Qed.

Section RunFacts.

Variable clean_and_encode_text : list N -> result (list N).
Variable today_file : list N.
Variable now : Z.
Variable dir : list file.
Variable cases : list Case.
Variable llm_results : gmap (list N) case_results.

Let r : run :=
  process_and_save_cases clean_and_encode_text today_file now dir cases
    llm_results.
Let listing : list file :=
  snd (create_excel_with_headers today_file now dir).

(** The shape of every saved snapshot: the header, the rows of the cases
    whose keys are not among the existing ones, in the order of the input,
    then the rows carried over from the source sheet, if there is one. *)
Lemma run_snapshot :
  let fresh := filter (fun c => strip (unique_title c) ∉ existing r) cases in
  snapshot r
  = new_workbook
      ++ (new_row clean_and_encode_text llm_results <$> fresh)
      ++ from_option carried_rows [] (source r)
  /\ added r = length fresh.
Proof.
  subst r. unfold process_and_save_cases. cbv zeta. cbn [snapshot added
    existing source].
  set (E := fst (load_prior _ _ _)). set (S := snd (load_prior _ _ _)).
  destruct (foldl_process_one clean_and_encode_text llm_results E cases
              {| sheet := new_workbook; new_case_count := 0;
                 checkpoints := [] |}) as [Hs Hn].
  cbv zeta in Hs, Hn. cbn [sheet new_case_count] in Hs, Hn.
  change (fst (fst (create_excel_with_headers today_file now dir)))
    with new_workbook.
  split; [|by rewrite Hn].
  destruct S; cbn [from_option]; rewrite Hs.
  - by rewrite <- app_assoc.
  - by rewrite app_nil_r.
Qed.

Lemma run_prior :
  prior r = find_latest_excel_file listing (Some today_file).
Proof. reflexivity. Qed.

Lemma run_loaded :
  (existing r, source r) = load_prior listing today_file (prior r).
Proof. subst r. unfold process_and_save_cases. cbv zeta. simpl. by destruct load_prior. Qed.

Lemma run_archive :
  archive r
  = write_file {| name := today_file; mtime := now;
                  content := Some (snapshot r) |} listing.
Proof. reflexivity. Qed.

(** The prior, when there is one, is a file of the folder other than the
    one just created, and what was loaded from it. *)
Lemma run_source P :
  source r = Some P ->
  exists p, prior r = Some p /\ p <> [] /\ p <> today_file
    /\ load_workbook listing p = inr P
    /\ existing r = try_except (sheet_cases P) (fun _ => ∅).
Proof.
  intros HP. pose proof run_loaded as HL. rewrite HP in HL.
  unfold load_prior in HL. destruct (prior r) as [p|]; [|done].
  exists p. split; [done|].
  destruct (decide (p = [])) as [->|Hp].
  { rewrite bool_decide_eq_true_2 in HL by done. done. }
  destruct (decide (p = today_file)) as [->|Hq].
  { rewrite (bool_decide_eq_true_2 (today_file = today_file)) in HL by done.
    rewrite andb_false_r in HL. done. }
  rewrite !bool_decide_eq_false_2 in HL by done. simpl in HL.
  injection HL as HE HS.
  unfold load_existing_cases, read_existing_cases in HE.
  destruct (load_workbook listing p) as [e|src]; [done|].
  injection HS as <-. by split_and!.
Qed.

Lemma run_no_prior :
  prior r = None -> existing r = ∅ /\ source r = None.
Proof.
  intros Hp.
  change (fst (load_prior listing today_file (prior r)) = ∅
          /\ snd (load_prior listing today_file (prior r)) = None).
  by rewrite Hp.
Qed.

Lemma run_unreadable p e :
  prior r = Some p -> read_existing_cases listing p = inl e ->
  existing r = ∅.
Proof.
  intros Hp He.
  change (fst (load_prior listing today_file (prior r)) = ∅).
  rewrite Hp. unfold load_prior. destruct (_ && _); [|done].
  cbn [fst]. unfold load_existing_cases. by rewrite He.
Qed.

End RunFacts.

Section PriorSelection.

Variable clean_and_encode_text : list N -> result (list N).
Variable today_file : list N.
Variable now : Z.
Variable dir : list file.
Variable cases : list Case.
Variable llm_results : gmap (list N) case_results.

(** C9.  The prior snapshot of a run is chosen among the files of the
    archive folder, as it is once the file of the current run has been
    created, whose name matches the pattern and which are not the file of
    the current run:
    - when there is such a file, one is chosen; the chosen file is one
      of them, and none of them has a greater modification time;
    - the choice looks at the names only for the pattern and for the
      exclusion: renaming the files in any way that keeps both renames the
      choice, so the date in a name plays no part;
    - when there is no such file, the run has no existing keys and no
      source sheet, and writes one row for every case and nothing else. *)
Theorem prior_snapshot_selection :
  let r :=
    process_and_save_cases clean_and_encode_text today_file now dir cases
      llm_results in
  let listing := snd (create_excel_with_headers today_file now dir) in
  (forall p, prior r = Some p ->
     exists f, f ∈ listing /\ name f = p
       /\ file_pattern_match p = true
       /\ (today_file <> [] -> p <> today_file)
       /\ forall g, g ∈ listing -> candidate (Some today_file) g ->
            (mtime g <= mtime f)%Z)
  /\ (forall g, g ∈ listing -> candidate (Some today_file) g ->
        exists p, prior r = Some p)
  /\ (forall rename,
        (forall g, g ∈ listing ->
           file_pattern_match (rename (name g)) = file_pattern_match (name g)
           /\ is_excluded (Some today_file) (rename (name g))
              = is_excluded (Some today_file) (name g)) ->
        find_latest_excel_file (rename_file rename <$> listing)
          (Some today_file)
        = rename <$> prior r)
  /\ ((forall g, g ∈ listing -> ~ candidate (Some today_file) g) ->
      prior r = None /\ existing r = ∅ /\ source r = None
      /\ snapshot r
         = new_workbook ++ (new_row clean_and_encode_text llm_results <$> cases)
      /\ added r = length cases).
Proof.
  intros r listing. split_and!.
  - intros p Hp.
    apply find_latest_excel_file_Some in Hp as (f & Hf & <- & [Hm He] & Hmax).
    exists f. split_and!; [done.. | | done].
    intros Ht Heq. unfold is_excluded in He.
    rewrite (bool_decide_eq_false_2 (today_file = [])) in He by done.
    rewrite bool_decide_eq_true_2 in He by done. done.
  - intros g Hg Hc. destruct (prior r) as [p|] eqn:Hp; [by exists p|].
    change (find_latest_excel_file listing (Some today_file) = None) in Hp.
    rewrite find_latest_excel_file_None in Hp. by destruct (Hp g Hg).
  - intros rename H. by apply find_latest_excel_file_rename.
  - intros Hno.
    assert (prior r = None) as Hp
      by (by apply (find_latest_excel_file_None listing (Some today_file))).
    destruct (run_no_prior clean_and_encode_text today_file now dir cases
                llm_results Hp) as [HE HS].
    destruct (run_snapshot clean_and_encode_text today_file now dir cases
                llm_results) as [Hsnap Hadd].
    subst r listing. rewrite HE, HS in Hsnap. rewrite HE in Hadd.
    cbn [from_option] in Hsnap. rewrite app_nil_r in Hsnap.
    rewrite filter_all in Hsnap, Hadd
      by (apply Forall_forall; intros c _; apply not_elem_of_empty).
    by split_and!.
Qed.

(** C10.  When reading the keys of the prior snapshot fails (the file
    cannot be loaded, or a key cell holds something that cannot be
    stripped), the set of existing keys is empty, whatever keys had been
    read before the failure, and the run goes on: no case is skipped, each
    gets its row, in order, right after the header. *)
Theorem unreadable_prior_means_no_dedup (p : list N) (e : exn) :
  let r :=
    process_and_save_cases clean_and_encode_text today_file now dir cases
      llm_results in
  let listing := snd (create_excel_with_headers today_file now dir) in
  prior r = Some p ->
  read_existing_cases listing p = inl e ->
  existing r = ∅
  /\ added r = length cases
  /\ snapshot r
     = new_workbook ++ (new_row clean_and_encode_text llm_results <$> cases)
         ++ from_option carried_rows [] (source r).
Proof.
  intros r listing Hp He.
  pose proof (run_unreadable clean_and_encode_text today_file now dir cases
                llm_results p e Hp He) as HE.
  destruct (run_snapshot clean_and_encode_text today_file now dir cases
              llm_results) as [Hsnap Hadd].
  subst r listing. rewrite HE in Hsnap, Hadd.
  rewrite filter_all in Hsnap, Hadd
    by (apply Forall_forall; intros c _; apply not_elem_of_empty).
  by split_and!.
Qed.

End PriorSelection.

Lemma prior_snapshot_selection_witness :
  let r := process_and_save_cases encode_snippet day2 200 sample_folder [case_a] ∅ in
  let listing := snd (create_excel_with_headers day2 200 sample_folder) in
  prior r = Some (lit "01_01_2024.xlsx")
  /\ exists f, f ∈ listing /\ name f = lit "01_01_2024.xlsx"
       /\ file_pattern_match (lit "01_01_2024.xlsx") = true
       /\ (day2 <> [] -> lit "01_01_2024.xlsx" <> day2)
       /\ forall g, g ∈ listing -> candidate (Some day2) g ->
            (mtime g <= mtime f)%Z.
Proof.
  intros r listing.
  assert (prior r = Some (lit "01_01_2024.xlsx")) as Hp
    by (vm_compute; reflexivity).
  split; [exact Hp|].
  destruct (prior_snapshot_selection encode_snippet day2 200 sample_folder [case_a] ∅)
    as (H & _).
  exact (H _ Hp).
Defined.

Lemma unreadable_prior_means_no_dedup_witness :
  let r := process_and_save_cases encode_snippet day2 200 folder_with_number [case_a] ∅ in
  let listing := snd (create_excel_with_headers day2 200 folder_with_number) in
  prior r = Some day1
  /\ read_existing_cases listing day1 = inl AttributeError
  /\ existing r = ∅
  /\ added r = 1%nat
  /\ snapshot r
     = new_workbook ++ (new_row encode_snippet ∅ <$> [case_a])
         ++ from_option carried_rows [] (source r).
Proof.
  intros r listing.
  assert (prior r = Some day1) as Hp by (vm_compute; reflexivity).
  assert (read_existing_cases listing day1 = inl AttributeError) as He
    by (vm_compute; reflexivity).
  split; [exact Hp|]. split; [exact He|].
  exact (unreadable_prior_means_no_dedup encode_snippet day2 200 folder_with_number
           [case_a] ∅ day1 AttributeError Hp He).
Defined.

(** ** Carried-forward rows *)

Lemma max_column_ge (ws : list (list cell)) row :
  row ∈ ws -> (length row <= max_column ws)%nat.
Proof.
  induction ws as [|r ws IH]; [by intros ?%elem_of_nil|].
  intros [->|H]%elem_of_cons; simpl; [lia|].
  specialize (IH H). lia.
Qed.

Lemma data_rows_subseteq (ws : list (list cell)) row :
  row ∈ data_rows ws -> row ∈ ws.
Proof. destruct ws; [done|]. simpl. by right. Qed.

Lemma cell_at_beyond row col :
  (length row <= col)%nat -> cell_at row col = empty_cell.
Proof. intros H. unfold cell_at. by rewrite lookup_ge_None_2. Qed.

Lemma copy_cell_empty : copy_cell empty_cell = empty_cell.
Proof. reflexivity. Qed.

Lemma cell_at_copy_row width src col :
  cell_at (copy_row width src) col
  = if decide (col < width)%nat then copy_cell (cell_at src col)
    else empty_cell.
Proof.
  unfold copy_row, cell_at at 1. rewrite list_lookup_fmap.
  destruct (decide (col < width)%nat) as [Hlt|Hge].
  - by rewrite lookup_seq_lt.
  - by rewrite lookup_seq_ge by lia.
Qed.

(** Within the width of the header a carried cell is the copy of the
    source cell, also where the source row or sheet is narrower. *)
Lemma cell_at_carried (P : list (list cell)) src col :
  src ∈ data_rows P -> (col < length csv_header)%nat ->
  cell_at (copy_row (copied_columns P) src) col = copy_cell (cell_at src col).
Proof.
  intros Hsrc Hcol. rewrite cell_at_copy_row.
  destruct (decide _) as [|Hge]; [done|].
  rewrite cell_at_beyond; [done|].
  apply data_rows_subseteq, max_column_ge in Hsrc.
  unfold copied_columns in Hge. lia.
Qed.

(** What the copy of a cell keeps. *)
Lemma copy_cell_keeps (src : cell) :
  hyperlink (copy_cell src) = hyperlink src
  /\ comment (copy_cell src) = comment src
  /\ (value src <> VNone \/ hyperlink src = None ->
      value (copy_cell src) = value src)
  /\ (hyperlink src = None ->
      font (cstyle (copy_cell src)) = font (cstyle src)
      /\ fill (cstyle (copy_cell src)) = fill (cstyle src)
      /\ border (cstyle (copy_cell src)) = border (cstyle src)
      /\ number_format (cstyle (copy_cell src)) = number_format (cstyle src)
      /\ protection (cstyle (copy_cell src)) = protection (cstyle src)
      /\ alignment (cstyle (copy_cell src)) = alignment (cstyle src)).
Proof.
  destruct src as [v st h c]. unfold copy_cell, has_style.
  cbn [value cstyle hyperlink comment plain_cell].
  case_bool_decide as Hs; destruct h as [h|], c as [[t au]|]; simpl;
    (split_and!;
     [ done | done
     | intros [Hv|Hh]; [by destruct v | done]
     | intros Hh; try done; by rewrite ?Hs ]).
Qed.

(** The keys that the key loop reads. *)

Lemma contributes_skip col row rows k :
  (forall s, value (cell_at row col) = VStr s -> s = []) ->
  contributes col (row :: rows) k <-> contributes col rows k.
Proof.
  intros Hskip. split; intros (r' & s & Hin & Hs & Hne & ->).
  - apply elem_of_cons in Hin as [->|Hin].
    + by destruct (Hne (Hskip s Hs)).
    + by exists r', s.
  - exists r', s. split_and!; [by right | done..].
Qed.

Lemma contributes_add col row rows k s :
  value (cell_at row col) = VStr s -> s <> [] ->
  contributes col (row :: rows) k <-> k = strip s \/ contributes col rows k.
Proof.
  intros Hs Hne. split.
  - intros (r' & s' & Hin & Hs' & Hne' & ->).
    apply elem_of_cons in Hin as [->|Hin].
    + left. congruence.
    + right. by exists r', s'.
  - intros [->|(r' & s' & Hin & Hs' & Hne' & ->)].
    + exists row, s. split_and!; [by left | done..].
    + exists r', s'. split_and!; [by right | done..].
Qed.

Lemma collect_cases_readable col rows : forall acc,
  Forall (fun row => key_readable (value (cell_at row col)) = true) rows ->
  exists E,
    collect_cases col rows acc = inr E
    /\ forall k, k ∈ E <-> k ∈ acc \/ contributes col rows k.
Proof.
  induction rows as [|row rows IH]; intros acc Hr.
  - exists acc. split; [done|]. intros k. split; [by left|].
    intros [?|(row & s & []%elem_of_nil & _)]. done.
  - apply Forall_cons in Hr as [Hrow Hrows]. cbn [collect_cases].
    destruct (value_truthy (value (cell_at row col))) eqn:Ht.
    + destruct (value (cell_at row col)) as [|s|z|b] eqn:Hv;
        simpl in Hrow, Ht; try discriminate;
        try (rewrite Ht in Hrow; discriminate).
      apply negb_true_iff, bool_decide_eq_false in Ht. cbn [strip_value rbind].
      destruct (IH ({[strip s]} ∪ acc) Hrows) as (E & -> & HE).
      exists E. split; [done|]. intros k.
      rewrite HE, elem_of_union, elem_of_singleton.
      rewrite (contributes_add col row rows k s Hv Ht). tauto.
    + destruct (IH acc Hrows) as (E & -> & HE).
      exists E. split; [done|]. intros k. rewrite HE.
      rewrite contributes_skip; [done|].
      intros s Hs. rewrite Hs in Ht. simpl in Ht.
      by apply negb_false_iff, bool_decide_eq_true in Ht.
Qed.


Section Ordering.

Variable clean_and_encode_text : list N -> result (list N).
Variable today_file : list N.
Variable now : Z.
Variable dir : list file.
Variable cases : list Case.
Variable llm_results : gmap (list N) case_results.


End Ordering.



(** ** Reading the keys back *)

Lemma unique_name_col_new_workbook (rest : list (list cell)) :
  unique_name_col (new_workbook ++ rest) = 1%nat.
Proof. reflexivity. Qed.

Lemma copy_cell_key_readable (src : cell) :
  key_readable (value src) = true ->
  key_readable (value (copy_cell src)) = true.
Proof.
  destruct src as [v st h c]. unfold copy_cell, has_style.
  cbn [value cstyle hyperlink comment plain_cell].
  case_bool_decide; destruct h, c as [[]|], v; simpl; done.
Qed.

Section NewRows.

Variable clean_and_encode_text : list N -> result (list N).
Variable llm_results : gmap (list N) case_results.

Lemma mark_mismatches_second gpt gemini flags : forall i row,
  mark_mismatches gpt gemini i flags row !! 1%nat = row !! 1%nat.
Proof.
  induction flags as [|m flags IH]; intros i row; [done|].
  cbn [mark_mismatches]. rewrite IH.
  destruct (column_map i) as [col|] eqn:Hc; [|done].
  destruct m; [|done]. apply list_lookup_alter_ne.
  destruct i as [|[|[|[|i]]]]; simpl in Hc; try done;
    injection Hc as <-; lia.
Qed.

(** The second cell of a new row holds the case's key. *)
Lemma new_row_key (c : Case) :
  value (cell_at (new_row clean_and_encode_text llm_results c) 1)
  = VStr (unique_title c).
Proof.
  unfold new_row, cell_at.
  destruct (mismatch_flags _) as [e|flags]; simpl; [done|].
  by rewrite mark_mismatches_second.
Qed.

End NewRows.

(** ** A second run over the snapshot of the first *)

Section SecondRun.

Variable clean_and_encode_text : list N -> result (list N).
Variable llm_results : gmap (list N) case_results.
Variable cases : list Case.

Lemma run_all_known today_file now dir :
  let r :=
    process_and_save_cases clean_and_encode_text today_file now dir cases
      llm_results in
  Forall (fun c => strip (unique_title c) ∈ existing r) cases ->
  added r = 0%nat /\ saved_at r = []
  /\ snapshot r = new_workbook ++ from_option carried_rows [] (source r).
Proof.
  intros r Hall. subst r. unfold process_and_save_cases in *.
  cbv zeta in *. cbn [added saved_at snapshot source existing] in *.
  rewrite (foldl_process_one_all_known _ _ _ _ _ Hall).
  cbn [sheet new_case_count checkpoints].
  change (fst (fst (create_excel_with_headers today_file now dir)))
    with new_workbook.
  split_and!; [done | done |].
  destruct (snd (load_prior _ _ _)); [done|]. by rewrite app_nil_r.
Qed.

Lemma run_existing_source today_file now dir k :
  let r :=
    process_and_save_cases clean_and_encode_text today_file now dir cases
      llm_results in
  k ∈ existing r -> exists P, source r = Some P.
Proof.
  intros r Hk.
  set (L := snd (create_excel_with_headers today_file now dir)).
  change (k ∈ fst (load_prior L today_file (prior r))) in Hk.
  change (exists P, snd (load_prior L today_file (prior r)) = Some P).
  unfold load_prior in *.
  destruct (prior r) as [p|]; [|by apply elem_of_empty in Hk].
  destruct (_ && _); [|by apply elem_of_empty in Hk].
  cbn [fst snd] in *. unfold load_existing_cases, read_existing_cases in Hk.
  destruct (load_workbook L p); [by apply elem_of_empty in Hk | eauto].
Qed.

(** The keys that can be read back from the snapshot of a run whose own
    prior, if any, had readable keys: all of them, both from the new rows
    and from the carried ones. *)
Lemma snapshot_keys today_file now dir :
  let r :=
    process_and_save_cases clean_and_encode_text today_file now dir cases
      llm_results in
  (forall P, source r = Some P -> keys_readable P = true) ->
  exists E,
    sheet_cases (snapshot r) = inr E
    /\ forall c, c ∈ cases -> unique_title c <> [] ->
         strip (unique_title c) ∈ E.
Proof.
  intros r Hwf.
  destruct (run_snapshot clean_and_encode_text today_file now dir cases
              llm_results) as [Hsnap _].
  fold r in Hsnap. cbv zeta in Hsnap.
  set (fresh := filter (fun c => strip (unique_title c) ∉ existing r) cases)
    in Hsnap.
  set (N1 := new_row clean_and_encode_text llm_results <$> fresh) in Hsnap.
  set (C1 := from_option carried_rows [] (source r)) in Hsnap.
  assert (forall row, row ∈ C1 ->
            exists P src, source r = Some P /\ src ∈ data_rows P
              /\ cell_at row 1 = copy_cell (cell_at src 1)) as HC1.
  { intros row Hrow. subst C1. destruct (source r) as [P|] eqn:HP;
      [|by apply elem_of_nil in Hrow].
    apply list_elem_of_fmap in Hrow as (src & -> & Hsrc).
    exists P, src. split_and!; [done | done |].
    apply cell_at_carried; [done|]. change (length csv_header) with 17%nat.
    lia. }
  assert (forall P src, source r = Some P -> src ∈ data_rows P ->
            key_readable (value (cell_at src 1)) = true) as Hsrc.
  { intros P src HP Hin. specialize (Hwf P HP).
    apply andb_prop in Hwf as [_ Hall].
    rewrite forallb_forall in Hall. apply Hall. by apply list_elem_of_In. }
  assert (Forall (fun row => key_readable (value (cell_at row 1)) = true)
            (N1 ++ C1)) as Hread.
  { apply Forall_app. split; apply Forall_forall; intros row Hrow.
    - apply list_elem_of_fmap in Hrow as (c & -> & _).
      by rewrite new_row_key.
    - destruct (HC1 row Hrow) as (P & src & HP & Hin & ->).
      apply copy_cell_key_readable. by eapply Hsrc. }
  destruct (collect_cases_readable 1 (N1 ++ C1) ∅ Hread) as (E & HE & Hmem).
  exists E. split.
  - unfold sheet_cases. rewrite Hsnap, unique_name_col_new_workbook. exact HE.
  - intros c Hc Hne. apply Hmem. right.
    destruct (decide (strip (unique_title c) ∈ existing r)) as [Hin|Hnin].
    + destruct (run_existing_source today_file now dir _ Hin) as [P HP].
      fold r in HP.
      destruct (run_source clean_and_encode_text today_file now dir cases
                  llm_results P HP) as (p & _ & _ & _ & _ & HEx).
      fold r in HEx. rewrite HEx in Hin.
      pose proof (Hwf P HP) as HwfP.
      apply andb_prop in HwfP as [Hcol _]. apply bool_decide_eq_true in Hcol.
      unfold sheet_cases in Hin. rewrite Hcol in Hin.
      assert (Forall (fun row => key_readable (value (cell_at row 1)) = true)
                (data_rows P)) as HreadP
        by (apply Forall_forall; intros src Hs; by eapply Hsrc).
      destruct (collect_cases_readable 1 (data_rows P) ∅ HreadP)
        as (E1 & HE1 & Hmem1).
      rewrite HE1 in Hin. simpl in Hin. apply Hmem1 in Hin
        as [[]%elem_of_empty|(src & s & Hs & Hv & Hsne & Heq)].
      exists (copy_row (copied_columns P) src), s. split_and!; [| |done|done].
      * apply elem_of_app. right. subst C1. rewrite HP. simpl.
        by apply list_elem_of_fmap_2.
      * rewrite cell_at_carried;
          [|done|change (length csv_header) with 17%nat; lia].
        destruct (copy_cell_keeps (cell_at src 1)) as (_ & _ & Hval & _).
        rewrite Hval; [done|]. left. by rewrite Hv.
    + exists (new_row clean_and_encode_text llm_results c), (unique_title c).
      split_and!; [| apply new_row_key | done | done].
      apply elem_of_app. left. apply list_elem_of_fmap_2.
      by apply list_elem_of_filter.
Qed.

(** C2, as amended.  Let a first run write its snapshot, and let a later run over the
    same cases select that snapshot as its prior.  If every case has a
    non-empty key, and the keys of the first run's own prior, if it had
    one, could be read from its column B, then the second run finds every
    case's key among the existing ones and skips every case: it adds no
    record, advances no counter, saves no checkpoint, and its snapshot is
    the header followed by the rows carried over from the first
    snapshot. *)
Theorem second_run_adds_nothing today1 now1 today2 now2 dir :
  let r1 :=
    process_and_save_cases clean_and_encode_text today1 now1 dir cases
      llm_results in
  let r2 :=
    process_and_save_cases clean_and_encode_text today2 now2 (archive r1)
      cases llm_results in
  Forall (fun c => unique_title c <> []) cases ->
  (forall P, source r1 = Some P -> keys_readable P = true) ->
  prior r2 = Some today1 ->
  source r2 = Some (snapshot r1)
  /\ Forall (fun c => strip (unique_title c) ∈ existing r2) cases
  /\ added r2 = 0%nat
  /\ saved_at r2 = []
  /\ snapshot r2 = new_workbook ++ carried_rows (snapshot r1).
Proof.
  intros r1 r2 Hkeys Hwf Hprior.
  (* the selected file is a snapshot other than today's *)
  pose proof Hprior as Hsel.
  apply find_latest_excel_file_Some in Hsel
    as (f & _ & Hname & [Hpat Hexc] & _).
  rewrite Hname in Hpat, Hexc.
  assert (today1 <> []) as Hne1 by (by intros ->).
  assert (today1 <> today2) as Hne12.
  { intros Heq. unfold is_excluded in Hexc. rewrite <- Heq in Hexc.
    rewrite (bool_decide_eq_false_2 (today1 = [])) in Hexc by done.
    by rewrite bool_decide_eq_true_2 in Hexc. }
  (* what the second run loads from it *)
  set (listing2 := snd (create_excel_with_headers today2 now2 (archive r1))).
  assert (load_workbook listing2 today1 = inr (snapshot r1)) as Hload.
  { subst listing2. unfold create_excel_with_headers. cbn [snd].
    rewrite load_workbook_other by (simpl; congruence).
    apply (load_workbook_written
             {| name := today1; mtime := now1;
                content := Some (snapshot r1) |}). done. }
  pose proof (run_loaded clean_and_encode_text today2 now2 (archive r1) cases
                llm_results) as HL.
  fold r2 listing2 in HL. rewrite Hprior in HL. unfold load_prior in HL.
  rewrite !bool_decide_eq_false_2 in HL by done. cbn [negb andb] in HL.
  unfold load_existing_cases, read_existing_cases in HL.
  rewrite Hload in HL. cbn [rbind] in HL.
  destruct (snapshot_keys today1 now1 dir Hwf) as (E & HE & Hmem).
  fold r1 in HE. rewrite HE in HL. cbn [try_except] in HL.
  assert (existing r2 = E) as HE2 by congruence.
  assert (source r2 = Some (snapshot r1)) as HS2 by congruence.
  assert (Forall (fun c => strip (unique_title c) ∈ existing r2) cases)
    as Hall.
  { rewrite HE2. apply Forall_forall. intros c Hc. apply Hmem; [done|].
    rewrite Forall_forall in Hkeys. by apply Hkeys. }
  destruct (run_all_known today2 now2 (archive r1) Hall)
    as (Hadd & Hsaved & Hsnap).
  fold r2 in Hadd, Hsaved, Hsnap. rewrite HS2 in Hsnap.
  by split_and!.
Qed.

End SecondRun.

(** The side condition on the first run's prior is an invariant of the
    archive: a snapshot written over a prior with readable keys, or over
    none, has readable keys itself. *)
Lemma snapshot_keys_readable clean_and_encode_text today_file now dir cases
    llm_results :
  let r :=
    process_and_save_cases clean_and_encode_text today_file now dir cases
      llm_results in
  (forall P, source r = Some P -> keys_readable P = true) ->
  keys_readable (snapshot r) = true.
Proof.
  intros r Hwf.
  destruct (run_snapshot clean_and_encode_text today_file now dir cases
              llm_results) as [Hsnap _].
  fold r in Hsnap. cbv zeta in Hsnap. rewrite Hsnap.
  unfold keys_readable. rewrite unique_name_col_new_workbook.
  rewrite bool_decide_eq_true_2 by done. cbn [andb].
  apply forallb_forall. intros row Hrow%list_elem_of_In.
  change (data_rows (new_workbook ++ ?l)) with l in Hrow.
  apply elem_of_app in Hrow as [Hrow|Hrow].
  - apply list_elem_of_fmap in Hrow as (c & -> & _). by rewrite new_row_key.
  - destruct (source r) as [P|] eqn:HP; [|by apply elem_of_nil in Hrow].
    apply list_elem_of_fmap in Hrow as (src & -> & Hsrc).
    rewrite cell_at_carried;
      [|done|change (length csv_header) with 17%nat; lia].
    apply copy_cell_key_readable.
    specialize (Hwf P eq_refl). apply andb_prop in Hwf as [_ Hall].
    rewrite forallb_forall in Hall. apply Hall. by apply list_elem_of_In.
Qed.

Lemma second_run_adds_nothing_witness :
  Forall (fun c => unique_title c <> []) [case_a]
  /\ source first_run = None
  /\ prior rerun = Some day1
  /\ source rerun = Some (snapshot first_run)
  /\ Forall (fun c => strip (unique_title c) ∈ existing rerun) [case_a]
  /\ added rerun = 0%nat
  /\ saved_at rerun = []
  /\ snapshot rerun = new_workbook ++ carried_rows (snapshot first_run).
Proof.
  assert (Forall (fun c => unique_title c <> []) [case_a]) as H1
    by (repeat constructor; discriminate).
  assert (source first_run = None) as H2 by (vm_compute; reflexivity).
  assert (prior rerun = Some day1) as H3 by (vm_compute; reflexivity).
  split; [exact H1|]. split; [exact H2|]. split; [exact H3|].
  apply (second_run_adds_nothing encode_snippet fourteen_fields [case_a] day1 100 day2
           200 [] H1).
  - intros P HP. unfold first_run in H2. rewrite H2 in HP. discriminate.
  - exact H3.
Defined.

(** C2, as stated, fails twice.  When a key cell of the first run's prior
    holds a number, the first run carries that cell over, the second run
    cannot read the keys of the first snapshot, and the case is added
    again.  And a case whose key is the empty string is never counted
    among the existing ones, so it is added again as well. *)
Lemma second_run_may_add_again :
  (prior rerun_over_number = Some day2
   /\ source rerun_over_number = Some (snapshot run_over_number)
   /\ added run_over_number = 1%nat
   /\ added rerun_over_number = 1%nat
   /\ snapshot rerun_over_number
      <> new_workbook ++ carried_rows (snapshot run_over_number))
  /\ (prior rerun_without_key = Some day1
      /\ source rerun_without_key = Some (snapshot run_without_key)
      /\ added rerun_without_key = 1%nat).
Proof.
  split_and!; try (vm_compute; reflexivity).
  vm_compute. discriminate.
Qed.

(** * Further properties of the archive manager *)

(** ** Periodic saves *)

Lemma checkpoint_counts_S n :
  checkpoint_counts (S n)
  = if (S n mod 5 =? 0)%nat then checkpoint_counts n ++ [S n]
    else checkpoint_counts n.
Proof.
  unfold checkpoint_counts.
  pose proof (Nat.div_mod_eq n 5) as Hn.
  pose proof (Nat.div_mod_eq (S n) 5) as HS.
  pose proof (Nat.mod_upper_bound n 5 ltac:(lia)) as Hn5.
  pose proof (Nat.mod_upper_bound (S n) 5 ltac:(lia)) as HS5.
  destruct (Nat.eqb_spec (S n mod 5) 0) as [H0|H0].
  - assert (S n / 5 = S (n / 5))%nat as -> by lia.
    rewrite seq_S, fmap_app. f_equal.
    change ([(5 * (1 + n / 5))%nat] = [S n]). f_equal. lia.
  - assert (S n / 5 = n / 5)%nat as -> by lia. done.
Qed.

Section Checkpoints.

Variable clean_and_encode_text : list N -> result (list N).
Variable llm_results : gmap (list N) case_results.
Variable existing_cases : gset (list N).

Lemma process_one_checkpoints st c :
  checkpoints st = checkpoint_counts (new_case_count st) ->
  let st' :=
    process_one clean_and_encode_text llm_results existing_cases st c in
  checkpoints st' = checkpoint_counts (new_case_count st').
Proof.
  intros H. unfold process_one. case_bool_decide; [done|].
  cbn [checkpoints new_case_count]. by rewrite checkpoint_counts_S, H.
Qed.

Lemma foldl_process_one_checkpoints cases : forall st,
  checkpoints st = checkpoint_counts (new_case_count st) ->
  let st' :=
    foldl (process_one clean_and_encode_text llm_results existing_cases)
      st cases in
  checkpoints st' = checkpoint_counts (new_case_count st').
Proof.
  induction cases as [|c cases IH]; intros st H; [done|].
  simpl. apply IH. by apply process_one_checkpoints.
Qed.

End Checkpoints.

(** X1.  A run saves its progress exactly when the number of new cases
    written so far is a multiple of five: with [n] new cases in the end,
    the saves happened at 5, 10, ... up to the last multiple of five that
    is at most [n], so fewer than five new rows follow the last save. *)
Theorem progress_saved_every_five clean_and_encode_text today_file now dir
    cases llm_results :
  let r :=
    process_and_save_cases clean_and_encode_text today_file now dir cases
      llm_results in
  saved_at r = (fun k => 5 * k)%nat <$> seq 1 (added r / 5)
  /\ (added r - 5 * length (saved_at r) < 5)%nat.
Proof.
  intros r.
  assert (saved_at r = checkpoint_counts (added r)) as H.
  { subst r. unfold process_and_save_cases. cbv zeta.
    cbn [saved_at added].
    by apply (foldl_process_one_checkpoints clean_and_encode_text
                llm_results). }
  split; [exact H|]. rewrite H. unfold checkpoint_counts.
  rewrite length_fmap, length_seq.
  pose proof (Nat.div_mod_eq (added r) 5).
  pose proof (Nat.mod_upper_bound (added r) 5 ltac:(lia)). lia.
Qed.

(** ** What a run writes to the folder *)

Lemma filter_write_file f dir :
  filter (fun g => name g <> name f) (write_file f dir)
  = filter (fun g => name g <> name f) dir.
Proof.
  induction dir as [|g dir IH]; simpl.
  - by rewrite filter_cons_False by (by intros H; apply H).
  - case_bool_decide as Hg.
    + rewrite !filter_cons_False; [done | by intros H; apply H | by intros H; apply H].
    + rewrite !filter_cons_True by done. by rewrite IH.
Qed.

(** X2.  A run writes one file, the one named after today: afterwards that
    file loads as the new snapshot, and all the other files of the folder
    are as they were, in name, time, content and order. *)
Theorem run_writes_only_todays_file clean_and_encode_text today_file now dir
    cases llm_results :
  let r :=
    process_and_save_cases clean_and_encode_text today_file now dir cases
      llm_results in
  load_workbook (archive r) today_file = inr (snapshot r)
  /\ filter (fun g => name g <> today_file) (archive r)
     = filter (fun g => name g <> today_file) dir
  /\ forall p, p <> today_file ->
       load_workbook (archive r) p = load_workbook dir p.
Proof.
  intros r.
  set (F1 := {| name := today_file; mtime := now;
                content := Some (snapshot r) |}).
  set (F0 := {| name := today_file; mtime := now;
                content := Some new_workbook |}).
  change (archive r) with (write_file F1 (write_file F0 dir)).
  split_and!.
  - by apply (load_workbook_written F1).
  - rewrite (filter_write_file F1). apply (filter_write_file F0).
  - intros p Hp.
    rewrite (load_workbook_other F1) by (simpl; congruence).
    apply (load_workbook_other F0). simpl. congruence.
Qed.

(** ** The row of a new case *)

Lemma fmap_alter_keeps {A B} (g : A -> B) (f : A -> A) (i : nat) (l : list A) :
  (forall x, g (f x) = g x) -> g <$> alter f i l = g <$> l.
Proof.
  intros H. revert i. induction l as [|x l IH]; intros [|i]; simpl; [done..| |].
  - by rewrite H.
  - f_equal. apply IH.
Qed.

Lemma column_map_marker i j :
  column_map i = Some (S j) <-> marker_of j = Some i.
Proof.
  split.
  - destruct i as [|[|[|[|i]]]]; simpl; intros [= <-]; reflexivity.
  - intros H.
    destruct j as [|[|[|[|[|[|[|[|[|[|[|[|[|[|[|j]]]]]]]]]]]]]]];
      simpl in H; try done; injection H as <-; reflexivity.
Qed.

Section NewRowFacts.

Variable clean_and_encode_text : list N -> result (list N).
Variable llm_results : gmap (list N) case_results.

Lemma add_hyperlinks_lookup url all_evidence cells : forall i j,
  add_hyperlinks clean_and_encode_text url all_evidence i cells !! j
  = linked clean_and_encode_text url all_evidence (i + j) <$> cells !! j.
Proof.
  induction cells as [|c cells IH]; intros i j; [done|].
  destruct j as [|j]; cbn [add_hyperlinks].
  - rewrite Nat.add_0_r. reflexivity.
  - change ((?x :: ?l) !! S j) with (l !! j). rewrite IH.
    by replace (S i + j)%nat with (i + S j)%nat by lia.
Qed.

Lemma length_add_hyperlinks url all_evidence cells : forall i,
  length (add_hyperlinks clean_and_encode_text url all_evidence i cells)
  = length cells.
Proof.
  induction cells as [|c cells IH]; intros i; [done|].
  cbn [add_hyperlinks]. simpl. by rewrite IH.
Qed.

Lemma mark_mismatches_other gpt gemini flags j : forall i row,
  (forall i', (i <= i')%nat -> column_map i' <> Some (S j)) ->
  mark_mismatches gpt gemini i flags row !! j = row !! j.
Proof.
  induction flags as [|m flags IH]; intros i row H; [done|].
  cbn [mark_mismatches]. rewrite IH by (intros i' Hi'; apply H; lia).
  destruct (column_map i) as [col|] eqn:Hc; [|done].
  destruct m; [|done]. apply list_lookup_alter_ne.
  intros Heq. apply (H i (le_n _)). rewrite Hc. f_equal.
  destruct i as [|[|[|[|i]]]]; simpl in Hc; try done;
    injection Hc as <-; lia.
Qed.

Lemma mark_mismatches_at gpt gemini flags i0 j :
  column_map i0 = Some (S j) ->
  forall i row, (i <= i0)%nat ->
  mark_mismatches gpt gemini i flags row !! j
  = match flags !! (i0 - i)%nat with
    | Some true => marked gpt gemini i0 <$> row !! j
    | _ => row !! j
    end.
Proof.
  intros Hc0. induction flags as [|m flags IH]; intros i row Hi; [done|].
  cbn [mark_mismatches].
  destruct (decide (i = i0)) as [->|Hne].
  - rewrite Nat.sub_diag. cbn [lookup list_lookup].
    rewrite mark_mismatches_other.
    + rewrite Hc0. destruct m; [|done].
      replace (S j - 1)%nat with j by lia. apply list_lookup_alter_eq.
    + intros i' Hi' Heq. apply column_map_marker in Heq, Hc0.
      rewrite Heq in Hc0. injection Hc0 as ->. lia.
  - rewrite IH by lia.
    replace (i0 - i)%nat with (S (i0 - S i)) by lia.
    cbn [lookup list_lookup].
    assert ((match column_map i with
             | Some col =>
                 if m then
                   alter (fun c =>
                            set_comment
                              (mismatch_comment (field_or_na gpt i)
                                 (field_or_na gemini i))
                              (lit "A2JBot") (set_fill highlight_fill c))
                     (col - 1)%nat row
                 else row
             | None => row
             end) !! j = row !! j) as ->; [|done].
    destruct (column_map i) as [col|] eqn:Hc; [|done].
    destruct m; [|done]. apply list_lookup_alter_ne. intros Heq.
    assert (col = S j) as ->.
    { destruct i as [|[|[|[|i]]]]; simpl in Hc; try done;
        injection Hc as <-; lia. }
    apply column_map_marker in Hc, Hc0. rewrite Hc in Hc0. by injection Hc0.
Qed.

Lemma mark_mismatches_values gpt gemini flags : forall i row,
  value <$> mark_mismatches gpt gemini i flags row = value <$> row.
Proof.
  induction flags as [|m flags IH]; intros i row; [done|].
  cbn [mark_mismatches]. rewrite IH.
  destruct (column_map i); [|done]. destruct m; [|done].
  by apply fmap_alter_keeps.
Qed.

Lemma mark_mismatches_links gpt gemini flags : forall i row,
  hyperlink <$> mark_mismatches gpt gemini i flags row = hyperlink <$> row.
Proof.
  induction flags as [|m flags IH]; intros i row; [done|].
  cbn [mark_mismatches]. rewrite IH.
  destruct (column_map i); [|done]. destruct m; [|done].
  by apply fmap_alter_keeps.
Qed.

(** The row before the mismatch block touches it. *)
Let base_row (c : Case) : list cell :=
  (plain_cell ∘ VStr <$> [title c; unique_title c; citation c; date c])
    ++ add_hyperlinks clean_and_encode_text (url c)
         (all_evidence (results_of llm_results c)) 0
         (plain_cell ∘ VStr
            <$> pad_to 13 NA (all_fields (results_of llm_results c))).

Lemma new_row_cases (c : Case) :
  new_row clean_and_encode_text llm_results c
  = match mismatch_flags (differences (results_of llm_results c)) with
    | inl _ => base_row c
    | inr flags =>
        mark_mismatches (gpt_fields (results_of llm_results c))
          (gemini_fields (results_of llm_results c)) 0 flags (base_row c)
    end.
Proof. unfold new_row. by destruct (mismatch_flags _). Qed.

Lemma base_row_values (c : Case) :
  value <$> base_row c
  = VStr <$> ([title c; unique_title c; citation c; date c]
                ++ pad_to 13 NA (all_fields (results_of llm_results c))).
Proof.
  unfold base_row. rewrite !fmap_app. f_equal.
  apply list_eq. intros j.
  rewrite !list_lookup_fmap, add_hyperlinks_lookup, list_lookup_fmap.
  destruct (pad_to 13 NA _ !! j) as [f|]; [|done]. simpl. f_equal.
  unfold linked. destruct (_ !! _) as [line|], (url c); try done.
  case_bool_decide; [done|]. by destruct (clean_and_encode_text line).
Qed.

Lemma base_row_links (c : Case) j cell :
  base_row c !! j = Some cell ->
  hyperlink cell
  = if decide (j < 4)%nat then None
    else match all_evidence (results_of llm_results c) !! (j - 4)%nat,
               url c with
         | Some evidence_line, Some u =>
             if bool_decide (evidence_line ∈ no_link_evidence) then None
             else
               match clean_and_encode_text evidence_line with
               | inr short_snippet =>
                   Some (u ++ lit "#:~:text=" ++ short_snippet)
               | inl _ => None
               end
         | _, _ => None
         end.
Proof.
  unfold base_row. intros H.
  destruct (decide (j < 4)%nat) as [Hlt|Hge].
  - rewrite lookup_app_l in H by (simpl; lia).
    do 4 (destruct j as [|j]; [by injection H as <-|]). lia.
  - rewrite lookup_app_r in H by (simpl; lia).
    change (length (_ <$> [_; _; _; _])) with 4%nat in H.
    rewrite add_hyperlinks_lookup, list_lookup_fmap in H.
    destruct (pad_to 13 NA _ !! (j - 4)%nat) as [f|]; [|done].
    injection H as <-. unfold linked. simpl.
    destruct (_ !! _) as [line|], (url c); try done.
    case_bool_decide; [done|]. by destruct (clean_and_encode_text line).
Qed.

Lemma base_row_plain (c : Case) j cell :
  base_row c !! j = Some cell ->
  comment cell = None /\ fill (cstyle cell) = 0.
Proof.
  unfold base_row. intros H.
  apply lookup_app_Some in H as [H|[_ H]].
  - do 4 (destruct j as [|j]; [by injection H as <-|]). done.
  - rewrite add_hyperlinks_lookup, list_lookup_fmap in H.
    destruct (pad_to 13 NA _ !! _) as [f|]; [|done].
    injection H as <-. unfold linked.
    destruct (_ !! _) as [line|], (url c); try done.
    case_bool_decide; [done|]. by destruct (clean_and_encode_text line).
Qed.

Lemma length_base_row (c : Case) :
  length (base_row c)
  = (4 + Nat.max 13 (length (all_fields (results_of llm_results c))))%nat.
Proof.
  unfold base_row.
  rewrite length_app, length_add_hyperlinks, !length_fmap, length_pad_to.
  reflexivity.
Qed.

(** X3.  The row written for a new case shows the title, the key, the
    citation and the date, then the answer fields, filled up with [NA] to
    thirteen and never cut, so it has at least 17 cells; the links and the
    mismatch marks added afterwards change no value. *)
Theorem new_row_values (c : Case) :
  let fields := all_fields (results_of llm_results c) in
  value <$> new_row clean_and_encode_text llm_results c
  = VStr <$> ([title c; unique_title c; citation c; date c]
                ++ fields ++ replicate (13 - length fields) NA)
  /\ length (new_row clean_and_encode_text llm_results c)
     = (4 + Nat.max 13 (length fields))%nat.
Proof.
  cbv zeta. rewrite new_row_cases.
  assert (forall row : list cell,
            value <$> row = value <$> base_row c ->
            length row = length (base_row c)) as Hlen.
  { intros row H. apply (f_equal length) in H.
    by rewrite !length_fmap in H. }
  destruct (mismatch_flags _) as [e|flags].
  - split; [apply base_row_values | apply length_base_row].
  - split.
    + rewrite mark_mismatches_values. apply base_row_values.
    + rewrite (Hlen _ (mark_mismatches_values _ _ _ _ _)).
      apply length_base_row.
Qed.

(** X4.  A cell of a new row has a link exactly when it is an answer cell,
    the case has a URL, there is an evidence line at the position of the
    answer that is none of [Not Discussed], [NA] and [Undisclosed], and the
    encoding of that line returns; the target is then the URL, the
    text-fragment marker and the encoded line.  When the encoding raises
    the cell has no link, and the cells after it are treated as usual.
    The four identity cells never have a link. *)
Theorem new_row_links (c : Case) (j : nat) (cell : cell) :
  new_row clean_and_encode_text llm_results c !! j = Some cell ->
  hyperlink cell
  = if decide (j < 4)%nat then None
    else match all_evidence (results_of llm_results c) !! (j - 4)%nat,
               url c with
         | Some evidence_line, Some u =>
             if bool_decide (evidence_line ∈ no_link_evidence) then None
             else
               match clean_and_encode_text evidence_line with
               | inr short_snippet =>
                   Some (u ++ lit "#:~:text=" ++ short_snippet)
               | inl _ => None
               end
         | _, _ => None
         end.
Proof.
  rewrite new_row_cases. intros H.
  assert (exists cell0, base_row c !! j = Some cell0
                        /\ hyperlink cell = hyperlink cell0)
    as (cell0 & H0 & ->).
  { destruct (mismatch_flags _) as [e|flags]; [eauto|].
    pose proof (mark_mismatches_links
                  (gpt_fields (results_of llm_results c))
                  (gemini_fields (results_of llm_results c)) flags 0
                  (base_row c)) as HL.
    apply (f_equal (fun l => l !! j)) in HL.
    rewrite !list_lookup_fmap, H in HL.
    destruct (base_row c !! j) as [cell0|]; [|done].
    exists cell0. split; [done|]. by injection HL. }
  by apply base_row_links.
Qed.

(** X5.  Mismatch marks.  When the differences can be iterated, difference
    [i] (for [i] below four) is shown on the cell of column [column_map i]:
    if it is true, the cell gets the highlight fill and a comment by
    [A2JBot] with the two backends' values at position [i] ([NA] where a
    list is too short), and this is the cell that shows the Backend A
    field compared at position [i]; if it is false or missing, that cell
    has no comment and no fill.  No other cell is ever marked, and when the
    differences cannot be iterated no cell is. *)
Theorem new_row_marks (c : Case) :
  let res := results_of llm_results c in
  let row := new_row clean_and_encode_text llm_results c in
  (forall flags i col cell,
     mismatch_flags (differences res) = inr flags ->
     column_map i = Some col ->
     row !! (col - 1)%nat = Some cell ->
     (forall idx, field_indices !! i = Some idx ->
        (col - 1 = 4 + idx)%nat)
     /\ (flags !! i = Some true ->
         fill (cstyle cell) = highlight_fill
         /\ comment cell
            = Some (mismatch_comment (field_or_na (gpt_fields res) i)
                      (field_or_na (gemini_fields res) i),
                    lit "A2JBot"))
     /\ (flags !! i <> Some true ->
         comment cell = None /\ fill (cstyle cell) = 0))
  /\ (forall j cell,
        row !! j = Some cell ->
        (forall i, column_map i <> Some (S j)) ->
        comment cell = None /\ fill (cstyle cell) = 0)
  /\ (forall e j cell,
        mismatch_flags (differences res) = inl e ->
        row !! j = Some cell ->
        comment cell = None /\ fill (cstyle cell) = 0).
Proof.
  cbv zeta. rewrite new_row_cases. split_and!.
  - intros flags i col cell Hf Hc Hrow. rewrite Hf in Hrow.
    assert (exists j, col = S j) as [j ->]
      by (destruct i as [|[|[|[|i]]]]; simpl in Hc; try done;
          injection Hc as <-; eauto).
    replace (S j - 1)%nat with j in * by lia.
    rewrite (mark_mismatches_at _ _ _ i j Hc) in Hrow by lia.
    rewrite Nat.sub_0_r in Hrow.
    split_and!.
    + intros idx Hidx.
      destruct i as [|[|[|[|i]]]]; simpl in Hc, Hidx; try done;
        injection Hc as <-; injection Hidx as <-; lia.
    + intros Ht. rewrite Ht in Hrow.
      destruct (base_row c !! j) as [cell0|]; [|done].
      by injection Hrow as <-.
    + intros Hnt.
      assert (base_row c !! j = Some cell) as H0
        by (destruct (flags !! i) as [[|]|]; done).
      by apply (base_row_plain c j).
  - intros j cell Hrow Hno.
    apply (base_row_plain c j).
    destruct (mismatch_flags _) as [e|flags]; [done|].
    rewrite mark_mismatches_other in Hrow; [done|]. intros i' _. apply Hno.
  - intros e j cell He Hrow. rewrite He in Hrow. by apply (base_row_plain c j).
Qed.

End NewRowFacts.

Lemma new_row_links_witness :
  (exists cell,
     new_row encode_snippet sample_results case_b !! 4%nat = Some cell
     /\ hyperlink cell
        = Some (lit "https://example.org/b#:~:text=married%20in%202005"))
  /\ (exists cell next,
        new_row encode_snippet results_with_surrogate case_b !! 4%nat
          = Some cell
        /\ hyperlink cell = None
        /\ new_row encode_snippet results_with_surrogate case_b !! 5%nat
           = Some next
        /\ hyperlink next
           = Some (lit "https://example.org/b#:~:text=lived%20apart")).
Proof.
  split.
  - destruct (new_row encode_snippet sample_results case_b !! 4%nat)
      as [cell|] eqn:H; [|by vm_compute in H].
    exists cell. split; [done|].
    rewrite (new_row_links encode_snippet sample_results case_b 4 cell H).
    vm_compute. reflexivity.
  - destruct (new_row encode_snippet results_with_surrogate case_b !! 4%nat)
      as [cell|] eqn:H; [|by vm_compute in H].
    destruct (new_row encode_snippet results_with_surrogate case_b !! 5%nat)
      as [next|] eqn:H'; [|by vm_compute in H'].
    exists cell, next. split_and!; [done | | done |].
    + rewrite (new_row_links encode_snippet results_with_surrogate case_b 4
                 cell H).
      vm_compute. reflexivity.
    + rewrite (new_row_links encode_snippet results_with_surrogate case_b 5
                 next H').
      vm_compute. reflexivity.
Defined.

Lemma new_row_marks_witness :
  exists cell,
    new_row encode_snippet sample_results case_b !! 14%nat = Some cell
    /\ fill (cstyle cell) = highlight_fill
    /\ comment cell
       = Some (lit "Mismatch:" ++ [NEWLINE] ++ lit "GPT: 0" ++ [NEWLINE]
                 ++ lit "Gemini: plus 5",
               lit "A2JBot")
    /\ value cell = VStr (lit "Plus 5").
Proof.
  destruct (new_row encode_snippet sample_results case_b !! 14%nat) as [cell|] eqn:H;
    [|by vm_compute in H].
  exists cell. split; [done|].
  destruct (new_row_marks encode_snippet sample_results case_b) as (Hmark & _ & _).
  destruct (Hmark [true; false; false; true] 3%nat 15%nat cell eq_refl
              eq_refl H) as (_ & Hon & _).
  destruct (Hon eq_refl) as [Hfill Hcomment].
  split_and!; [exact Hfill | exact Hcomment |].
  vm_compute in H. by injection H as <-.
Defined.

(** ** Reading the key column *)

Lemma header_lookup_absent key headers : forall i found,
  key ∉ headers -> header_lookup key headers i found = found.
Proof.
  induction headers as [|h headers IH]; intros i found Hn; [done|].
  apply not_elem_of_cons in Hn as [Hne Hn]. cbn [header_lookup].
  rewrite IH by done.
  rewrite (bool_decide_eq_false_2 (h = key)) by done.
  by rewrite andb_false_r.
Qed.

Lemma header_lookup_last key pre post : forall i found,
  value_truthy key = true -> key ∉ post ->
  header_lookup key (pre ++ key :: post) i found = Some (i + length pre)%nat.
Proof.
  induction pre as [|h pre IH]; intros i found Ht Hn.
  - cbn [app header_lookup]. rewrite header_lookup_absent by done.
    rewrite Ht, bool_decide_eq_true_2 by done. simpl. f_equal. lia.
  - cbn [app header_lookup]. rewrite IH by done. simpl. f_equal. lia.
Qed.

(** X6.  The key column of a prior snapshot is the last column whose
    header is [Unique Name]; when no header cell says so, it is column B,
    whatever that column holds. *)
Theorem key_column_of_header (ws : list (list cell)) :
  (forall pre post,
     value <$> header_row ws = pre ++ VStr (lit "Unique Name") :: post ->
     VStr (lit "Unique Name") ∉ post ->
     unique_name_col ws = length pre)
  /\ (VStr (lit "Unique Name") ∉ value <$> header_row ws ->
      unique_name_col ws = 1%nat).
Proof.
  unfold unique_name_col. split.
  - intros pre post -> Hn. by rewrite header_lookup_last.
  - intros Hn. by rewrite header_lookup_absent.
Qed.

Lemma key_column_of_header_witness :
  unique_name_col sheet_with_two_key_columns = 3%nat
  /\ unique_name_col [plain_cell ∘ VStr <$> [lit "Name"; lit "Key"]] = 1%nat.
Proof.
  split.
  - destruct (key_column_of_header sheet_with_two_key_columns) as [H _].
    assert (value <$> header_row sheet_with_two_key_columns
            = (VStr <$> [lit "Case Name"; lit "Unique Name"; lit "Citation"])
                ++ VStr (lit "Unique Name") :: []) as Heq
      by (vm_compute; reflexivity).
    rewrite (H _ _ Heq (not_elem_of_nil _)). reflexivity.
  - destruct (key_column_of_header
                [plain_cell ∘ VStr <$> [lit "Name"; lit "Key"]]) as [_ H].
    apply H. vm_compute. intros Hin.
    apply elem_of_cons in Hin as [Hin|Hin]; [discriminate|].
    apply elem_of_cons in Hin as [Hin|Hin]; [discriminate|].
    by apply elem_of_nil in Hin.
Defined.

(** X7.  For a prior snapshot that loads and whose key cells are all empty
    or text, the existing keys are exactly the texts of the non-empty key
    cells below the header, each with the white space at its ends removed;
    so every existing key is trimmed. *)
Theorem existing_cases_of_readable_sheet (dir : list file) (path : list N)
    (ws : list (list cell)) :
  load_workbook dir path = inr ws ->
  Forall (fun row =>
            key_readable (value (cell_at row (unique_name_col ws))) = true)
    (data_rows ws) ->
  forall k,
    (k ∈ load_existing_cases dir path
     <-> exists row s,
           row ∈ data_rows ws
           /\ value (cell_at row (unique_name_col ws)) = VStr s
           /\ s <> [] /\ k = strip s)
    /\ (k ∈ load_existing_cases dir path -> strip k = k).
Proof.
  intros Hload Hread k.
  unfold load_existing_cases, read_existing_cases. rewrite Hload.
  cbn [rbind]. unfold sheet_cases.
  destruct (collect_cases_readable (unique_name_col ws) (data_rows ws) ∅
              Hread) as (E & -> & Hmem).
  cbn [try_except].
  assert (k ∈ E <-> contributes (unique_name_col ws) (data_rows ws) k) as Hk.
  { rewrite Hmem. split; [|by right].
    intros [[]%elem_of_empty|H]. done. }
  split; [exact Hk|].
  intros (row & s & _ & _ & _ & ->)%Hk. apply strip_strip.
Qed.

Lemma existing_cases_of_readable_sheet_witness :
  lit "A v B 1 SLR 1" ∈ load_existing_cases folder_with_two_key_columns day1
  /\ lit "old key" ∉ load_existing_cases folder_with_two_key_columns day1.
Proof.
  assert (load_workbook folder_with_two_key_columns day1
          = inr sheet_with_two_key_columns) as Hload by reflexivity.
  assert (Forall (fun row =>
                    key_readable
                      (value (cell_at row
                                (unique_name_col sheet_with_two_key_columns)))
                    = true)
            (data_rows sheet_with_two_key_columns)) as Hread
    by (repeat constructor).
  split.
  - apply (existing_cases_of_readable_sheet _ _ _ Hload Hread).
    eexists _, (lit " A v B 1 SLR 1 ").
    split_and!; [by left | reflexivity | done | by vm_compute].
  - intros Hin.
    apply (existing_cases_of_readable_sheet _ _ _ Hload Hread) in Hin
      as (row & s & Hrow & Hv & _ & Hk).
    apply list_elem_of_singleton in Hrow as ->.
    vm_compute in Hv. injection Hv as <-. vm_compute in Hk. discriminate.
Defined.

(** ** Ties between modification times *)

Lemma sort_desc_first l x rest :
  sort_desc l = x :: rest ->
  exists pre post,
    l = pre ++ x :: post
    /\ Forall (fun y => (snd y < snd x)%Z) pre
    /\ Forall (fun y => (snd y <= snd x)%Z) post.
Proof.
  revert x rest. induction l as [|a l IH]; intros x rest; [done|].
  change (sort_desc (a :: l)) with (insert_desc a (sort_desc l)).
  pose proof (sort_desc_head l) as Hhead.
  destruct (sort_desc l) as [|y rest'] eqn:Hs.
  - subst l. simpl. intros [= <- <-]. exists [], []. by split_and!.
  - destruct (IH y rest' eq_refl) as (pre & post & -> & Hpre & Hpost).
    simpl. destruct (Z.leb_spec (snd y) (snd a)).
    + intros [= <- <-]. exists [], (pre ++ y :: post).
      split_and!; [done | done |].
      apply Forall_app. split.
      * eapply Forall_impl; [exact Hpre|]. simpl. lia.
      * constructor; [lia|]. eapply Forall_impl; [exact Hpost|]. simpl. lia.
    + intros [= <- <-]. exists (a :: pre), post.
      split_and!; [done | by constructor | done].
Qed.

Lemma excel_files_split dir exclude_path l1 x l2 :
  excel_files dir exclude_path = l1 ++ x :: l2 ->
  exists d1 f d2,
    dir = d1 ++ f :: d2 /\ candidate exclude_path f
    /\ x = (name f, mtime f)
    /\ excel_files d1 exclude_path = l1
    /\ excel_files d2 exclude_path = l2.
Proof.
  unfold excel_files. revert l1.
  induction dir as [|g dir IH]; intros l1 H.
  - by destruct l1.
  - rewrite filter_cons in H. destruct (decide _) as [Hc|Hc].
    + rewrite fmap_cons in H. destruct l1 as [|y l1].
      * injection H as <- <-. exists [], g, dir. by split_and!.
      * injection H as <- H.
        destruct (IH l1 H) as (d1 & f & d2 & -> & Hf & Hx & H1 & H2).
        exists (g :: d1), f, d2. split_and!; [done..| |done].
        rewrite filter_cons_True by done. rewrite fmap_cons. by f_equal.
    + destruct (IH l1 H) as (d1 & f & d2 & -> & Hf & Hx & H1 & H2).
      exists (g :: d1), f, d2. split_and!; [done..| |done].
      by rewrite filter_cons_False.
Qed.

(** X8.  Among the files that match the pattern and are not excluded, the
    one chosen as the latest has a modification time strictly greater than
    those listed before it and at least as great as those listed after it:
    of several files with the greatest time, the first in the listing of
    the folder is chosen. *)
Theorem find_latest_excel_file_first_of_ties (dir : list file)
    (exclude_path : option (list N)) (p : list N) :
  find_latest_excel_file dir exclude_path = Some p ->
  exists before f after,
    dir = before ++ f :: after
    /\ name f = p
    /\ candidate exclude_path f
    /\ (forall g, g ∈ before -> candidate exclude_path g ->
          (mtime g < mtime f)%Z)
    /\ (forall g, g ∈ after -> candidate exclude_path g ->
          (mtime g <= mtime f)%Z).
Proof.
  unfold find_latest_excel_file.
  destruct (sort_desc (excel_files dir exclude_path)) as [|x rest] eqn:Hs;
    [done|].
  intros [= <-].
  destruct (sort_desc_first _ _ _ Hs) as (l1 & l2 & Hl & H1 & H2).
  destruct (excel_files_split _ _ _ _ _ Hl)
    as (d1 & f & d2 & -> & Hf & -> & <- & <-).
  exists d1, f, d2. split_and!; [done..| |].
  - intros g Hg Hc. rewrite Forall_forall in H1.
    apply (H1 (name g, mtime g)), elem_of_excel_files. eauto.
  - intros g Hg Hc. rewrite Forall_forall in H2.
    apply (H2 (name g, mtime g)), elem_of_excel_files. eauto.
Qed.

Lemma find_latest_excel_file_first_of_ties_witness :
  find_latest_excel_file folder_with_tie None = Some (lit "03_01_2025.xlsx")
  /\ exists before f after,
       folder_with_tie = before ++ f :: after
       /\ name f = lit "03_01_2025.xlsx"
       /\ candidate None f
       /\ (forall g, g ∈ before -> candidate None g -> (mtime g < mtime f)%Z)
       /\ (forall g, g ∈ after -> candidate None g -> (mtime g <= mtime f)%Z).
Proof.
  assert (find_latest_excel_file folder_with_tie None
          = Some (lit "03_01_2025.xlsx")) as H by (vm_compute; reflexivity).
  split; [exact H|].
  exact (find_latest_excel_file_first_of_ties folder_with_tie None _ H).
Defined.

(** * Further properties of the extraction *)

(** ** Chunking a text *)

Lemma concat_slices {A} (l : list A) (m : nat) : forall n,
  concat ((fun i => take m (drop i l)) <$> ((fun k => k * m)%nat <$> seq 0 n))
  = take (n * m) l.
Proof.
  induction n as [|n IH]; [done|].
  rewrite seq_S, !fmap_app, concat_app, IH. simpl.
  rewrite app_nil_r, take_take_drop. f_equal. lia.
Qed.

Lemma range_step_bounds (n m : nat) :
  (0 < m)%nat ->
  (n <= (n + m - 1) / m * m)%nat
  /\ forall k, (k < (n + m - 1) / m)%nat -> (k * m < n)%nat.
Proof.
  intros Hm.
  pose proof (Nat.div_mod (n + m - 1) m ltac:(lia)) as Hd.
  pose proof (Nat.mod_upper_bound (n + m - 1) m ltac:(lia)) as Hu.
  split; [nia|]. intros k Hk. nia.
Qed.

(** X9.  Chunking.  When the tokenizer accepts the text and the chunk size
    is positive, the chunks are the decoded slices of the token list: the
    slices put end to end give back the token list, there are as many as
    the token count divided by the chunk size, rounded up, none is empty,
    and each but the last has exactly the chunk size.  A chunk size of zero
    is an error, and a negative one gives no chunk at all, whatever the
    text. *)
Theorem chunk_text_slices (encode : str -> result (list Z))
    (decode : list Z -> str) (text : str) (tokens : list Z)
    (max_tokens : Z) :
  encode text = inr tokens ->
  ((0 < max_tokens)%Z ->
   exists chunks,
     chunk_text encode decode text max_tokens = inr (decode <$> chunks)
     /\ concat chunks = tokens
     /\ Z.of_nat (length chunks)
        = ((Z.of_nat (length tokens) + max_tokens - 1) / max_tokens)%Z
     /\ (forall k c, chunks !! k = Some c ->
           (0 < length c)%nat
           /\ (Z.of_nat (length c) <= max_tokens)%Z
           /\ (S k < length chunks -> Z.of_nat (length c) = max_tokens)%nat))
  /\ (max_tokens = 0%Z ->
      chunk_text encode decode text max_tokens = inl ValueError)
  /\ ((max_tokens < 0)%Z ->
      chunk_text encode decode text max_tokens = inr []).
Proof.
  intros He. unfold chunk_text, chunk_tokens. rewrite He. cbn [rbind].
  split_and!.
  - intros Hpos.
    destruct (Z.eqb_spec max_tokens 0) as [|_]; [lia|].
    destruct (Z.ltb_spec max_tokens 0) as [|_]; [lia|].
    cbn [rbind].
    set (m := Z.to_nat max_tokens).
    assert (0 < m)%nat as Hm by (subst m; lia).
    destruct (range_step_bounds (length tokens) m Hm) as [Hall Hlt].
    eexists. split; [reflexivity|]. split_and!.
    + unfold range_step. rewrite concat_slices. by apply take_ge.
    + unfold range_step. rewrite !length_fmap, length_seq.
      rewrite Nat2Z.inj_div, Nat2Z.inj_sub, Nat2Z.inj_add by lia.
      subst m. rewrite Z2Nat.id by lia. done.
    + intros k c Hk. unfold range_step in Hk |- *.
      rewrite !list_lookup_fmap in Hk.
      rewrite !length_fmap, length_seq.
      destruct (seq 0 ((length tokens + m - 1) / m) !! k) as [i|] eqn:Hi;
        [|done].
      apply lookup_seq in Hi as [-> Hi]. simpl in Hk.
      injection Hk as <-.
      rewrite length_take, length_drop.
      pose proof (Hlt k Hi).
      split_and!; [lia|lia|].
      intros Hnext. pose proof (Hlt (S k) Hnext). lia.
  - intros ->. reflexivity.
  - intros Hneg.
    destruct (Z.eqb_spec max_tokens 0) as [|_]; [lia|].
    destruct (Z.ltb_spec max_tokens 0) as [_|]; [|lia].
    reflexivity.
Qed.

Lemma chunk_text_slices_witness :
  chunk_text code_points of_code_points (lit "abcdefg") 0 = inl ValueError
  /\ exists chunks,
       chunk_text code_points of_code_points (lit "abcdefg") 3
         = inr (of_code_points <$> chunks)
       /\ concat chunks = Z.of_N <$> lit "abcdefg"
       /\ Z.of_nat (length chunks) = 3%Z.
Proof.
  split.
  - by apply (chunk_text_slices code_points of_code_points (lit "abcdefg")
                (Z.of_N <$> lit "abcdefg") 0 eq_refl).
  - destruct (chunk_text_slices code_points of_code_points (lit "abcdefg")
                (Z.of_N <$> lit "abcdefg") 3 eq_refl) as [H _].
    destruct (H ltac:(lia)) as (chunks & H1 & H2 & H3 & _).
    exists chunks. split_and!; [exact H1 | exact H2 | exact H3].
Defined.

(** ** How many calls a case costs *)

Lemma count_events_app p t1 t2 :
  count_events p (t1 ++ t2) = (count_events p t1 + count_events p t2)%nat.
Proof. unfold count_events. by rewrite filter_app, length_app. Qed.

Lemma within_nil : within 0 0 [].
Proof. unfold within. split_and!; [done | done | constructor | done]. Qed.

Lemma within_app g1 o1 g2 o2 t1 t2 :
  within g1 o1 t1 -> within g2 o2 t2 ->
  within (g1 + g2) (o1 + o2) (t1 ++ t2).
Proof.
  unfold within, gemini_calls, openai_calls, sleeps.
  intros (Hg1 & Ho1 & Hs1 & Hn1) (Hg2 & Ho2 & Hs2 & Hn2).
  rewrite !count_events_app.
  split_and!; [lia | lia | by apply Forall_app | lia].
Qed.

Lemma within_mono g o g' o' t :
  (g <= g')%nat -> (o <= o')%nat -> within g o t -> within g' o' t.
Proof.
  unfold within. intros Hg Ho (Hg1 & Ho1 & Hs1 & Hn1).
  split_and!; [lia | lia | done | done].
Qed.

Lemma within_gemini_round prompt m :
  within 1 0 [GeminiCall prompt m]
  /\ within 1 0 [GeminiCall prompt m; Sleep 60].
Proof.
  split; (split_and!; [vm_compute; lia | vm_compute; lia | | vm_compute; lia]);
    repeat constructor; intros s; by inversion 1.
Qed.

Lemma within_openai_round instructions input :
  within 0 1 [OpenAICall instructions input]
  /\ within 0 1 [OpenAICall instructions input; Sleep 60].
Proof.
  split; (split_and!; [vm_compute; lia | vm_compute; lia | | vm_compute; lia]);
    repeat constructor; intros s; by inversion 1.
Qed.

Lemma bounded_mono {A} g o g' o' (c : M A) :
  (g <= g')%nat -> (o <= o')%nat -> bounded g o c -> bounded g' o' c.
Proof.
  intros Hg Ho H w. destruct (H w) as (t & Ht & Hw).
  exists t. split; [done|]. by apply (within_mono g o).
Qed.

Lemma bounded_ret {A} (a : A) : bounded 0 0 (mret a : M A).
Proof.
  intros w. exists []. split; [by rewrite app_nil_r | apply within_nil].
Qed.

Lemma bounded_lift {A} (r : result A) : bounded 0 0 (lift r).
Proof.
  intros w. exists []. split; [by rewrite app_nil_r | apply within_nil].
Qed.

Lemma bounded_bind {A B} g1 o1 g2 o2 (c : M A) (f : A -> M B) :
  bounded g1 o1 c -> (forall a, bounded g2 o2 (f a)) ->
  bounded (g1 + g2) (o1 + o2) (c ≫= f).
Proof.
  intros Hc Hf w. unfold mbind, M_bind.
  destruct (Hc w) as (t1 & Ht1 & Hw1).
  destruct (c w) as [[e|a] w1]; simpl in Ht1; subst w1.
  - exists t1. split; [done|].
    apply (within_mono g1 o1); [lia | lia | done].
  - destruct (Hf a (w ++ t1)) as (t2 & Ht2 & Hw2).
    exists (t1 ++ t2). split; [by rewrite Ht2, app_assoc|].
    by apply within_app.
Qed.

Lemma bounded_try {A} g1 o1 g2 o2 (body : M A) (handler : exn -> M A) :
  bounded g1 o1 body -> (forall e, bounded g2 o2 (handler e)) ->
  bounded (g1 + g2) (o1 + o2) (try_M body handler).
Proof.
  intros Hc Hf w. unfold try_M.
  destruct (Hc w) as (t1 & Ht1 & Hw1).
  destruct (body w) as [[e|a] w1]; simpl in Ht1; subst w1.
  - destruct (Hf e (w ++ t1)) as (t2 & Ht2 & Hw2).
    exists (t1 ++ t2). split; [by rewrite Ht2, app_assoc|].
    by apply within_app.
  - exists t1. split; [done|].
    apply (within_mono g1 o1); [lia | lia | done].
Qed.

Section CallBudget.

Variable token_limit : Z.
Variable count_tokens : str -> result Z.
Variable gemini_api : list event -> str -> Z -> outcome.
Variable openai_api : list event -> str -> str -> outcome.
Variable gemini_prompt_templates : list (str -> str).
Variable openai_prompt : str.
Variable extraction_prompt : list str -> list str -> str.
Variable literal_eval : str -> result pyvalue.

Lemma bounded_gemini_attempts prompt m : forall left,
  bounded left 0 (gemini_attempts gemini_api left prompt m).
Proof.
  induction left as [|left IH]; [apply bounded_ret|].
  intros w. cbn [gemini_attempts]. unfold mbind, M_bind, call_gemini at 1.
  destruct (within_gemini_round prompt m) as [H1 H2].
  destruct (gemini_api w prompt m) as [text|msg].
  - exists [GeminiCall prompt m]. split; [done|].
    apply (within_mono 1 0); [lia | lia | done].
  - unfold sleep, emit.
    destruct (IH ((w ++ [GeminiCall prompt m]) ++ [Sleep wait_time]))
      as (t & Ht & Hw).
    exists ([GeminiCall prompt m; Sleep 60] ++ t). split.
    + rewrite Ht, <- !app_assoc. reflexivity.
    + apply (within_app 1 0 left 0); done.
Qed.

Lemma bounded_openai_attempts instructions input : forall left,
  bounded 0 left (openai_attempts openai_api left instructions input).
Proof.
  induction left as [|left IH]; [apply bounded_ret|].
  intros w. cbn [openai_attempts]. unfold mbind, M_bind, call_openai at 1.
  destruct (within_openai_round instructions input) as [H1 H2].
  destruct (openai_api w instructions input) as [text|msg].
  - exists [OpenAICall instructions input]. split; [done|].
    apply (within_mono 0 1); [lia | lia | done].
  - destruct (is_rate_limit msg).
    + unfold sleep, emit.
      destruct (IH ((w ++ [OpenAICall instructions input])
                      ++ [Sleep wait_time])) as (t & Ht & Hw).
      exists ([OpenAICall instructions input; Sleep 60] ++ t). split.
      * rewrite Ht, <- !app_assoc. reflexivity.
      * apply (within_app 0 1 0 left); done.
    + exists [OpenAICall instructions input]. split; [done|].
      apply (within_mono 0 1); [lia | lia | done].
Qed.

Lemma bounded_extract_gemini_output prompt :
  bounded 5 0 (extract_gemini_output token_limit count_tokens gemini_api
                 prompt).
Proof.
  unfold extract_gemini_output.
  apply (bounded_bind 0 0 5 0); [apply bounded_lift|].
  intros n. cbv zeta. case_match.
  - apply (bounded_mono 0 0); [lia | lia | apply bounded_ret].
  - apply bounded_gemini_attempts.
Qed.

Lemma bounded_gemini_turn case_title case_details idx template :
  bounded 5 0 (gemini_turn token_limit count_tokens gemini_api case_title
                 case_details idx template).
Proof.
  unfold gemini_turn.
  apply (bounded_try 5 0 0 0); [|intros; apply bounded_ret].
  apply (bounded_bind 5 0 0 0); [|intros; apply bounded_ret].
  apply bounded_extract_gemini_output.
Qed.

Lemma bounded_gemini_loop case_title case_details templates :
  forall idx acc,
    bounded (5 * length templates) 0
      (gemini_loop token_limit count_tokens gemini_api case_title
         case_details idx templates acc).
Proof.
  induction templates as [|t rest IH]; intros idx acc;
    [apply bounded_ret|].
  cbn [gemini_loop].
  apply (bounded_mono (5 + 5 * length rest) (0 + 0));
    [simpl; lia | lia |].
  apply bounded_bind; [apply bounded_gemini_turn|].
  intros ae. apply IH.
Qed.

Lemma bounded_openai_fields case_title case_details :
  bounded 0 3 (openai_fields openai_api openai_prompt case_title
                 case_details).
Proof.
  unfold openai_fields.
  apply (bounded_try 0 3 0 0); [|intros; apply bounded_ret].
  apply (bounded_bind 0 3 0 0).
  - apply bounded_openai_attempts.
  - intros out. case_bool_decide; apply bounded_ret.
Qed.

Lemma bounded_compare_llm_output output_1 output_2 :
  bounded 5 0 (compare_llm_output token_limit count_tokens gemini_api
                 extraction_prompt literal_eval output_1 output_2).
Proof.
  unfold compare_llm_output.
  apply (bounded_bind 5 0 0 0); [|intros; apply bounded_ret].
  apply bounded_extract_gemini_output.
Qed.

Lemma bounded_process_case case_title case_details :
  bounded (5 * length gemini_prompt_templates + (0 + (5 + 0 + 0)))
    (0 + (3 + (0 + 0 + 0)))
    (process_case token_limit count_tokens gemini_api openai_api
       gemini_prompt_templates openai_prompt extraction_prompt
       literal_eval case_title case_details).
Proof.
  unfold process_case.
  apply bounded_bind; [apply bounded_gemini_loop|]. intros fe. cbv zeta.
  apply bounded_bind; [apply bounded_openai_fields|]. intros gpt.
  apply bounded_bind; [|intros; apply bounded_ret].
  apply bounded_try; [apply bounded_compare_llm_output|].
  intros; apply bounded_ret.
Qed.

(** X10.  What a case costs.  Processing a case only adds to the history
    of calls and sleeps, and what it adds holds at most five Gemini calls
    for each prompt and five more for the comparison, at most three OpenAI
    calls, sleeps of 60 seconds only, and no more sleeps than calls. *)
Theorem process_case_call_budget (case_title case_details : str)
    (w : list event) :
  exists t,
    snd (process_case token_limit count_tokens gemini_api openai_api
           gemini_prompt_templates openai_prompt extraction_prompt
           literal_eval case_title case_details w) = w ++ t
    /\ (gemini_calls t <= 5 * (length gemini_prompt_templates + 1))%nat
    /\ (openai_calls t <= 3)%nat
    /\ Forall (fun e => forall s, e = Sleep s -> s = 60%Z) t
    /\ (sleeps t <= gemini_calls t + openai_calls t)%nat.
Proof.
  destruct (bounded_process_case case_title case_details w)
    as (t & Ht & Hg & Ho & Hs & Hn).
  exists t. split_and!; [done | lia | lia | done | done].
Qed.

End CallBudget.

(** ** Degraded outcomes *)

Section Degraded.

Variable token_limit : Z.
Variable count_tokens : str -> result Z.
Variable gemini_api : list event -> str -> Z -> outcome.
Variable openai_api : list event -> str -> str -> outcome.
Variable openai_prompt : str.
Variable extraction_prompt : list str -> list str -> str.
Variable literal_eval : str -> result pyvalue.

(** X11.  What Backend B's failures look like in the fields.  A failure
    that is not a rate limit gives the fields [Error], [NA], [NA], [NA]
    after one call; three rate-limit failures give the text
    [Error: Failed after 3 attempts.] as the first field; an answer that is
    blank gives four [NA]. *)
Theorem openai_fields_degraded (case_title case_details : str)
    (w : list event) :
  let input := case_prompt case_title case_details in
  let call := OpenAICall openai_prompt input in
  (forall msg,
     openai_api w openai_prompt input = Raises msg ->
     is_rate_limit msg = false ->
     openai_fields openai_api openai_prompt case_title case_details w
     = (inr [ERROR; NA; NA; NA], w ++ [call]))
  /\ ((forall j, (j < 3)%nat ->
         exists msg,
           openai_api (w ++ rounds j (openai_round openai_prompt input))
             openai_prompt input = Raises msg
           /\ is_rate_limit msg = true) ->
      openai_fields openai_api openai_prompt case_title case_details w
      = (inr [lit "Error: Failed after 3 attempts."; NA; NA; NA],
         w ++ rounds 3 (openai_round openai_prompt input)))
  /\ (forall text,
        openai_api w openai_prompt input = Returns text ->
        strip text = [] ->
        openai_fields openai_api openai_prompt case_title case_details w
        = (inr [NA; NA; NA; NA], w ++ [call])).
Proof.
  cbv zeta. unfold openai_fields, extract_openai_output, try_M.
  fold (case_prompt case_title case_details).
  set (input := case_prompt case_title case_details).
  split_and!.
  - intros msg Hmsg Hrl.
    unfold mbind, M_bind. cbn [openai_attempts].
    unfold mbind, M_bind, call_openai. rewrite Hmsg, Hrl.
    unfold mret, M_ret. reflexivity.
  - intros Hfail. unfold mbind, M_bind.
    pose proof (openai_attempts_limited openai_api 3 0 _ _ _ Hfail) as E.
    change (3 + 0)%nat with 3%nat in E. rewrite E.
    cbn [openai_attempts]. unfold mret, M_ret. reflexivity.
  - intros text Htext Hblank.
    unfold mbind, M_bind. cbn [openai_attempts].
    unfold mbind, M_bind, call_openai. rewrite Htext.
    unfold mret, M_ret. rewrite strip_strip, Hblank. reflexivity.
Qed.

Lemma extract_gemini_output_over_budget prompt n w :
  count_tokens prompt = inr n ->
  (token_limit - n - 100 < 1000)%Z ->
  extract_gemini_output token_limit count_tokens gemini_api prompt w
  = (inr TOO_LARGE, w).
Proof.
  intros Hn Hlt. unfold extract_gemini_output, mbind, M_bind, lift.
  rewrite Hn.
  destruct (Z.ltb_spec (Z.min (token_limit - n - 100) 500000) 1000);
    [done | lia].
Qed.

Lemma extract_gemini_output_no_tokens prompt e w :
  count_tokens prompt = inl e ->
  extract_gemini_output token_limit count_tokens gemini_api prompt w
  = (inl e, w).
Proof.
  intros Hn. unfold extract_gemini_output, mbind, M_bind, lift.
  by rewrite Hn.
Qed.

Lemma gemini_loop_over_budget case_title case_details :
  forall templates idx acc w,
    (forall template, template ∈ templates ->
       exists n,
         count_tokens (template (case_prompt case_title case_details))
           = inr n
         /\ (token_limit - n - 100 < 1000)%Z) ->
    gemini_loop token_limit count_tokens gemini_api case_title case_details
      idx templates acc w
    = (inr (fst acc ++ replicate (length templates) TOO_LARGE,
            snd acc ++ replicate (length templates) NO_TEXT), w).
Proof.
  induction templates as [|t rest IH]; intros idx acc w H.
  - simpl. rewrite !app_nil_r. by destruct acc.
  - destruct (H t ltac:(left)) as (n & Hn & Hlt).
    cbn [gemini_loop]. unfold mbind at 1, M_bind at 1.
    unfold gemini_turn, try_M, mbind, M_bind, extract_gemini_case_output.
    fold (case_prompt case_title case_details).
    rewrite (extract_gemini_output_over_budget _ _ _ Hn Hlt).
    unfold mret, M_ret.
    rewrite IH by (intros t' Ht'; apply H; by right).
    cbn [fst snd]. rewrite <- !app_assoc. reflexivity.
Qed.

Lemma select_gemini_fields_filling k f :
  (k <= 5)%nat ->
  select_gemini_fields (pad_to 13 NA (replicate k f))
  = replicate 4 (lit "na").
Proof.
  intros Hk. unfold select_gemini_fields, pad_to, field_indices.
  rewrite length_replicate.
  assert (forall i, (5 <= i < 13)%nat ->
            (replicate k f ++ replicate (13 - k) NA) !! i = Some NA) as Hi.
  { intros i Hi. rewrite lookup_app_r by (rewrite length_replicate; lia).
    rewrite length_replicate. apply lookup_replicate_2. lia. }
  cbn [fmap list_fmap]. rewrite !Hi by lia. reflexivity.
Qed.

(** X12.  When every prompt of a case is over the token budget, the case
    is processed without a single extraction call: each prompt leaves the
    input-too-large text as one field and the no-supporting-text notice as
    one evidence line, the fields are filled up with [NA] to thirteen, and
    with at most five prompts the four fields sent to the comparison are
    all [na].  Backend B is then asked from the world as it was. *)
Theorem process_case_over_budget (templates : list (str -> str))
    (case_title case_details : str) (w : list event) :
  (length templates <= 5)%nat ->
  (forall template, template ∈ templates ->
     exists n,
       count_tokens (template (case_prompt case_title case_details)) = inr n
       /\ (token_limit - n - 100 < 1000)%Z) ->
  exists res w1 w',
    process_case token_limit count_tokens gemini_api openai_api templates
      openai_prompt extraction_prompt literal_eval case_title case_details w
    = (inr res, w')
    /\ openai_fields openai_api openai_prompt case_title case_details w
       = (inr (gpt_fields res), w1)
    /\ all_fields res
       = replicate (length templates) TOO_LARGE
           ++ replicate (13 - length templates) NA
    /\ all_evidence res = replicate (length templates) NO_TEXT
    /\ gemini_fields res = replicate 4 (lit "na").
Proof.
  intros Hk H. unfold process_case. unfold mbind at 1, M_bind at 1.
  rewrite (gemini_loop_over_budget case_title case_details templates 0
             ([], []) w H).
  cbn [fst snd app]. unfold mbind at 1, M_bind at 1.
  destruct (openai_fields_returns openai_api openai_prompt case_title
              case_details w) as (gpt & w1 & Hgpt & _).
  rewrite Hgpt. rewrite select_gemini_fields_filling by done.
  unfold mbind, M_bind, try_M.
  destruct (compare_llm_output _ _ _ _ _ _ _ w1) as [[e|v] w2];
    unfold mret, M_ret; eexists _, w1, _;
    (split_and!; [reflexivity | reflexivity | | reflexivity | reflexivity]);
    cbn [all_fields]; unfold pad_to; by rewrite length_replicate.
Qed.

(** X13.  When the tokenizer fails on every prompt, the two prompts of a
    case leave six and seven [NA] fields, thirteen in all, and one [NA]
    evidence line each; the fields compared are all [na], the comparison
    fails as well and the differences are four times [False].  No Gemini
    call is made: the case leaves the world as Backend B's part alone
    does. *)
Theorem process_case_without_tokenizer (first second : str -> str)
    (case_title case_details : str) (w : list event) :
  (forall prompt, exists e, count_tokens prompt = inl e) ->
  exists gpt w',
    openai_fields openai_api openai_prompt case_title case_details w
    = (inr gpt, w')
    /\ process_case token_limit count_tokens gemini_api openai_api
         [first; second] openai_prompt extraction_prompt literal_eval
         case_title case_details w
       = (inr {| all_fields := replicate 13 NA;
                 all_evidence := [NA; NA];
                 gpt_fields := gpt;
                 gemini_fields := replicate 4 (lit "na");
                 differences := PyList (replicate 4 (PyBool false)) |}, w').
Proof.
  intros H.
  assert (forall idx template w0,
            gemini_turn token_limit count_tokens gemini_api case_title
              case_details idx template w0
            = (inr (join_char TAB (replicate (expected_fields idx) NA), NA),
               w0)) as Hturn.
  { intros idx template w0.
    unfold gemini_turn, try_M, mbind, M_bind, extract_gemini_case_output.
    destruct (H (template (lit "Extract the required legal data from "
                             ++ case_title ++ lit ":"
                             ++ [NEWLINE; NEWLINE] ++ case_details)))
      as [e He].
    by rewrite (extract_gemini_output_no_tokens _ _ _ He). }
  destruct (openai_fields_returns openai_api openai_prompt case_title
              case_details w) as (gpt & w' & Hgpt & _).
  exists gpt, w'. split; [exact Hgpt|].
  assert (gemini_loop token_limit count_tokens gemini_api case_title
            case_details 0 [first; second] ([], []) w
          = (inr (replicate 6 NA ++ replicate 7 NA, [NA; NA]), w)) as Hloop.
  { cbn [gemini_loop]. unfold mbind, M_bind. rewrite !Hturn.
    unfold mret, M_ret. do 2 f_equal. }
  unfold process_case. unfold mbind at 1, M_bind at 1. rewrite Hloop.
  cbn [fst snd]. unfold mbind, M_bind.
  change (pad_to 13 NA (replicate 6 NA ++ replicate 7 NA))
    with (replicate 13 NA).
  assert (select_gemini_fields (replicate 13 NA) = replicate 4 (lit "na"))
    as -> by (vm_compute; reflexivity).
  rewrite Hgpt. unfold try_M, compare_llm_output, mbind, M_bind.
  destruct (H (extraction_prompt gpt (replicate 4 (lit "na")))) as [e He].
  rewrite (extract_gemini_output_no_tokens _ _ _ He).
  unfold mret, M_ret. reflexivity.
Qed.

End Degraded.

Lemma openai_fields_degraded_witness :
  openai_fields openai_rejects (lit "instructions") (lit "T") (lit "D") []
  = (inr [ERROR; NA; NA; NA],
     [OpenAICall (lit "instructions") (case_prompt (lit "T") (lit "D"))]).
Proof.
  destruct (openai_fields_degraded openai_rejects (lit "instructions")
              (lit "T") (lit "D") []) as (H & _ & _).
  exact (H (lit "401 invalid api key") eq_refl eq_refl).
Defined.

Lemma process_case_over_budget_witness :
  exists res w1 w',
    process_case 1050 tokens_by_length gemini_unavailable openai_rejects
      [id; id] (lit "instructions") sample_comparison_prompt
      literal_eval_bools (lit "T") (lit "D") [] = (inr res, w')
    /\ openai_fields openai_rejects (lit "instructions") (lit "T") (lit "D")
         [] = (inr (gpt_fields res), w1)
    /\ all_fields res = replicate 2 TOO_LARGE ++ replicate 11 NA
    /\ all_evidence res = replicate 2 NO_TEXT
    /\ gemini_fields res = replicate 4 (lit "na").
Proof.
  apply (process_case_over_budget 1050 tokens_by_length gemini_unavailable
           openai_rejects (lit "instructions") sample_comparison_prompt
           literal_eval_bools [id; id] (lit "T") (lit "D") []).
  - simpl. lia.
  - intros template Ht.
    assert (template = id) as ->.
    { apply elem_of_cons in Ht as [->|Ht]; [done|].
      apply elem_of_cons in Ht as [->|Ht]; [done|].
      by apply elem_of_nil in Ht. }
    eexists. split; [reflexivity|]. vm_compute. reflexivity.
Defined.

Lemma process_case_without_tokenizer_witness :
  exists gpt w',
    openai_fields openai_rejects (lit "instructions") (lit "T") (lit "D") []
    = (inr gpt, w')
    /\ process_case 2000000 (fun _ => inl ValueError) gemini_unavailable
         openai_rejects [id; id] (lit "instructions")
         sample_comparison_prompt literal_eval_bools (lit "T") (lit "D") []
       = (inr {| all_fields := replicate 13 NA;
                 all_evidence := [NA; NA];
                 gpt_fields := gpt;
                 gemini_fields := replicate 4 (lit "na");
                 differences := PyList (replicate 4 (PyBool false)) |}, w').
Proof.
  apply (process_case_without_tokenizer 2000000 (fun _ => inl ValueError)
           gemini_unavailable openai_rejects (lit "instructions")
           sample_comparison_prompt literal_eval_bools id id (lit "T")
           (lit "D") []).
  intros prompt. by exists ValueError.
Defined.

(** ** Evidence lines *)

Lemma split_char_Forall c s :
  Forall (Forall (fun y => y <> c)) (split_char c s).
Proof.
  induction s as [|x s IH]; simpl; [by repeat constructor|].
  destruct (N.eqb_spec x c) as [->|Hx]; [by constructor|].
  destruct (split_char c s) as [|h t]; [by repeat constructor|].
  apply Forall_cons in IH as [Hh Ht]. by repeat constructor.
Qed.

Lemma strip_numbering_Forall (Q : N -> Prop) s :
  Forall Q s -> Forall Q (strip_numbering s).
Proof.
  intros H. unfold strip_numbering, match_numbering.
  pose proof (dropwhile_Forall isdecimal Q _
                (dropwhile_Forall isspace Q _ H)) as H1.
  destruct (takewhile isdecimal (dropwhile isspace s)); [done|].
  destruct (dropwhile isdecimal (dropwhile isspace s)) as [|c rest];
    [done|].
  destruct (c =? DOT); [|done]. simpl.
  apply Forall_cons in H1 as [_ H1]. by apply dropwhile_Forall.
Qed.

Lemma replace_char_keeps (Q : N -> Prop) a b s :
  Q b -> Forall Q s -> Forall Q (replace_char a b s).
Proof.
  intros Hb H. unfold replace_char. apply Forall_fmap.
  eapply Forall_impl; [exact H|]. intros c Hc. simpl.
  by destruct (c =? a).
Qed.

Lemma clean_evidence_line_Forall (Q : N -> Prop) s :
  Q SPACE -> Forall Q s -> Forall Q (clean_evidence_line s).
Proof.
  intros Hsp H. unfold clean_evidence_line.
  apply strip_Forall, strip_trailing_quote_Forall.
  apply strip_leading_quote_Forall, replace_char_keeps; [done|].
  by apply strip_numbering_Forall.
Qed.

(** X14.  Every evidence line kept for a prompt is one line of the
    evidence text: it holds no newline and no no-break space, and it has
    no white space at either end.  There are as many evidence lines as the
    trimmed evidence text has lines that are not blank. *)
Theorem prompt_evidence_lines_shape (evidence line : str) :
  line ∈ prompt_evidence_lines evidence ->
  Forall (fun c => c <> NEWLINE /\ c <> NBSP) line
  /\ from_option isspace false (head line) = false
  /\ from_option isspace false (last line) = false
  /\ length (prompt_evidence_lines evidence)
     = length (filter (fun l => strip l <> [])
                 (split_char NEWLINE (strip evidence))).
Proof.
  unfold prompt_evidence_lines. intros H.
  apply list_elem_of_fmap in H as (raw & -> & Hraw).
  apply list_elem_of_filter in Hraw as [_ Hraw].
  pose proof (split_char_Forall NEWLINE (strip evidence)) as Hall.
  rewrite Forall_forall in Hall. specialize (Hall raw Hraw).
  destruct (clean_evidence_line_shape raw) as (Hh & Hl & Hn).
  split_and!; [| exact Hh | exact Hl | by rewrite length_fmap].
  pose proof (clean_evidence_line_Forall (fun c => c <> NEWLINE) raw
                ltac:(done) Hall) as Hnl.
  rewrite Forall_forall in Hnl, Hn |- *. intros c Hc. split; auto.
Qed.

Lemma prompt_evidence_lines_shape_witness :
  let evidence := lit "1. 'first'" ++ [NEWLINE; NEWLINE] ++ lit " 2. second " in
  prompt_evidence_lines evidence = [lit "first"; lit "second"]
  /\ Forall (fun c => c <> NEWLINE /\ c <> NBSP) (lit "second").
Proof.
  cbv zeta. split; [vm_compute; reflexivity|].
  apply (prompt_evidence_lines_shape
           (lit "1. 'first'" ++ [NEWLINE; NEWLINE] ++ lit " 2. second ")
           (lit "second")).
  vm_compute. right. left.
Defined.

(** * Further properties of the link encoding *)

Lemma utf8_char_scalar c :
  scalar_value c = true ->
  exists bs, utf8_char c = inr bs /\ Forall (fun b => b < 256) bs.
Proof.
  unfold scalar_value, is_surrogate, utf8_char. intros H.
  apply andb_true_iff in H as [Hlt Hs]. apply N.ltb_lt in Hlt.
  apply negb_true_iff in Hs.
  destruct (N.ltb_spec c 128).
  { eexists. split; [done|]. repeat constructor. lia. }
  destruct (N.ltb_spec c 2048).
  { eexists. split; [done|].
    pose proof (N.mod_upper_bound c 64 ltac:(lia)).
    pose proof (N.Div0.div_lt_upper_bound c 64 32 ltac:(lia)).
    repeat constructor; lia. }
  destruct (N.ltb_spec c 65536).
  { rewrite Hs. eexists. split; [done|].
    pose proof (N.mod_upper_bound c 64 ltac:(lia)).
    pose proof (N.mod_upper_bound (c / 64) 64 ltac:(lia)).
    pose proof (N.Div0.div_lt_upper_bound c 4096 16 ltac:(lia)).
    repeat constructor; lia. }
  destruct (N.ltb_spec c 1114112); [|lia].
  eexists. split; [done|].
  pose proof (N.mod_upper_bound c 64 ltac:(lia)).
  pose proof (N.mod_upper_bound (c / 64) 64 ltac:(lia)).
  pose proof (N.mod_upper_bound (c / 4096) 64 ltac:(lia)).
  pose proof (N.Div0.div_lt_upper_bound c 262144 8 ltac:(lia)).
  repeat constructor; lia.
Qed.

Lemma encode_utf8_scalar s :
  Forall (fun c => scalar_value c = true) s ->
  exists bs, encode_utf8 s = inr bs /\ Forall (fun b => b < 256) bs.
Proof.
  induction 1 as [|c s Hc _ (bs & IH & Hbs)]; [by exists []|].
  destruct (utf8_char_scalar c Hc) as (b & Hb & Hlt).
  exists (b ++ bs). cbn [encode_utf8]. rewrite Hb, IH. cbn [rbind].
  split; [done|]. by apply Forall_app.
Qed.

Lemma encode_utf8_surrogate s c :
  c ∈ s -> is_surrogate c = true -> encode_utf8 s = inl ValueError.
Proof.
  intros Hin Hc.
  assert (utf8_char c = inl ValueError) as Hu.
  { unfold utf8_char. unfold is_surrogate in Hc. rewrite Hc.
    apply andb_true_iff in Hc as [H1 H2].
    apply N.leb_le in H1. apply N.leb_le in H2.
    destruct (N.ltb_spec c 128); [lia|].
    destruct (N.ltb_spec c 2048); [lia|].
    destruct (N.ltb_spec c 65536); [done|lia]. }
  assert (forall x, (exists bs, utf8_char x = inr bs)
                    \/ utf8_char x = inl ValueError) as Hcases.
  { intros x. unfold utf8_char. repeat case_match; eauto. }
  induction s as [|x s IH]; [by apply elem_of_nil in Hin|].
  cbn [encode_utf8]. apply elem_of_cons in Hin as [<-|Hin].
  - by rewrite Hu.
  - destruct (Hcases x) as [[bs ->]| ->]; [|done].
    cbn [rbind]. by rewrite IH.
Qed.

Lemma quote_byte_chars b :
  b < 256 ->
  Forall (fun c => url_char c = true \/ c = HYPHEN) (quote_byte (lit "%") b).
Proof.
  intros Hb.
  assert (forallb
            (fun b => forallb (fun c => url_char c || (c =? HYPHEN))
                        (quote_byte (lit "%") b))
            (N.of_nat <$> seq 0 256) = true) as Hall
    by (vm_compute; reflexivity).
  rewrite forallb_forall in Hall.
  specialize (Hall b). rewrite forallb_forall in Hall.
  apply Forall_forall. intros c Hc.
  assert (url_char c || (c =? HYPHEN) = true) as Hor.
  { apply Hall.
    - apply list_elem_of_In, list_elem_of_fmap. exists (N.to_nat b).
      split; [lia|]. apply elem_of_seq. lia.
    - by apply list_elem_of_In. }
  apply orb_true_iff in Hor as [?|?%N.eqb_eq]; auto.
Qed.

Lemma replace_from_Forall (Q : N -> Prop) old new s :
  Forall Q new -> Forall Q s ->
  forall skip, Forall Q (replace_from old new skip s).
Proof.
  intros Hnew. induction 1 as [|c s Hc Hs IH]; intros skip; [done|].
  cbn [replace_from]. destruct skip; [|done].
  destruct (starts_with old (c :: s)).
  - by apply Forall_app.
  - by constructor.
Qed.

Lemma replace_single (a : N) new s :
  replace [a] new s = s ≫= (fun c => if a =? c then new else [c]).
Proof.
  unfold replace. induction s as [|c s IH]; [done|].
  cbn [replace_from starts_with length]. rewrite andb_true_r.
  change (1 - 1)%nat with 0%nat. rewrite IH.
  cbn [mbind list_bind]. by destruct (a =? c).
Qed.

Lemma replace_single_Forall (Q : N -> Prop) a new s :
  Forall Q new -> Forall (fun c => Q c \/ c = a) s ->
  Forall Q (replace [a] new s).
Proof.
  intros Hnew Hs. rewrite replace_single.
  induction Hs as [|c s Hc _ IH]; [done|]. cbn.
  apply Forall_app. split; [|done].
  destruct (N.eqb_spec a c) as [->|Hne]; [done|].
  constructor; [|done]. destruct Hc; congruence.
Qed.

Lemma contains_cons p c s :
  contains p (c :: s) = starts_with p (c :: s) || contains p s.
Proof.
  unfold contains. cbn [find].
  destruct (starts_with p (c :: s)); [done|]. by destruct (find p s).
Qed.

Lemma leading_dots_cons c s :
  leading_dots (c :: s) = if c =? DOT then S (leading_dots s) else 0%nat.
Proof. unfold leading_dots. simpl. by destruct (c =? DOT). Qed.

Lemma starts_with_dots s :
  starts_with (lit "...") s = true <-> (3 <= leading_dots s)%nat.
Proof.
  change (lit "...") with [DOT; DOT; DOT].
  destruct s as [|a [|b [|c s]]]; cbn [starts_with];
    rewrite ?leading_dots_cons; unfold leading_dots; cbn [takewhile length];
    rewrite ?(N.eqb_sym DOT);
    repeat (match goal with
            | |- context [?x =? DOT] => destruct (x =? DOT)
            end; simpl); split; (lia || done).
Qed.

Lemma contains_dots_app new r :
  Forall (fun c => c <> DOT) new ->
  contains (lit "...") r = false ->
  contains (lit "...") (new ++ r) = false.
Proof.
  intros Hnew Hr. induction Hnew as [|c new Hc _ IH]; [done|].
  cbn [app]. rewrite contains_cons, IH, orb_false_r.
  change (lit "...") with [DOT; DOT; DOT]. cbn [starts_with].
  by rewrite (proj2 (N.eqb_neq DOT c)) by done.
Qed.

Lemma starts_with_dots_false s r :
  starts_with (lit "...") s = false ->
  (leading_dots r <= leading_dots s)%nat ->
  starts_with (lit "...") r = false.
Proof.
  intros Hs Hle. apply not_true_is_false. intros Hr.
  apply starts_with_dots in Hr.
  assert (starts_with (lit "...") s = true)
    by (apply starts_with_dots; lia).
  congruence.
Qed.

(** Replacing the ellipses leaves none. *)
Lemma replace_dots_none new s :
  Forall (fun c => c <> DOT) new -> new <> [] ->
  forall skip,
    contains (lit "...") (replace_from (lit "...") new skip s) = false
    /\ (skip = 0%nat ->
        (leading_dots (replace_from (lit "...") new skip s)
         <= leading_dots s)%nat).
Proof.
  intros Hnew Hne. induction s as [|c s IH]; intros skip.
  - split; [done|]. intros _. done.
  - cbn [replace_from]. destruct skip as [|k].
    + destruct (starts_with (lit "...") (c :: s)) eqn:Hs.
      * split.
        -- apply contains_dots_app; [done|]. apply IH.
        -- intros _. destruct Hnew as [|x new Hx _]; [done|].
           cbn [app]. rewrite leading_dots_cons.
           rewrite (proj2 (N.eqb_neq x DOT)) by done. lia.
      * destruct (IH 0%nat) as [Hc Hl]. specialize (Hl eq_refl).
        assert (leading_dots (c :: replace_from (lit "...") new 0 s)
                <= leading_dots (c :: s))%nat as Hle.
        { rewrite !leading_dots_cons. destruct (c =? DOT); lia. }
        split; [|done].
        rewrite contains_cons, Hc, orb_false_r.
        by apply (starts_with_dots_false (c :: s)).
    + split; [apply IH | done].
Qed.

(** Replacing one character that is no period by a text without periods
    makes no ellipsis. *)
Lemma replace_single_dots a new s :
  a <> DOT -> Forall (fun c => c <> DOT) new -> new <> [] ->
  contains (lit "...") s = false ->
  contains (lit "...") (replace [a] new s) = false
  /\ (leading_dots (replace [a] new s) <= leading_dots s)%nat.
Proof.
  intros Ha Hnew Hne. rewrite replace_single.
  induction s as [|c s IH]; intros Hs; [done|].
  rewrite contains_cons in Hs. apply orb_false_iff in Hs as [Hs Hc].
  destruct (IH Hc) as [IH1 IH2]. cbn [mbind list_bind].
  change (mbind ?f s) with (s ≫= f) in *.
  destruct (N.eqb_spec a c) as [<-|Hac].
  - split.
    + by apply contains_dots_app.
    + destruct Hnew as [|x new Hx _]; [done|].
      cbn [app]. rewrite leading_dots_cons.
      rewrite (proj2 (N.eqb_neq x DOT)) by done. lia.
  - cbn [app]. split.
    + rewrite contains_cons, IH1, orb_false_r.
      apply (starts_with_dots_false (c :: s)); [done|].
      rewrite !leading_dots_cons. destruct (c =? DOT); lia.
    + rewrite !leading_dots_cons. destruct (c =? DOT); lia.
Qed.

(** X15.  The encoded snippet of a text that can be encoded.  When the
    normalised text holds only code points that UTF-8 accepts, the
    encoding returns, and its result is made of ASCII letters, digits and
    the characters [_], [.], [~], [%], [&] and [=] only: in particular it
    holds no hyphen, no space and no quote.  It holds no ellipsis of three
    periods either. *)
Theorem clean_and_encode_text_url_safe (nfkc : str -> str) (text : str) :
  Forall (fun c => scalar_value c = true) (nfkc text) ->
  exists out,
    clean_and_encode_text nfkc text = inr out
    /\ Forall (fun c => url_char c = true) out
    /\ (HYPHEN ∉ out)
    /\ contains (lit "...") out = false.
Proof.
  intros Hs. unfold clean_and_encode_text, quote.
  assert (forall a s, Forall (fun c => scalar_value c = true) s ->
            Forall (fun c => scalar_value c = true)
              (replace_char a 45 s)) as Hrc
    by (intros a s H; by apply replace_char_keeps).
  destruct (encode_utf8_scalar _ (Hrc 8209 _ (Hrc 8212 _ (Hrc 8211 _ Hs))))
    as (bs & -> & Hbs).
  cbn [rbind]. cbv zeta. eexists. split; [reflexivity|].
  set (Q := fun c => url_char c = true \/ c = HYPHEN).
  assert (Forall Q (concat (quote_byte (lit "%") <$> bs))) as Hq.
  { apply Forall_concat, Forall_fmap.
    eapply Forall_impl; [exact Hbs|]. intros b Hb.
    by apply quote_byte_chars. }
  assert (Forall Q (lit "&text=")) as Hnew
    by (repeat constructor; by left).
  assert (Forall (fun c => url_char c = true) (lit "%2D")) as H2D
    by (by repeat constructor).
  assert (forall out, Forall (fun c => url_char c = true) out ->
            HYPHEN ∉ out) as Hno.
  { intros out Hout Hin. rewrite Forall_forall in Hout.
    by specialize (Hout _ Hin). }
  match goal with
  | |- Forall _ ?o /\ _ /\ _ =>
      assert (Forall (fun c => url_char c = true) o) as Hout
  end.
  { apply replace_single_Forall; [done|].
    unfold replace. by repeat apply replace_from_Forall. }
  split_and!; [exact Hout | by apply Hno |].
  apply replace_single_dots; [done | by repeat constructor | done |].
  apply replace_dots_none; [by repeat constructor | done].
Qed.

Lemma clean_and_encode_text_url_safe_witness :
  exists out,
    clean_and_encode_text id (lit "on 3-4 May ... the court") = inr out
    /\ Forall (fun c => url_char c = true) out
    /\ (HYPHEN ∉ out)
    /\ contains (lit "...") out = false.
Proof.
  apply (clean_and_encode_text_url_safe id (lit "on 3-4 May ... the court")).
  apply Forall_forall. intros c Hc. apply list_elem_of_In in Hc.
  revert c Hc. apply forallb_forall. vm_compute. reflexivity.
Defined.

(** X16.  A text whose normal form holds a surrogate code point cannot be
    encoded: the encoding raises, a [ValueError], whatever else the text
    holds. *)
Theorem clean_and_encode_text_surrogate (nfkc : str -> str) (text : str)
    (c : N) :
  c ∈ nfkc text -> is_surrogate c = true ->
  clean_and_encode_text nfkc text = inl ValueError.
Proof.
  intros Hin Hc. unfold clean_and_encode_text, quote.
  assert (forall a s, (a <? 55296) = true -> c ∈ s ->
            c ∈ replace_char a 45 s) as Hrc.
  { intros a s Ha H. unfold replace_char.
    apply list_elem_of_fmap. exists c. split; [|done].
    unfold is_surrogate in Hc. apply andb_true_iff in Hc as [Hc _].
    apply N.leb_le in Hc. apply N.ltb_lt in Ha.
    destruct (N.eqb_spec c a); [lia|done]. }
  rewrite (encode_utf8_surrogate _ c); [done| |done].
  by repeat apply Hrc.
Qed.

Lemma clean_and_encode_text_surrogate_witness :
  clean_and_encode_text id (lit "a" ++ [55357] ++ lit "b") = inl ValueError.
Proof.
  apply (clean_and_encode_text_surrogate id (lit "a" ++ [55357] ++ lit "b")
           55357); [|reflexivity].
  vm_compute. right. left.
Defined.

(** * Further properties of the run over all cases *)

Import Main.

Lemma count_events_none p t :
  Forall (fun e => p e = false) t -> count_events p t = 0%nat.
Proof.
  unfold count_events. induction 1 as [|e t He _ IH]; [done|].
  rewrite filter_cons_False by (by rewrite He). done.
Qed.

Lemma within_no_pause g o t : within g o t -> pauses t = 0%nat.
Proof.
  intros (_ & _ & Hs & _). apply count_events_none.
  eapply Forall_impl; [exact Hs|]. intros e He.
  destruct e as [| |s]; try done.
  specialize (He s eq_refl). by subst s.
Qed.

Section MainFacts.

Variable token_limit : Z.
Variable count_tokens : str -> result Z.
Variable gemini_api : list event -> str -> Z -> outcome.
Variable openai_api : list event -> str -> str -> outcome.
Variable gemini_prompt_templates : list (str -> str).
Variable openai_prompt : str.
Variable extraction_prompt : list str -> list str -> str.
Variable literal_eval : str -> result pyvalue.

(** The shape of an entry of the results. *)
Let entry (r : case_results) : Prop :=
  (13 <= length (all_fields r))%nat
  /\ length (gpt_fields r) = 4%nat
  /\ length (gemini_fields r) = 4%nat.

(** The greatest number of Gemini calls that a case can cost. *)
Let per_case : nat := (5 * (length gemini_prompt_templates + 1))%nat.

Lemma process_case_entry case_title case_details w :
  exists res t,
    process_case token_limit count_tokens gemini_api openai_api
      gemini_prompt_templates openai_prompt extraction_prompt literal_eval
      case_title case_details w = (inr res, w ++ t)
    /\ within per_case 3 t
    /\ entry res.
Proof.
  destruct (bounded_process_case token_limit count_tokens gemini_api
              openai_api gemini_prompt_templates openai_prompt
              extraction_prompt literal_eval case_title case_details w)
    as (t & Ht & Hw).
  revert Ht. unfold process_case, mbind, M_bind.
  destruct (gemini_loop_returns token_limit count_tokens gemini_api
              case_title case_details gemini_prompt_templates 0 ([], []) w)
    as (fe & w1 & -> & _).
  destruct (openai_fields_returns openai_api openai_prompt case_title
              case_details w1) as (gpt & w2 & -> & Hgpt).
  unfold try_M.
  destruct (compare_llm_output _ _ _ _ _ _ _ w2) as [[e|v] w3];
    unfold mret, M_ret; cbn [snd]; intros ->; eexists _, t;
    (split; [reflexivity|]);
    (split; [refine (within_mono _ _ _ _ _ _ _ Hw);
               [unfold per_case; lia | lia]|]);
    unfold entry; cbn [all_fields gpt_fields gemini_fields];
    rewrite length_pad_to; (split_and!; [lia | done | done]).
Qed.

Lemma process_cases_from_spec : forall cases i total results w,
  exists results' t,
    process_cases_from token_limit count_tokens gemini_api openai_api
      gemini_prompt_templates openai_prompt extraction_prompt literal_eval
      i total cases results w = (inr results', w ++ t)
    /\ (forall k, is_Some (results' !! k)
                  <-> is_Some (results !! k) \/ k ∈ unique_title <$> cases)
    /\ (forall k r, results' !! k = Some r ->
          results !! k = Some r \/ entry r)
    /\ (gemini_calls t <= length cases * per_case)%nat
    /\ (openai_calls t <= length cases * 3)%nat
    /\ pauses t = Nat.min (length cases) (total - i)
    /\ Forall (fun e => forall s, e = Sleep s -> s = 60%Z \/ s = 1%Z) t.
Proof.
  induction cases as [|c rest IH]; intros i total results w.
  - exists results, []. cbn [process_cases_from]. unfold mret, M_ret.
    rewrite app_nil_r. split_and!; try done.
    + intros k. rewrite fmap_nil. split; [auto|].
      intros [?|[]%elem_of_nil]. done.
    + auto.
  - cbn [process_cases_from]. unfold mbind at 1, M_bind at 1.
    unfold try_M, mbind at 1, M_bind at 1.
    destruct (process_case_entry (title c) (details_text c) w)
      as (res & t1 & -> & Hw1 & Hres).
    unfold mret at 1, M_ret at 1.
    set (results1 := <[unique_title c := res]> results).
    assert (exists t2,
              (if decide (i < total)%nat then sleep 1 else mret tt)
                (w ++ t1) = (inr tt, (w ++ t1) ++ t2)
              /\ t2 = (if decide (i < total)%nat then [Sleep 1] else []))
      as (t2 & Hsleep & Ht2).
    { destruct (decide (i < total)%nat); eexists; (split; [|reflexivity]).
      - reflexivity.
      - unfold mret, M_ret. by rewrite app_nil_r. }
    unfold mbind, M_bind. rewrite Hsleep.
    destruct (IH (S i) total results1 ((w ++ t1) ++ t2))
      as (results' & t3 & -> & Hdom & Hent & Hg & Ho & Hp & Hs).
    exists results', (t1 ++ t2 ++ t3).
    split; [by rewrite <- !app_assoc|].
    destruct Hw1 as (Hg1 & Ho1 & Hs1 & Hn1).
    pose proof (within_no_pause _ _ _ (conj Hg1 (conj Ho1 (conj Hs1 Hn1))))
      as Hp1.
    assert (gemini_calls t2 = 0 /\ openai_calls t2 = 0
            /\ pauses t2 = (if decide (i < total)%nat then 1 else 0)
            /\ Forall (fun e => forall s, e = Sleep s ->
                                 s = 60%Z \/ s = 1%Z) t2)%nat
      as (Hg2 & Ho2 & Hp2 & Hs2).
    { subst t2. destruct (decide (i < total)%nat);
        (split_and!; [done | done | done |]); [|by apply Forall_nil].
      apply Forall_cons. split; [|by apply Forall_nil].
      intros s' [= <-]. by right. }
    split_and!.
    + intros k. rewrite Hdom. subst results1. rewrite fmap_cons.
      rewrite elem_of_cons.
      destruct (decide (k = unique_title c)) as [->|Hne].
      * rewrite lookup_insert_eq. split; [auto|]. intros _. left. eauto.
      * rewrite lookup_insert_ne by done. split.
        -- intros [?|?]; auto.
        -- intros [?|[?|?]]; auto. done.
    + intros k r Hk. destruct (Hent k r Hk) as [H1|H1]; [|by right].
      subst results1.
      destruct (decide (k = unique_title c)) as [->|Hne].
      * rewrite lookup_insert_eq in H1. injection H1 as <-. by right.
      * rewrite lookup_insert_ne in H1 by done. by left.
    + unfold gemini_calls in *. rewrite !count_events_app.
      cbn [length]. lia.
    + unfold openai_calls in *. rewrite !count_events_app.
      cbn [length]. lia.
    + unfold pauses in *. rewrite !count_events_app.
      cbn [length]. rewrite Hp1, Hp2, Hp.
      destruct (decide (i < total)%nat); lia.
    + apply Forall_app. split; [|by apply Forall_app].
      eapply Forall_impl; [exact Hs1|]. intros e He s Hes.
      left. by apply He.
Qed.

(** X17.  The run over all cases.  It always returns, and only adds to the
    history.  The results have an entry for exactly the keys of the given
    cases; every entry has at least thirteen Backend A fields, four
    Backend B fields and four compared fields.  Between two cases the run
    pauses for one second, so with [n] cases there are [n - 1] pauses, none
    after the last case, and every other sleep lasts 60 seconds.  The run
    makes at most [5 * (templates + 1)] Gemini calls and three OpenAI calls
    for each case. *)
Theorem process_cases_results (cases : list Case) (w : list event) :
  exists results t,
    process_cases token_limit count_tokens gemini_api openai_api
      gemini_prompt_templates openai_prompt extraction_prompt literal_eval
      cases w = (inr results, w ++ t)
    /\ (forall k, is_Some (results !! k) <-> k ∈ unique_title <$> cases)
    /\ (forall k r, results !! k = Some r ->
          (13 <= length (all_fields r))%nat
          /\ length (gpt_fields r) = 4%nat
          /\ length (gemini_fields r) = 4%nat)
    /\ pauses t = (length cases - 1)%nat
    /\ Forall (fun e => forall s, e = Sleep s -> s = 60%Z \/ s = 1%Z) t
    /\ (gemini_calls t
        <= length cases * (5 * (length gemini_prompt_templates + 1)))%nat
    /\ (openai_calls t <= length cases * 3)%nat.
Proof.
  unfold process_cases.
  destruct (process_cases_from_spec cases 1 (length cases) ∅ w)
    as (results & t & -> & Hdom & Hent & Hg & Ho & Hp & Hs).
  exists results, t. split_and!; [done | | | | done | done | done].
  - intros k. rewrite Hdom, lookup_empty. split; [|auto].
    intros [[? [=]]|?]. done.
  - intros k r Hk. destruct (Hent k r Hk) as [H|H]; [|exact H].
    by rewrite lookup_empty in H.
  - rewrite Hp. lia.
Qed.

End MainFacts.

(** * Further properties of the extraction of a page *)

Section PageFacts.

Variable existing_cases : gset (list N).
Variable first_pass_cases : list Scraper.Case.
Variable citation_spans : list str.
Variable date_spans : list str.

Lemma too_old_cases date :
  (exists e, Scraper.too_old date = inl e)
  \/ Scraper.too_old date = inr true
  \/ Scraper.too_old date = inr false.
Proof.
  destruct (Scraper.too_old date) as [e|[|]]; eauto.
Qed.

Lemma extract_loop_spec : forall cases_elements i full_cases r,
  Scraper.extract_loop existing_cases first_pass_cases citation_spans
    date_spans i cases_elements full_cases = inr r ->
  exists n,
    (n <= length cases_elements)%nat
    /\ fst r
       = full_cases
           ++ filter (unseen first_pass_cases)
                (take n (cases_from citation_spans date_spans i
                           cases_elements))
    /\ Forall (passed existing_cases)
         (take n (cases_from citation_spans date_spans i cases_elements))
    /\ ((n < length cases_elements)%nat ->
        exists c,
          cases_from citation_spans date_spans i cases_elements !! n
            = Some c
          /\ ends_extraction existing_cases c).
Proof.
  induction cases_elements as [|e rest IH]; intros i full_cases r H.
  - injection H as <-. exists 0%nat. simpl. rewrite app_nil_r.
    split_and!; [done | done | done | lia].
  - cbn [Scraper.extract_loop] in H. cbv zeta in H.
    set (c := Scraper.case_of citation_spans date_spans i e) in *.
    cbn [cases_from]. fold c.
    destruct (Scraper.too_old (Scraper.date c)) as [err|[|]] eqn:Hold;
      cbn [rbind] in H; [done| |].
    { injection H as <-. exists 0%nat. simpl. rewrite app_nil_r.
      split_and!; [lia | done | done |].
      intros _. exists c. split; [done|]. by left. }
    case_bool_decide as Hex.
    { injection H as <-. exists 0%nat. simpl. rewrite app_nil_r.
      split_and!; [lia | done | done |].
      intros _. exists c. split; [done|]. by right. }
    assert (passed existing_cases c) as Hc by done.
    case_bool_decide as Hfp.
    + destruct (IH _ _ _ H) as (n & Hn & Hr & Hall & Hend).
      exists (S n). cbn [take length].
      rewrite filter_cons_False by (unfold unseen; tauto).
      split_and!; [lia | done | by constructor |].
      intros Hlt. apply Hend. lia.
    + destruct (IH _ _ _ H) as (n & Hn & Hr & Hall & Hend).
      exists (S n). cbn [take length].
      rewrite filter_cons_True by done.
      split_and!; [lia | | by constructor |].
      * rewrite Hr, <- app_assoc. done.
      * intros Hlt. apply Hend. lia.
Qed.

(** X18.  What a page gives.  When the extraction of a page returns, it
    returns the cases of a first stretch of the page, in the order of the
    page, without those that the first search had found.  Every case of
    that stretch is not too old and not in the archive, and the stretch
    ends at the first entry that is too old or in the archive, if there is
    one: nothing at or after that entry is returned.  Whether an entry
    ended the extraction does not show in the result. *)
Theorem extract_cases_stretch (cases_elements : list (str * option str))
    (cases : list Scraper.Case) :
  Scraper.extract_cases existing_cases first_pass_cases citation_spans
    date_spans cases_elements = inr cases ->
  let page := cases_from citation_spans date_spans 0 cases_elements in
  exists n,
    (n <= length cases_elements)%nat
    /\ cases = filter (unseen first_pass_cases) (take n page)
    /\ Forall (passed existing_cases) (take n page)
    /\ ((n < length cases_elements)%nat ->
        exists c, page !! n = Some c /\ ends_extraction existing_cases c).
Proof.
  intros H page. unfold Scraper.extract_cases in H.
  destruct (Scraper.extract_loop _ _ _ _ 0 cases_elements [])
    as [e|r] eqn:Hloop; [done|].
  cbn [rbind] in H.
  assert (cases = fst r) as ->.
  { destruct (snd r); cbn [andb] in H; [|by injection H].
    case_bool_decide as Hnil; injection H as <-; done. }
  destruct (extract_loop_spec _ _ _ _ Hloop) as (n & Hn & Hr & Hall & Hend).
  exists n. split_and!; done.
Qed.

(** The name of a case is never in an archive whose names are trimmed
    when it ends in white space. *)
Lemma trimmed_name_not_spaced (k : str) :
  strip k = k -> from_option isspace false (last k) = false.
Proof. intros <-. apply strip_last. Qed.

(** X19.  A case without citation is never known to the extraction.  The
    names read from the archive are trimmed; the name of a case whose
    cleaned citation is empty, or ends in white space, ends in white
    space and so is not trimmed.  Such a case is never found in the
    archive, and never ends the extraction on that account. *)
Theorem case_without_citation_never_known (i : nat)
    (case_elem : str * option str) :
  (forall k, k ∈ existing_cases -> strip k = k) ->
  let case := Scraper.case_of citation_spans date_spans i case_elem in
  from_option isspace true
    (last (Scraper.clean_citation (Scraper.citation case))) = true ->
  (Scraper.unique_title case ∉ existing_cases)
  /\ strip (Scraper.unique_title case) <> Scraper.unique_title case.
Proof.
  intros Htrim case Hlast.
  assert (from_option isspace false (last (Scraper.unique_title case))
          = true) as Hsp.
  { unfold case, Scraper.case_of, Scraper.make_unique_title in *.
    cbn [Scraper.unique_title Scraper.citation] in *.
    destruct (Scraper.clean_citation _) as [|x cc] using rev_ind.
    - rewrite app_nil_r, last_snoc. done.
    - rewrite !app_assoc, last_snoc. rewrite last_snoc in Hlast. done. }
  assert (strip (Scraper.unique_title case) <> Scraper.unique_title case)
    as Hne.
  { intros Heq. apply trimmed_name_not_spaced in Heq. congruence. }
  split; [|done].
  intros Hin. apply Hne, Htrim, Hin.
Qed.

End PageFacts.

Lemma extract_cases_stretch_witness :
  let page := cases_from sample_citations sample_dates 0 sample_page in
  exists n cases,
    Scraper.extract_cases ∅ [] sample_citations sample_dates sample_page
      = inr cases
    /\ Scraper.unique_title <$> cases = [lit "A v B SGHCF 12"; lit "C v D "]
    /\ (n <= length sample_page)%nat
    /\ cases = filter (unseen []) (take n page)
    /\ Forall (passed ∅) (take n page)
    /\ ((n < length sample_page)%nat ->
        exists c, page !! n = Some c /\ ends_extraction ∅ c).
Proof.
  cbv zeta.
  destruct (Scraper.extract_cases ∅ [] sample_citations sample_dates
              sample_page) as [e|cases] eqn:H;
    [vm_compute in H; discriminate|].
  destruct (extract_cases_stretch ∅ [] sample_citations sample_dates
              sample_page cases H) as (n & Hn).
  exists n, cases. split; [reflexivity|]. split; [|exact Hn].
  vm_compute in H. injection H as <-. reflexivity.
Defined.

Lemma case_without_citation_never_known_witness :
  let case := Scraper.case_of sample_citations sample_dates 1
                (lit "C v D", None) in
  Scraper.unique_title case = lit "C v D "
  /\ (Scraper.unique_title case ∉ ({[ lit "C v D" ]} : gset (list N)))
  /\ strip (Scraper.unique_title case) <> Scraper.unique_title case.
Proof.
  cbv zeta. split; [reflexivity|].
  apply (case_without_citation_never_known {[ lit "C v D" ]}
           sample_citations sample_dates 1 (lit "C v D", None)).
  - intros k ->%elem_of_singleton. reflexivity.
  - reflexivity.
Defined.

(** ** The year of a case *)

Lemma in_ranges_find c rs :
  in_ranges c rs = true
  <-> is_Some (List.find (fun r => (fst r <=? c) && (c <=? snd r)) rs).
Proof.
  unfold in_ranges. induction rs as [|r rs IH]; simpl.
  - split; [done|]. by intros [? ?].
  - destruct ((fst r <=? c) && (c <=? snd r)); [|exact IH].
    split; [eauto|done].
Qed.

Lemma isdecimal_ranges c : isdecimal c = in_ranges c Scraper.decimal_ranges.
Proof. reflexivity. Qed.

Lemma digit_value_decimal c :
  isdecimal c = true ->
  exists d, Scraper.digit_value c = Some d /\ (0 <= d <= 9)%Z.
Proof.
  rewrite isdecimal_ranges, in_ranges_find. intros [r Hr].
  unfold Scraper.digit_value. rewrite Hr.
  exists (Z.of_N ((c - fst r) mod 10)). split; [done|].
  assert ((c - fst r) mod 10 < 10) as Hlt by (by apply N.mod_upper_bound).
  revert Hlt. generalize ((c - fst r) mod 10). intros m Hlt. lia.
Qed.

Lemma digit_value_other c :
  isdecimal c = false -> Scraper.digit_value c = None.
Proof.
  intros H. unfold Scraper.digit_value.
  destruct (List.find _ Scraper.decimal_ranges) as [r|] eqn:Hr; [|done].
  assert (isdecimal c = true); [|congruence].
  rewrite isdecimal_ranges. apply in_ranges_find. rewrite Hr. eauto.
Qed.

Lemma int_of_digits_snoc s c :
  Scraper.int_of_digits (s ++ [c])
  = rbind (fun n =>
             match Scraper.digit_value c with
             | Some d => inr (10 * n + d)%Z
             | None => inl ValueError
             end) (Scraper.int_of_digits s).
Proof. unfold Scraper.int_of_digits. by rewrite foldl_app. Qed.

Lemma int_of_digits_decimal s :
  Forall (fun c => isdecimal c = true) s ->
  exists n,
    Scraper.int_of_digits s = inr n
    /\ (0 <= n < 10 ^ Z.of_nat (length s))%Z.
Proof.
  induction s as [|c s IH] using rev_ind; intros H.
  - exists 0%Z. split; [done|]. simpl. lia.
  - apply Forall_app in H as [Hs Hc]. apply Forall_cons in Hc as [Hc _].
    destruct (IH Hs) as (n & Hn & Hb).
    destruct (digit_value_decimal c Hc) as (d & Hd & Hd9).
    exists (10 * n + d)%Z. rewrite int_of_digits_snoc, Hn, Hd.
    split; [done|].
    rewrite length_app. cbn [length].
    replace (Z.of_nat (length s + 1)) with (Z.succ (Z.of_nat (length s)))
      by lia.
    rewrite Z.pow_succ_r by lia. lia.
Qed.

Lemma int_of_digits_raises s :
  (exists n, Scraper.int_of_digits s = inr n)
  \/ Scraper.int_of_digits s = inl ValueError.
Proof.
  induction s as [|c s IH] using rev_ind; [left; by exists 0%Z|].
  rewrite int_of_digits_snoc.
  destruct IH as [[n ->]| ->]; [|by right]. cbn [rbind].
  destruct (Scraper.digit_value c); eauto.
Qed.

Lemma int_of_digits_other s c :
  c ∈ s -> isdecimal c = false -> Scraper.int_of_digits s = inl ValueError.
Proof.
  induction s as [|x s IH] using rev_ind; intros Hin Hc.
  - by apply elem_of_nil in Hin.
  - rewrite int_of_digits_snoc.
    apply elem_of_app in Hin as [Hin|Hin].
    + by rewrite IH.
    + apply list_elem_of_singleton in Hin as <-.
      rewrite (digit_value_other c Hc).
      by destruct (int_of_digits_raises s) as [[n ->]| ->].
Qed.

Lemma isdecimal_isdigit c : isdecimal c = true -> Scraper.isdigit c = true.
Proof.
  intros H. rewrite isdecimal_ranges in H.
  unfold in_ranges in H. apply existsb_exists in H as (r & Hr & Hc).
  assert (forallb
            (fun r =>
               forallb (fun k => Scraper.isdigit (fst r + N.of_nat k))
                 (seq 0 (N.to_nat (snd r - fst r + 1))))
            Scraper.decimal_ranges = true) as Hall
    by (vm_compute; reflexivity).
  rewrite forallb_forall in Hall.
  specialize (Hall r Hr). rewrite forallb_forall in Hall.
  apply andb_true_iff in Hc as [H1 H2].
  apply N.leb_le in H1. apply N.leb_le in H2.
  replace c with (fst r + N.of_nat (N.to_nat (c - fst r))) by lia.
  apply Hall, in_seq. lia.
Qed.

Section YearFacts.

Variable existing_cases : gset (list N).
Variable first_pass_cases : list Scraper.Case.
Variable citation_spans : list str.
Variable date_spans : list str.

(** X20.  The year test.  For a date that is not empty, take its last
    four characters, or all of it when it is shorter.  If they are decimal
    digits, the case is too old exactly when the number they spell is at
    most 2015, so a date of one to three decimal digits is always too old.
    If they are digit characters of which one is no decimal digit, the
    test raises, a [ValueError], and so does the extraction of a page
    whose first entry has such a date. *)
Theorem too_old_edges (date : str) :
  date <> [] ->
  (Forall (fun c => isdecimal c = true) (Scraper.last4 date) ->
   exists year,
     Scraper.int_of_digits (Scraper.last4 date) = inr year
     /\ Scraper.too_old date = inr (year <=? 2015)%Z
     /\ ((length date < 4)%nat -> Scraper.too_old date = inr true))
  /\ (Scraper.all_digits (Scraper.last4 date) = true ->
      (exists c, c ∈ Scraper.last4 date /\ isdecimal c = false) ->
      Scraper.too_old date = inl ValueError
      /\ forall case_elem rest,
           Scraper.date
             (Scraper.case_of citation_spans date_spans 0 case_elem) = date ->
           Scraper.extract_cases existing_cases first_pass_cases
             citation_spans date_spans (case_elem :: rest) = inl ValueError).
Proof.
  intros Hne. unfold Scraper.too_old.
  rewrite (bool_decide_eq_false_2 (date = [])) by done. split.
  - intros Hdec.
    assert (Scraper.all_digits (Scraper.last4 date) = true) as ->.
    { unfold Scraper.all_digits. apply andb_true_iff. split.
      - apply negb_true_iff, bool_decide_eq_false_2.
        unfold Scraper.last4. intros H. apply (f_equal length) in H.
        rewrite length_drop in H. simpl in H.
        destruct date; [done|]. simpl in H. lia.
      - apply forallb_forall. intros c Hc. apply isdecimal_isdigit.
        rewrite Forall_forall in Hdec. by apply Hdec, list_elem_of_In. }
    destruct (int_of_digits_decimal _ Hdec) as (year & Hy & Hb).
    exists year. rewrite Hy. cbn [rbind]. split_and!; [done..|].
    intros Hlen. do 2 f_equal. apply Z.leb_le.
    assert (length (Scraper.last4 date) <= 3)%nat as Hl
      by (unfold Scraper.last4; rewrite length_drop; lia).
    assert (10 ^ Z.of_nat (length (Scraper.last4 date)) <= 10 ^ 3)%Z
      by (apply Z.pow_le_mono_r; lia).
    lia.
  - intros Hdig (c & Hc & Hnd). rewrite Hdig.
    rewrite (int_of_digits_other _ c Hc Hnd). split; [done|].
    intros case_elem rest Hdate.
    unfold Scraper.extract_cases. cbn [Scraper.extract_loop]. cbv zeta.
    rewrite Hdate. unfold Scraper.too_old.
    rewrite (bool_decide_eq_false_2 (date = [])) by done.
    rewrite Hdig, (int_of_digits_other _ c Hc Hnd). reflexivity.
Qed.

End YearFacts.

Lemma too_old_edges_witness :
  Scraper.too_old (lit "7 Mar 2015") = inr true
  /\ Scraper.too_old (lit "1 Jan 2016") = inr false
  /\ Scraper.too_old (lit "15") = inr true
  /\ Scraper.too_old (lit "7 Mar " ++ [178] ++ lit "015") = inl ValueError.
Proof.
  assert (forall s, Forall (fun c => isdecimal c = true) s
                    <-> forallb isdecimal s = true) as Hdec.
  { intros s. rewrite forallb_forall, Forall_forall.
    split; intros H c Hc; apply H; by apply list_elem_of_In. }
  split_and!.
  - destruct (too_old_edges ∅ [] [] [] (lit "7 Mar 2015") ltac:(done))
      as [H _].
    destruct (H ltac:(by apply Hdec)) as (year & Hy & -> & _).
    vm_compute in Hy. by injection Hy as <-.
  - destruct (too_old_edges ∅ [] [] [] (lit "1 Jan 2016") ltac:(done))
      as [H _].
    destruct (H ltac:(by apply Hdec)) as (year & Hy & -> & _).
    vm_compute in Hy. by injection Hy as <-.
  - destruct (too_old_edges ∅ [] [] [] (lit "15") ltac:(done)) as [H _].
    destruct (H ltac:(by apply Hdec)) as (year & _ & _ & Hshort).
    apply Hshort. simpl. lia.
  - destruct (too_old_edges ∅ [] [] [] (lit "7 Mar " ++ [178] ++ lit "015")
                ltac:(done)) as [_ H].
    apply H; [reflexivity|]. exists 178. split; [|reflexivity].
    vm_compute. left.
Defined.

(** * Further properties of the merge *)

Section BatchFacts.

Variable clean_and_encode_text : list N -> result (list N).
Variable today_file : list N.
Variable now : Z.
Variable dir : list file.
Variable cases : list Case.
Variable llm_results : gmap (list N) case_results.

Lemma filter_key_fresh (E : gset (list N)) (k : list N) :
  strip k ∉ E ->
  filter (fun k' => k' = k)
    (unique_title <$> filter (fun c => strip (unique_title c) ∉ E) cases)
  = filter (fun k' => k' = k) (unique_title <$> cases).
Proof.
  intros Hk. induction cases as [|c l IH]; [done|].
  rewrite fmap_cons.
  destruct (decide (unique_title c = k)) as [Hc|Hc].
  - rewrite filter_cons_True by (by rewrite Hc).
    rewrite fmap_cons, !filter_cons_True by done. by f_equal.
  - rewrite (filter_cons_False _ (unique_title c)) by done.
    destruct (decide (strip (unique_title c) ∉ E)).
    + rewrite filter_cons_True by done.
      rewrite fmap_cons, filter_cons_False by done. exact IH.
    + rewrite filter_cons_False by done. exact IH.
Qed.

(** X21.  Keys are checked against the archive only.  The keys of the rows
    that a run adds, in order, are the keys of the given cases whose
    trimmed key is not among the existing ones.  So a key that is not in
    the archive and comes several times in one batch gets as many rows as
    it has cases, and a key whose trimmed form is in the archive gets
    none. *)
Theorem batch_keys_not_deduplicated :
  let r :=
    process_and_save_cases clean_and_encode_text today_file now dir cases
      llm_results in
  let new_rows := take (added r) (drop 1 (snapshot r)) in
  exists keys,
    (fun row => value (cell_at row 1)) <$> new_rows = VStr <$> keys
    /\ forall k,
         (strip k ∉ existing r ->
          length (filter (fun k' => k' = k) keys)
          = length (filter (fun k' => k' = k) (unique_title <$> cases)))
         /\ (strip k ∈ existing r -> k ∉ keys).
Proof.
  intros r new_rows.
  destruct (run_snapshot clean_and_encode_text today_file now dir cases
              llm_results) as [Hsnap Hadded].
  cbv zeta in Hsnap, Hadded. fold r in Hsnap, Hadded.
  set (fresh := filter (fun c => strip (unique_title c) ∉ existing r) cases)
    in *.
  exists (unique_title <$> fresh). split.
  - subst new_rows. rewrite Hsnap, Hadded.
    change (drop 1 (new_workbook ++ ?l)) with l.
    rewrite <- (length_fmap (new_row clean_and_encode_text llm_results)).
    rewrite take_app_length, <- !list_fmap_compose.
    apply list_fmap_ext. intros _ c _. cbn. apply new_row_key.
  - intros k. split.
    + intros Hk. subst fresh. by rewrite filter_key_fresh.
    + intros Hk Hin. apply list_elem_of_fmap in Hin as (c & -> & Hc).
      apply list_elem_of_filter in Hc as [Hc _]. done.
Qed.

End BatchFacts.

(** * Further properties of the requests *)

Lemma adds_ret {A} P (a : A) : adds P (mret a : M A).
Proof. intros w. exists []. by rewrite app_nil_r. Qed.

Lemma adds_lift {A} P (r : result A) : adds P (lift r).
Proof. intros w. exists []. by rewrite app_nil_r. Qed.

Lemma adds_bind {A B} P (c : M A) (f : A -> M B) :
  adds P c ->
  (forall a w w', c w = (inr a, w') -> adds P (f a)) ->
  adds P (c ≫= f).
Proof.
  intros Hc Hf w. unfold mbind, M_bind.
  destruct (Hc w) as (t1 & Ht1 & Hp1).
  destruct (c w) as [[e|a] w1] eqn:Hcw; simpl in Ht1; subst w1.
  - by exists t1.
  - destruct (Hf a _ _ Hcw (w ++ t1)) as (t2 & Ht2 & Hp2).
    exists (t1 ++ t2). split; [by rewrite Ht2, app_assoc|].
    by apply Forall_app.
Qed.

Lemma adds_try {A} P (body : M A) (handler : exn -> M A) :
  adds P body -> (forall e, adds P (handler e)) ->
  adds P (try_M body handler).
Proof.
  intros Hc Hf w. unfold try_M.
  destruct (Hc w) as (t1 & Ht1 & Hp1).
  destruct (body w) as [[e|a] w1]; simpl in Ht1; subst w1.
  - destruct (Hf e (w ++ t1)) as (t2 & Ht2 & Hp2).
    exists (t1 ++ t2). split; [by rewrite Ht2, app_assoc|].
    by apply Forall_app.
  - by exists t1.
Qed.

Section Requests.

Variable token_limit : Z.
Variable count_tokens : str -> result Z.
Variable gemini_api : list event -> str -> Z -> outcome.
Variable openai_api : list event -> str -> str -> outcome.
Variable gemini_prompt_templates : list (str -> str).
Variable openai_prompt : str.
Variable extraction_prompt : list str -> list str -> str.
Variable literal_eval : str -> result pyvalue.

Lemma adds_gemini_attempts (P : event -> Prop) prompt m :
  P (GeminiCall prompt m) -> P (Sleep 60) ->
  forall left, adds P (gemini_attempts gemini_api left prompt m).
Proof.
  intros Hcall Hsleep. induction left as [|left IH]; [apply adds_ret|].
  intros w. cbn [gemini_attempts]. unfold mbind, M_bind, call_gemini at 1.
  destruct (gemini_api w prompt m) as [text|msg].
  - exists [GeminiCall prompt m]. split; [done|]. by repeat constructor.
  - unfold sleep, emit.
    destruct (IH ((w ++ [GeminiCall prompt m]) ++ [Sleep wait_time]))
      as (t & Ht & Hp).
    exists ([GeminiCall prompt m; Sleep 60] ++ t). split.
    + rewrite Ht, <- !app_assoc. reflexivity.
    + apply Forall_app. split; [|done]. by repeat constructor.
Qed.

Lemma adds_openai_attempts (P : event -> Prop) instructions input :
  P (OpenAICall instructions input) -> P (Sleep 60) ->
  forall left, adds P (openai_attempts openai_api left instructions input).
Proof.
  intros Hcall Hsleep. induction left as [|left IH]; [apply adds_ret|].
  intros w. cbn [openai_attempts]. unfold mbind, M_bind, call_openai at 1.
  destruct (openai_api w instructions input) as [text|msg].
  - exists [OpenAICall instructions input]. split; [done|].
    by repeat constructor.
  - destruct (is_rate_limit msg).
    + unfold sleep, emit.
      destruct (IH ((w ++ [OpenAICall instructions input])
                      ++ [Sleep wait_time])) as (t & Ht & Hp).
      exists ([OpenAICall instructions input; Sleep 60] ++ t). split.
      * rewrite Ht, <- !app_assoc. reflexivity.
      * apply Forall_app. split; [|done]. by repeat constructor.
    + exists [OpenAICall instructions input]. split; [done|].
      by repeat constructor.
Qed.

Lemma adds_extract_gemini_output (P : event -> Prop) prompt :
  (forall m, gemini_call_fits token_limit count_tokens prompt m ->
     P (GeminiCall prompt m)) ->
  P (Sleep 60) ->
  adds P (extract_gemini_output token_limit count_tokens gemini_api prompt).
Proof.
  intros Hcall Hsleep. unfold extract_gemini_output.
  apply adds_bind; [apply adds_lift|].
  intros n w w' Hn. cbv zeta. unfold lift in Hn.
  assert (count_tokens prompt = inr n) as Hcount by congruence.
  destruct (Z.ltb_spec (Z.min (token_limit - n - 100) 500000) 1000);
    [apply adds_ret|].
  apply adds_gemini_attempts; [|done].
  apply Hcall. exists n. split_and!; try done; lia.
Qed.

(** X22.  The requests of a case.  Processing a case only adds to the
    history, and every event it adds is one of these: a request to Gemini
    whose prompt is a template filled with the request text of the case,
    or the comparison prompt of two lists of four fields, and whose output
    allowance is what the token ceiling leaves after the prompt and the
    margin of 100, at least 1000 and at most 500000; a request to OpenAI
    with the instructions and the request text of the case; a sleep of 60
    seconds. *)
Theorem process_case_requests (case_title case_details : str)
    (w : list event) :
  exists t,
    snd (process_case token_limit count_tokens gemini_api openai_api
           gemini_prompt_templates openai_prompt extraction_prompt
           literal_eval case_title case_details w) = w ++ t
    /\ Forall (case_event token_limit count_tokens gemini_prompt_templates
                 openai_prompt extraction_prompt case_title case_details) t.
Proof.
  revert w.
  change (adds (case_event token_limit count_tokens gemini_prompt_templates
                  openai_prompt extraction_prompt case_title case_details)
            (process_case token_limit count_tokens gemini_api openai_api
               gemini_prompt_templates openai_prompt extraction_prompt
               literal_eval case_title case_details)).
  set (P := case_event token_limit count_tokens gemini_prompt_templates
              openai_prompt extraction_prompt case_title case_details).
  assert (P (Sleep 60)) as Hsleep by done.
  assert (forall templates idx acc,
            (forall template, template ∈ templates ->
               template ∈ gemini_prompt_templates) ->
            adds P (gemini_loop token_limit count_tokens gemini_api
                      case_title case_details idx templates acc)) as Hloop.
  { induction templates as [|template rest IH]; intros idx acc Hsub;
      [apply adds_ret|].
    cbn [gemini_loop]. apply adds_bind.
    - unfold gemini_turn. apply adds_try; [|intros; apply adds_ret].
      apply adds_bind; [|intros; apply adds_ret].
      unfold extract_gemini_case_output.
      apply adds_extract_gemini_output; [|done].
      intros m Hm. split; [done|]. left. exists template.
      split; [apply Hsub; by left | done].
    - intros ae _ _ _. apply IH. intros t' Ht'. apply Hsub. by right. }
  unfold process_case. apply adds_bind; [by apply Hloop|].
  intros fe _ _ _. cbv zeta. apply adds_bind.
  { unfold openai_fields. apply adds_try; [|intros; apply adds_ret].
    apply adds_bind.
    - unfold extract_openai_output. by apply adds_openai_attempts.
    - intros out _ _ _. case_bool_decide; apply adds_ret. }
  intros gpt w1 w2 Hgpt. apply adds_bind; [|intros; apply adds_ret].
  apply adds_try; [|intros; apply adds_ret].
  unfold compare_llm_output. apply adds_bind; [|intros; apply adds_ret].
  apply adds_extract_gemini_output; [|done].
  intros m Hm. split; [done|]. right.
  exists gpt, (select_gemini_fields (pad_to 13 NA (fst fe))).
  split_and!; [|done|done].
  destruct (openai_fields_returns openai_api openai_prompt case_title
              case_details w1) as (l & w' & Hl & Hlen).
  rewrite Hl in Hgpt. by injection Hgpt as <- _.
Qed.

End Requests.

(** * Further properties of the cleaned citation *)

Lemma remove_years_sublist : forall s st,
  sublist (Scraper.remove_years st s) s.
Proof.
  induction s as [|c s IH]; intros st; [done|].
  cbn [Scraper.remove_years].
  destruct st as [|[|k]|]; try (apply sublist_cons, IH).
  - destruct (Scraper.year_at (c :: s)); [apply sublist_cons, IH|].
    apply sublist_skip, IH.
  - destruct (isspace c); [apply sublist_cons, IH|].
    destruct (Scraper.year_at (c :: s)); [apply sublist_cons, IH|].
    apply sublist_skip, IH.
Qed.

Lemma remove_years_no_bracket : forall s,
  91 ∉ s -> Scraper.remove_years Scraper.Looking s = s.
Proof.
  induction s as [|c s IH]; intros H; [done|].
  apply not_elem_of_cons in H as [Hc Hs].
  cbn [Scraper.remove_years].
  assert (Scraper.year_at (c :: s) = false) as ->.
  { unfold Scraper.year_at.
    destruct c as [|p]; [done|].
    repeat (destruct p as [p|p|]; try done). }
  by rewrite IH.
Qed.

Lemma remove_years_spaces : forall s,
  Scraper.remove_years Scraper.Spaces s
  = Scraper.remove_years Scraper.Looking (lstrip s).
Proof.
  unfold lstrip. induction s as [|c s IH]; [done|].
  cbn [Scraper.remove_years dropwhile].
  destruct (isspace c); [exact IH|]. reflexivity.
Qed.

(** X23.  Cleaning a citation only deletes characters: what is left is
    the citation with some characters taken out, in the same order.  A
    citation without an opening bracket is left as it is.  A citation of
    the usual shape, a year of four decimal digits in brackets and then a
    reference without opening bracket, becomes the reference without the
    white space at its start. *)
Theorem clean_citation_deletes_only (s : str) :
  sublist (Scraper.clean_citation (Some s)) s
  /\ (91 ∉ s -> Scraper.clean_citation (Some s) = s)
  /\ (forall a b c d reference,
        s = [91; a; b; c; d; 93] ++ reference ->
        isdecimal a && isdecimal b && isdecimal c && isdecimal d = true ->
        91 ∉ reference ->
        Scraper.clean_citation (Some s) = lstrip reference).
Proof.
  assert (Scraper.clean_citation (Some s)
          = Scraper.remove_years Scraper.Looking s) as ->
    by (by destruct s).
  split_and!.
  - apply remove_years_sublist.
  - apply remove_years_no_bracket.
  - intros a b c d reference -> Hdec Href.
    cbn [app Scraper.remove_years]. unfold Scraper.year_at. rewrite Hdec.
    rewrite remove_years_spaces. apply remove_years_no_bracket.
    intros Hin. apply Href.
    destruct (dropwhile_suffix isspace reference) as [pre Hpre].
    rewrite Hpre. apply elem_of_app. by right.
Qed.

Lemma clean_citation_deletes_only_witness :
  Scraper.clean_citation (Some (lit "[2024] SGHCF 12")) = lit "SGHCF 12".
Proof.
  destruct (clean_citation_deletes_only (lit "[2024] SGHCF 12"))
    as (_ & _ & H).
  apply (H 50 48 50 52 (lit " SGHCF 12")); [reflexivity | reflexivity |].
  intros Hin. apply list_elem_of_In in Hin. revert Hin. vm_compute.
  intuition discriminate.
Defined.
